(** * utils/call_llm.py: the cached, logged LLM call

    A shallow embedding of [call_llm] (src/utils/call_llm.py, lines 25-113)
    together with the collaborators it drives: the [llm_logger] logger, the
    cache file [llm_cache.json] (read and written as UTF-8 JSON) and the
    remote generation client.

    Layout:
    - Python strings, exceptions and the UTF-8 codec of [open(..., encoding='utf-8')];
    - Python values as [json.load] builds them, and the dict operations used;
    - [json.dump(cache, f, ensure_ascii=False, indent=4)] and [json.load(f)];
    - the world (file, log, standard output, remote calls) and its monad;
    - [call_llm];
    - the configuration of the module and its demonstration run;
    - the properties. *)

From Stdlib Require Import List NArith ZArith Lia Bool String Ascii.

From Stdlib Require Decimal DecimalFacts DecimalPos DecimalN DecimalZ.

Import ListNotations.

Set Implicit Arguments.

#[local] Open Scope N_scope.

(* ================================================================== *)
(** ** Python strings *)

(** A Python [str] is a sequence of code points.  Lone surrogates
    (U+D800..U+DFFF) are legal members of a [str]; they only fail when the
    string is encoded. *)
Definition codepoint := N.

Definition pystr := list codepoint.

(** The content of a file on disk: octets. *)
Definition bytes := list N.

(** An ASCII literal of the source as a [pystr]. *)
Definition lit (s : string) : pystr := map N_of_ascii (list_ascii_of_string s).

Definition pystr_eqb (a b : pystr) : bool :=
  if list_eq_dec N.eq_dec a b then true else false.

(** [a.startswith(p)], returning what follows the prefix. *)
Fixpoint strip_prefix (p s : pystr) : option pystr :=
  match p, s with
  | [], _ => Some s
  | c :: p', d :: s' => if c =? d then strip_prefix p' s' else None
  | _ :: _, [] => None
  end.

(** [sub in s] on two strings: substring search. *)
Fixpoint is_substring (sub s : pystr) : bool :=
  match strip_prefix sub s with
  | Some _ => true
  | None => match s with
            | [] => false
            | _ :: s' => is_substring sub s'
            end
  end.

(* ================================================================== *)
(** ** The UTF-8 codec (strict error handler, as [open] uses by default) *)

Definition is_surrogate (c : codepoint) : bool :=
  (0xD800 <=? c) && (c <=? 0xDFFF).

(** Code points that UTF-8 can carry: the Unicode scalar values. *)
Definition is_scalar (c : codepoint) : bool :=
  (c <? 0x110000) && negb (is_surrogate c).

Definition utf8_encode_cp (c : codepoint) : option bytes :=
  if c <? 0x80 then Some [c]
  else if c <? 0x800 then Some [0xC0 + c / 64; 0x80 + c mod 64]
  else if c <? 0x10000 then
    if is_surrogate c then None
    else Some [0xE0 + c / 4096; 0x80 + (c / 64) mod 64; 0x80 + c mod 64]
  else if c <? 0x110000 then
    Some [0xF0 + c / 262144; 0x80 + (c / 4096) mod 64;
          0x80 + (c / 64) mod 64; 0x80 + c mod 64]
  else None.

(** [s.encode('utf-8')]: [None] stands for [UnicodeEncodeError]. *)
Fixpoint utf8_encode (s : pystr) : option bytes :=
  match s with
  | [] => Some []
  | c :: s' =>
    match utf8_encode_cp c, utf8_encode s' with
    | Some b, Some bs => Some (b ++ bs)
    | _, _ => None
    end
  end.

(** The bytes of the longest prefix of [s] that can be encoded. *)
Fixpoint utf8_encode_prefix (s : pystr) : bytes :=
  match s with
  | [] => []
  | c :: s' =>
    match utf8_encode_cp c with
    | Some b => b ++ utf8_encode_prefix s'
    | None => []
    end
  end.

Definition is_cont (b : N) : bool := (0x80 <=? b) && (b <=? 0xBF).

(** [b.decode('utf-8')]: [None] stands for [UnicodeDecodeError].  Overlong
    forms, encoded surrogates and values above U+10FFFF are rejected. *)
Fixpoint utf8_decode (bs : bytes) : option pystr :=
  match bs with
  | [] => Some []
  | b1 :: r1 =>
    if b1 <? 0x80 then option_map (cons b1) (utf8_decode r1)
    else if (0xC2 <=? b1) && (b1 <=? 0xDF) then
      match r1 with
      | b2 :: r2 =>
        if is_cont b2
        then option_map (cons ((b1 - 0xC0) * 64 + (b2 - 0x80))) (utf8_decode r2)
        else None
      | _ => None
      end
    else if (0xE0 <=? b1) && (b1 <=? 0xEF) then
      match r1 with
      | b2 :: b3 :: r3 =>
        let c := (b1 - 0xE0) * 4096 + (b2 - 0x80) * 64 + (b3 - 0x80) in
        if is_cont b2 && is_cont b3 && (0x800 <=? c) && negb (is_surrogate c)
        then option_map (cons c) (utf8_decode r3)
        else None
      | _ => None
      end
    else if (0xF0 <=? b1) && (b1 <=? 0xF4) then
      match r1 with
      | b2 :: b3 :: b4 :: r4 =>
        let c := (b1 - 0xF0) * 262144 + (b2 - 0x80) * 4096
                 + (b3 - 0x80) * 64 + (b4 - 0x80) in
        if is_cont b2 && is_cont b3 && is_cont b4
           && (0x10000 <=? c) && (c <? 0x110000)
        then option_map (cons c) (utf8_decode r4)
        else None
      | _ => None
      end
    else None
  end.

(* ================================================================== *)
(** ** Exceptions and results *)

(** An instance of [Exception]: its class and [str(e)].  What the code
    catches with [except Exception] is of this type. *)
Record exn : Type := mk_exn { exn_class : string; exn_msg : pystr }.

Inductive result (A : Type) : Type :=
| Ok (a : A)
| Raise (e : exn).

Arguments Raise {A} e.

Definition TypeError (msg : pystr) : exn := mk_exn "TypeError" msg.

Definition KeyError (msg : pystr) : exn := mk_exn "KeyError" msg.

Definition JSONDecodeError : exn :=
  mk_exn "JSONDecodeError" (lit "Expecting value").

Definition UnicodeDecodeError : exn :=
  mk_exn "UnicodeDecodeError" (lit "'utf-8' codec can't decode byte").

Definition UnicodeEncodeError : exn :=
  mk_exn "UnicodeEncodeError" (lit "'utf-8' codec can't encode character").

(* ================================================================== *)
(** ** Python values, as [json.load] builds them *)

(** A float is carried as the literal that denotes it: [call_llm] never
    computes with one, it only hands it from the file back to the file. *)
#[local] Unset Elimination Schemes.

Inductive pyvalue : Type :=
| PyNone
| PyBool (b : bool)
| PyInt (z : Z)
| PyFloat (lexeme : pystr)
| PyStr (s : pystr)
| PyList (vs : list pyvalue)
| PyDict (kvs : list (pystr * pyvalue)).

#[local] Set Elimination Schemes.

(** The induction principle that reaches inside lists and dicts. *)
Section pyvalue_rect.
Variable P : pyvalue -> Prop.
Hypothesis HNone : P PyNone.
Hypothesis HBool : forall b, P (PyBool b).
Hypothesis HInt : forall z, P (PyInt z).
Hypothesis HFloat : forall l, P (PyFloat l).
Hypothesis HStr : forall s, P (PyStr s).
Hypothesis HList : forall vs, Forall P vs -> P (PyList vs).
Hypothesis HDict : forall kvs, Forall (fun kv => P (snd kv)) kvs -> P (PyDict kvs).

Fixpoint pyvalue_ind' (v : pyvalue) : P v :=
  match v with
  | PyNone => HNone
  | PyBool b => HBool b
  | PyInt z => HInt z
  | PyFloat l => HFloat l
  | PyStr s => HStr s
  | PyList vs =>
    HList ((fix go (l : list pyvalue) : Forall P l :=
              match l with
              | [] => Forall_nil _
              | x :: l' => Forall_cons _ (pyvalue_ind' x) (go l')
              end) vs)
  | PyDict kvs =>
    HDict ((fix go (l : list (pystr * pyvalue))
              : Forall (fun kv => P (snd kv)) l :=
              match l with
              | [] => Forall_nil _
              | kv :: l' =>
                Forall_cons (P := fun kv => P (snd kv)) kv
                            (pyvalue_ind' (snd kv)) (go l')
              end) kvs)
  end.
End pyvalue_rect.

(** [type(v).__name__] *)
Definition type_name (v : pyvalue) : string :=
  match v with
  | PyNone => "NoneType"
  | PyBool _ => "bool"
  | PyInt _ => "int"
  | PyFloat _ => "float"
  | PyStr _ => "str"
  | PyList _ => "list"
  | PyDict _ => "dict"
  end.

(** *** dict: insertion-ordered, one entry per key *)

Definition dict := list (pystr * pyvalue).

Fixpoint dict_get (k : pystr) (d : dict) : option pyvalue :=
  match d with
  | [] => None
  | (k', v) :: d' => if pystr_eqb k' k then Some v else dict_get k d'
  end.

Definition dict_mem (k : pystr) (d : dict) : bool :=
  match dict_get k d with Some _ => true | None => false end.

(** [d[k] = v]: an existing key keeps its place, a new one goes last. *)
Fixpoint dict_set (k : pystr) (v : pyvalue) (d : dict) : dict :=
  match d with
  | [] => [(k, v)]
  | (k', v') :: d' =>
    if pystr_eqb k' k then (k', v) :: d' else (k', v') :: dict_set k v d'
  end.

(** [dict(pairs)]: a later pair with the same key overwrites the value. *)
Definition dict_of_pairs (ps : list (pystr * pyvalue)) : dict :=
  fold_left (fun d kv => dict_set (fst kv) (snd kv) d) ps [].

(** *** The three operations that [call_llm] applies to [cache] *)

(** [x == prompt] for an element [x] of a list. *)
Definition py_eq_str (v : pyvalue) (s : pystr) : bool :=
  match v with
  | PyStr t => pystr_eqb t s
  | _ => false
  end.

(** [prompt in cache] (line 47). *)
Definition py_contains (cache : pyvalue) (prompt : pystr) : result bool :=
  match cache with
  | PyDict d => Ok (dict_mem prompt d)
  | PyList vs => Ok (existsb (fun v => py_eq_str v prompt) vs)
  | PyStr s => Ok (is_substring prompt s)
  | _ => Raise (TypeError (lit "argument of type '" ++ lit (type_name cache)
                           ++ lit "' is not iterable"))
  end.

(** [cache[prompt]] (line 48). *)
Definition py_getitem (cache : pyvalue) (prompt : pystr) : result pyvalue :=
  match cache with
  | PyDict d =>
    match dict_get prompt d with
    | Some v => Ok v
    | None => Raise (KeyError prompt)
    end
  | PyList _ => Raise (TypeError (lit "list indices must be integers or slices, not str"))
  | PyStr _ => Raise (TypeError (lit "string indices must be integers, not 'str'"))
  | _ => Raise (TypeError (lit "'" ++ lit (type_name cache)
                           ++ lit "' object is not subscriptable"))
  end.

(** [cache[prompt] = response_text] (line 104). *)
Definition py_setitem (cache : pyvalue) (prompt : pystr) (v : pyvalue)
  : result pyvalue :=
  match cache with
  | PyDict d => Ok (PyDict (dict_set prompt v d))
  | PyList _ => Raise (TypeError (lit "list indices must be integers or slices, not str"))
  | _ => Raise (TypeError (lit "'" ++ lit (type_name cache)
                           ++ lit "' object does not support item assignment"))
  end.

(* ================================================================== *)
(** ** [json.dump(cache, f, ensure_ascii=False, indent=4)]: the text *)

(** Lines 107-109 hand the cache to the encoder of Python's [json] module:
    the item separator is a comma, the key separator a colon and a space,
    every nesting level is indented by four spaces, empty lists and dicts
    are written [[]] and [{}].  A float is written with the literal it is
    carried as; Python would write the [repr] of the same float. *)

(** Code points the codec names. *)
Definition QUOTE : codepoint := 0x22.

Definition BACKSLASH : codepoint := 0x5C.

Definition COMMA : codepoint := 0x2C.

Definition COLON : codepoint := 0x3A.

Definition LBRACE : codepoint := 0x7B.

Definition RBRACE : codepoint := 0x7D.

Definition LBRACKET : codepoint := 0x5B.

Definition RBRACKET : codepoint := 0x5D.

Definition SPACE : codepoint := 0x20.

Definition NEWLINE : codepoint := 0x0A.

Definition MINUS : codepoint := 0x2D.

Definition DOT : codepoint := 0x2E.

Definition hex_digit (n : N) : codepoint :=
  if n <? 10 then 0x30 + n else 0x61 + (n - 10).

(** One character of a string under [encode_basestring]: with
    [ensure_ascii=False] only the quote, the backslash and the control
    characters below U+0020 are escaped; everything else, non-ASCII
    included, is written as it is. *)
Definition escape_cp (c : codepoint) : pystr :=
  if c =? BACKSLASH then [BACKSLASH; BACKSLASH]
  else if c =? QUOTE then [BACKSLASH; QUOTE]
  else if c =? 0x08 then [BACKSLASH; 0x62]
  else if c =? 0x0C then [BACKSLASH; 0x66]
  else if c =? 0x0A then [BACKSLASH; 0x6E]
  else if c =? 0x0D then [BACKSLASH; 0x72]
  else if c =? 0x09 then [BACKSLASH; 0x74]
  else if c <? 0x20 then
    [BACKSLASH; 0x75; 0x30; 0x30; hex_digit (c / 16); hex_digit (c mod 16)]
  else [c].

Definition encode_basestring (s : pystr) : pystr :=
  QUOTE :: flat_map escape_cp s ++ [QUOTE].

Fixpoint uint_digits (d : Decimal.uint) : pystr :=
  match d with
  | Decimal.Nil => []
  | Decimal.D0 d => 0x30 :: uint_digits d
  | Decimal.D1 d => 0x31 :: uint_digits d
  | Decimal.D2 d => 0x32 :: uint_digits d
  | Decimal.D3 d => 0x33 :: uint_digits d
  | Decimal.D4 d => 0x34 :: uint_digits d
  | Decimal.D5 d => 0x35 :: uint_digits d
  | Decimal.D6 d => 0x36 :: uint_digits d
  | Decimal.D7 d => 0x37 :: uint_digits d
  | Decimal.D8 d => 0x38 :: uint_digits d
  | Decimal.D9 d => 0x39 :: uint_digits d
  end.

(** [int.__repr__] *)
Definition int_repr (z : Z) : pystr :=
  match Z.to_int z with
  | Decimal.Pos d => uint_digits d
  | Decimal.Neg d => MINUS :: uint_digits d
  end.

(** A line break followed by the indentation of [level]. *)
Definition newline_indent (level : nat) : pystr :=
  NEWLINE :: repeat SPACE (4 * level).

(** [sep.join(items)] *)
Fixpoint join (sep : pystr) (items : list pystr) : pystr :=
  match items with
  | [] => []
  | [x] => x
  | x :: rest => x ++ sep ++ join sep rest
  end.

(** What [_iterencode] yields for [v] at a nesting [level], concatenated. *)
Fixpoint iterencode (level : nat) (v : pyvalue) : pystr :=
  match v with
  | PyNone => lit "null"
  | PyBool true => lit "true"
  | PyBool false => lit "false"
  | PyInt z => int_repr z
  | PyFloat lexeme => lexeme
  | PyStr s => encode_basestring s
  | PyList [] => lit "[]"
  | PyList vs =>
    [LBRACKET] ++ newline_indent (S level)
      ++ join (COMMA :: newline_indent (S level))
              (map (iterencode (S level)) vs)
      ++ newline_indent level ++ [RBRACKET]
  | PyDict [] => lit "{}"
  | PyDict kvs =>
    [LBRACE] ++ newline_indent (S level)
      ++ join (COMMA :: newline_indent (S level))
              (map (fun kv => encode_basestring (fst kv) ++ [COLON; SPACE]
                              ++ iterencode (S level) (snd kv)) kvs)
      ++ newline_indent level ++ [RBRACE]
  end.

Definition json_dumps (v : pyvalue) : pystr := iterencode 0 v.

(* ================================================================== *)
(** ** [json.load(f)]: the scanner *)

(** Lines 40-41 and 96-97 hand the text of the file to the decoder of
    Python's [json] module, in strict mode and without hooks.  Left out: the
    translation of line ends done by a file opened in text mode (it turns a
    carriage return into a line feed, both white space between tokens and
    both refused inside strings), the limit on the digits of an integer
    literal and the limit on the recursion depth. *)
Definition is_ws (c : codepoint) : bool :=
  (c =? 0x20) || (c =? 0x09) || (c =? 0x0A) || (c =? 0x0D).

Fixpoint skip_ws (s : pystr) : pystr :=
  match s with
  | c :: s' => if is_ws c then skip_ws s' else s
  | [] => []
  end.

Definition is_digit (c : codepoint) : bool := (0x30 <=? c) && (c <=? 0x39).

Definition hex_value (c : codepoint) : option N :=
  if (0x30 <=? c) && (c <=? 0x39) then Some (c - 0x30)
  else if (0x61 <=? c) && (c <=? 0x66) then Some (c - 0x61 + 10)
  else if (0x41 <=? c) && (c <=? 0x46) then Some (c - 0x41 + 10)
  else None.

(** The four hex digits of a [\uXXXX] escape. *)
Definition hex4 (a b c d : codepoint) : option N :=
  match hex_value a, hex_value b, hex_value c, hex_value d with
  | Some x, Some y, Some z, Some w => Some (((x * 16 + y) * 16 + z) * 16 + w)
  | _, _, _, _ => None
  end.

(** The [BACKSLASH] table of the decoder. *)
Definition unescape (e : codepoint) : option codepoint :=
  if e =? QUOTE then Some QUOTE
  else if e =? BACKSLASH then Some BACKSLASH
  else if e =? 0x2F then Some 0x2F
  else if e =? 0x62 then Some 0x08
  else if e =? 0x66 then Some 0x0C
  else if e =? 0x6E then Some 0x0A
  else if e =? 0x72 then Some 0x0D
  else if e =? 0x74 then Some 0x09
  else None.

Definition is_high_surrogate (c : N) : bool := (0xD800 <=? c) && (c <=? 0xDBFF).

Definition is_low_surrogate (c : N) : bool := (0xDC00 <=? c) && (c <=? 0xDFFF).

Definition cons_fst (A B : Type) (a : A) (r : option (list A * B))
  : option (list A * B) :=
  match r with
  | Some (l, b) => Some (a :: l, b)
  | None => None
  end.

(** [scanstring(s, end, strict=True)], started after the opening quote:
    the string's content and what follows the closing quote. *)
Fixpoint scanstring (s : pystr) : option (pystr * pystr) :=
  match s with
  | [] => None
  | c :: s1 =>
    if c =? QUOTE then Some ([], s1)
    else if c =? BACKSLASH then
      match s1 with
      | [] => None
      | e :: s2 =>
        if e =? 0x75 then
          match s2 with
          | x1 :: x2 :: x3 :: x4 :: s6 =>
            match hex4 x1 x2 x3 x4 with
            | None => None
            | Some uni =>
              match s6 with
              | b :: u :: y1 :: y2 :: y3 :: y4 :: s12 =>
                if is_high_surrogate uni && (b =? BACKSLASH) && (u =? 0x75) then
                  match hex4 y1 y2 y3 y4 with
                  | None => None
                  | Some uni2 =>
                    if is_low_surrogate uni2
                    then cons_fst (0x10000 + ((uni - 0xD800) * 1024 + (uni2 - 0xDC00)))
                                  (scanstring s12)
                    else cons_fst uni (scanstring s6)
                  end
                else cons_fst uni (scanstring s6)
              | _ => cons_fst uni (scanstring s6)
              end
            end
          | _ => None
          end
        else
          match unescape e with
          | Some ch => cons_fst ch (scanstring s2)
          | None => None
          end
      end
    else if c <? 0x20 then None
    else cons_fst c (scanstring s1)
  end.

(** *** Numbers: [NUMBER_RE], matched at the head of [s] *)

(** The longest run of digits and what follows it. *)
Fixpoint span_digits (s : pystr) : pystr * pystr :=
  match s with
  | c :: s' =>
    if is_digit c then let (ds, r) := span_digits s' in (c :: ds, r)
    else ([], s)
  | [] => ([], [])
  end.

(** The optional minus sign. *)
Definition opt_minus (s : pystr) : pystr * pystr :=
  match s with
  | c :: r => if c =? MINUS then ([c], r) else ([], s)
  | [] => ([], [])
  end.

(** The integer group: a lone 0, or a non-zero digit and the digits after
    it; an empty match means that the pattern fails. *)
Definition int_part (s : pystr) : pystr * pystr :=
  match s with
  | c :: r => if c =? 0x30 then ([c], r) else span_digits s
  | [] => ([], [])
  end.

(** The optional fraction: a dot and at least one digit. *)
Definition frac_part (s : pystr) : pystr * pystr :=
  match s with
  | c :: r =>
    if c =? DOT then
      match span_digits r with
      | ([], _) => ([], s)
      | (ds, r') => (c :: ds, r')
      end
    else ([], s)
  | [] => ([], [])
  end.

Definition is_sign (c : codepoint) : bool := (c =? 0x2B) || (c =? MINUS).

(** The optional exponent: e or E, an optional sign, at least one digit. *)
Definition exp_part (s : pystr) : pystr * pystr :=
  match s with
  | e :: r =>
    if (e =? 0x65) || (e =? 0x45) then
      match r with
      | sg :: r1 =>
        if is_sign sg then
          match span_digits r1 with
          | ([], _) => ([], s)
          | (ds, r') => (e :: sg :: ds, r')
          end
        else
          match span_digits r with
          | ([], _) => ([], s)
          | (ds, r') => (e :: ds, r')
          end
      | [] => ([], s)
      end
    else ([], s)
  | [] => ([], [])
  end.

Fixpoint digits_uint (ds : pystr) : Decimal.uint :=
  match ds with
  | [] => Decimal.Nil
  | c :: ds' =>
    let d := digits_uint ds' in
    if c =? 0x30 then Decimal.D0 d
    else if c =? 0x31 then Decimal.D1 d
    else if c =? 0x32 then Decimal.D2 d
    else if c =? 0x33 then Decimal.D3 d
    else if c =? 0x34 then Decimal.D4 d
    else if c =? 0x35 then Decimal.D5 d
    else if c =? 0x36 then Decimal.D6 d
    else if c =? 0x37 then Decimal.D7 d
    else if c =? 0x38 then Decimal.D8 d
    else Decimal.D9 d
  end.

(** [int(integer)] on the text that the first group matched. *)
Definition parse_int (sign digits : pystr) : Z :=
  match sign with
  | [] => Z.of_int (Decimal.Pos (digits_uint digits))
  | _ => Z.of_int (Decimal.Neg (digits_uint digits))
  end.

Definition scan_number (s : pystr) : option (pyvalue * pystr) :=
  let (sign, s1) := opt_minus s in
  let (digits, s2) := int_part s1 in
  match digits with
  | [] => None
  | _ :: _ =>
    let (frac, s3) := frac_part s2 in
    let (exp, s4) := exp_part s3 in
    match frac, exp with
    | [], [] => Some (PyInt (parse_int sign digits), s4)
    | _, _ => Some (PyFloat (sign ++ digits ++ frac ++ exp), s4)
    end
  end.

(** *** Values *)

Inductive scan (A : Type) : Type :=
| Parsed (a : A) (rest : pystr)   (* a value and the text after it *)
| Invalid                         (* [JSONDecodeError] *)
| Exhausted.                      (* the fuel of the model ran out *)
Arguments Invalid {A}.

Arguments Exhausted {A}.

Definition scan_map (A B : Type) (f : A -> B) (r : scan A) : scan B :=
  match r with
  | Parsed a rest => Parsed (f a) rest
  | Invalid => Invalid
  | Exhausted => Exhausted
  end.

(** The literals and numbers of [_scan_once], tried in its order. *)
Definition scan_atom (s : pystr) : scan pyvalue :=
  match strip_prefix (lit "null") s with
  | Some r => Parsed PyNone r
  | None =>
  match strip_prefix (lit "true") s with
  | Some r => Parsed (PyBool true) r
  | None =>
  match strip_prefix (lit "false") s with
  | Some r => Parsed (PyBool false) r
  | None =>
  match scan_number s with
  | Some (v, r) => Parsed v r
  | None =>
  match strip_prefix (lit "NaN") s with
  | Some r => Parsed (PyFloat (lit "NaN")) r
  | None =>
  match strip_prefix (lit "Infinity") s with
  | Some r => Parsed (PyFloat (lit "Infinity")) r
  | None =>
  match strip_prefix (lit "-Infinity") s with
  | Some r => Parsed (PyFloat (lit "-Infinity")) r
  | None => Invalid
  end end end end end end end.

(** [_scan_once], [JSONArray] and [JSONObject].  Each call spends one unit
    of [fuel]; [json_loads] below provides enough of it for any text. *)
Fixpoint scan_once (fuel : nat) (s : pystr) : scan pyvalue :=
  match fuel with
  | O => Exhausted
  | S fuel' =>
    match s with
    | [] => Invalid
    | c :: s1 =>
      if c =? QUOTE then
        match scanstring s1 with
        | Some (str, r) => Parsed (PyStr str) r
        | None => Invalid
        end
      else if c =? LBRACE then
        match skip_ws s1 with
        | [] => Invalid
        | c2 :: s3 =>
          if c2 =? RBRACE then Parsed (PyDict []) s3
          else scan_map (fun ps => PyDict (dict_of_pairs ps))
                        (scan_members fuel' (c2 :: s3))
        end
      else if c =? LBRACKET then
        match skip_ws s1 with
        | [] => Invalid
        | c2 :: s3 =>
          if c2 =? RBRACKET then Parsed (PyList []) s3
          else scan_map PyList (scan_elems fuel' (c2 :: s3))
        end
      else scan_atom s
    end
  end

with scan_elems (fuel : nat) (s : pystr) : scan (list pyvalue) :=
  match fuel with
  | O => Exhausted
  | S fuel' =>
    match scan_once fuel' s with
    | Parsed v r =>
      match skip_ws r with
      | [] => Invalid
      | c :: r1 =>
        if c =? RBRACKET then Parsed [v] r1
        else if c =? COMMA then
          scan_map (cons v) (scan_elems fuel' (skip_ws r1))
        else Invalid
      end
    | Invalid => Invalid
    | Exhausted => Exhausted
    end
  end

with scan_members (fuel : nat) (s : pystr) : scan (list (pystr * pyvalue)) :=
  match fuel with
  | O => Exhausted
  | S fuel' =>
    match s with
    | [] => Invalid
    | q :: s1 =>
      if q =? QUOTE then
        match scanstring s1 with
        | None => Invalid
        | Some (key, r) =>
          match skip_ws r with
          | [] => Invalid
          | c :: r1 =>
            if c =? COLON then
              match scan_once fuel' (skip_ws r1) with
              | Parsed v r2 =>
                match skip_ws r2 with
                | [] => Invalid
                | c2 :: r3 =>
                  if c2 =? RBRACE then Parsed [(key, v)] r3
                  else if c2 =? COMMA then
                    scan_map (cons (key, v)) (scan_members fuel' (skip_ws r3))
                  else Invalid
                end
              | Invalid => Invalid
              | Exhausted => Exhausted
              end
            else Invalid
          end
        end
      else Invalid
    end
  end.

(** [json.loads(s)]: one value, surrounded by nothing but whitespace. *)
Definition json_loads (s : pystr) : scan pyvalue :=
  match scan_once (2 * List.length s + 1) (skip_ws s) with
  | Parsed v r =>
    match skip_ws r with
    | [] => Parsed v []
    | _ :: _ => Invalid
    end
  | e => e
  end.

(* ================================================================== *)
(** ** Notions for the round trip between the encoder and the scanner *)

(** What may follow a value in the encoder's output: the end of the text, a
    comma, or a line break. *)
Definition value_end (rest : pystr) : bool :=
  match rest with
  | [] => true
  | c :: _ => (c =? COMMA) || (c =? NEWLINE)
  end.

(** The literals that may stand in a [PyFloat]: a text that [NUMBER_RE]
    matches whole with a fraction or an exponent, or one of the three
    constants. *)
Definition float_lexeme (lex : pystr) : bool :=
  match scan_number lex with
  | Some (PyFloat l, []) => pystr_eqb l lex
  | _ => pystr_eqb lex (lit "NaN") || pystr_eqb lex (lit "Infinity")
         || pystr_eqb lex (lit "-Infinity")
  end.

(** *** Well-formed values: what [json.load] can return *)

Fixpoint keys_unique (ks : list pystr) : bool :=
  match ks with
  | [] => true
  | k :: ks' => negb (existsb (pystr_eqb k) ks') && keys_unique ks'
  end.

Fixpoint wf_value (v : pyvalue) : bool :=
  match v with
  | PyFloat lexeme => float_lexeme lexeme
  | PyList vs => forallb wf_value vs
  | PyDict kvs =>
    keys_unique (map fst kvs) && forallb (fun kv => wf_value (snd kv)) kvs
  | _ => true
  end.

(** *** The start of an encoded value *)

Definition value_start (c : codepoint) : bool :=
  is_digit c || (c =? MINUS) || (c =? QUOTE) || (c =? LBRACE) || (c =? LBRACKET)
  || (c =? 0x6E) || (c =? 0x74) || (c =? 0x66) || (c =? 0x4E) || (c =? 0x49).

(** The first character of a number, a constant or a literal. *)
Definition atom_start (c : codepoint) : bool :=
  is_digit c || (c =? MINUS)
  || (c =? 0x6E) || (c =? 0x74) || (c =? 0x66) || (c =? 0x4E) || (c =? 0x49).

Definition starts_value (s : pystr) : Prop :=
  exists c t, s = c :: t /\ value_start c = true.

(** *** Reading back *)

(** [v], written at any nesting level and followed by [rest], is read back
    as [v], leaving [rest], once the fuel is large enough. *)
Definition reads_back (v : pyvalue) : Prop :=
  forall level rest, value_end rest = true ->
  exists n, forall m, (n <= m)%nat ->
    scan_once m (iterencode level v ++ rest) = Parsed v rest.

Definition member_text (level : nat) (kv : pystr * pyvalue) : pystr :=
  encode_basestring (fst kv) ++ [COLON; SPACE] ++ iterencode level (snd kv).

Definition stop_digit (t : pystr) : bool :=
  match t with
  | [] => true
  | c :: _ => negb (is_digit c)
  end.

Definition is_e (c : codepoint) : bool := (c =? 0x65) || (c =? 0x45).

(* ================================================================== *)
(** ** The world of [call_llm] *)

(** *** What the logger and the standard output receive *)

Inductive level : Type := INFO | WARNING | ERROR.

(** An f-string of the source, kept in its parts: the literal text, the
    object in the replacement field, the literal text after it. *)
Inductive fmt_arg : Type :=
| FmtValue (v : pyvalue)
| FmtExn (e : exn).

Record message : Type :=
  mk_message { msg_before : string; msg_arg : fmt_arg; msg_after : string }.

Record log_record : Type := mk_log { log_level : level; log_message : message }.

(** *** The state that a call can read or change *)

(** The request that reaches the remote generation client (lines 58-73). *)
Record request : Type :=
  mk_request { req_api_key : pystr; req_model : pystr; req_contents : list pystr }.

Record world : Type := mk_world {
  cache_file : option bytes;      (* [llm_cache.json]; [None]: no such file *)
  log_lines : list log_record;    (* the log file of [llm_logger], oldest first *)
  stdout : list message;          (* what [print] wrote *)
  fs_stats : nat;                 (* calls of [os.path.exists(cache_file)] *)
  fs_reads : nat;                 (* calls of [open(cache_file, 'r')] *)
  fs_writes : nat;                (* calls of [open(cache_file, 'w')] *)
  remote_calls : list request     (* requests made to the remote client *)
}.

Definition set_cache_file (f : option bytes) (w : world) : world :=
  mk_world f (log_lines w) (stdout w) (fs_stats w) (fs_reads w) (fs_writes w)
           (remote_calls w).

Definition add_log (r : log_record) (w : world) : world :=
  mk_world (cache_file w) (log_lines w ++ [r]) (stdout w) (fs_stats w)
           (fs_reads w) (fs_writes w) (remote_calls w).

Definition add_stdout (m : message) (w : world) : world :=
  mk_world (cache_file w) (log_lines w) (stdout w ++ [m]) (fs_stats w)
           (fs_reads w) (fs_writes w) (remote_calls w).

Definition count_stat (w : world) : world :=
  mk_world (cache_file w) (log_lines w) (stdout w) (S (fs_stats w))
           (fs_reads w) (fs_writes w) (remote_calls w).

Definition count_read (w : world) : world :=
  mk_world (cache_file w) (log_lines w) (stdout w) (fs_stats w)
           (S (fs_reads w)) (fs_writes w) (remote_calls w).

Definition count_write (w : world) : world :=
  mk_world (cache_file w) (log_lines w) (stdout w) (fs_stats w)
           (fs_reads w) (S (fs_writes w)) (remote_calls w).

Definition add_remote_call (r : request) (w : world) : world :=
  mk_world (cache_file w) (log_lines w) (stdout w) (fs_stats w)
           (fs_reads w) (fs_writes w) (remote_calls w ++ [r]).

(** *** What the collaborators answer during one call *)

(** The calls of the logger, by the line of the source. *)
Inductive log_site : Type := Log29 | Log43 | Log51 | Log77 | Log85 | Log99 | Log111.

(** The two [open(cache_file, 'r')], by the line of the source. *)
Inductive read_site : Type := Read40 | Read96.

(** How lines 107-109 end.  [open_error]: [open(cache_file, 'w')] raises and
    the file is untouched.  [dump_error]: the file was truncated and the
    write raises part-way.  [flushed]: how many characters of the text
    reached the disk when the write, for this or for an encoding error,
    does not complete. *)
Record write_outcome : Type :=
  mk_write_outcome { open_error : option exn; dump_error : option exn; flushed : nat }.

(** How lines 58-74 end: an exception, or [response.text]. *)
Inductive remote_outcome : Type :=
| RemoteRaises (e : exn)
| RemoteText (text : option pystr).

Record collaborators : Type := mk_collaborators {
  logger_raises : log_site -> option exn;
  read_raises : read_site -> option exn;
  write_ends : write_outcome;
  remote : request -> remote_outcome;
  getenv : string -> option pystr
}.

(** *** The monad: a state, and a result or an exception *)

Definition M (A : Type) : Type := world -> result A * world.

Definition ret (A : Type) (a : A) : M A := fun w => (Ok a, w).

Definition bind (A B : Type) (m : M A) (k : A -> M B) : M B :=
  fun w =>
    match m w with
    | (Ok a, w') => k a w'
    | (Raise e, w') => (Raise e, w')
    end.

(** [try: body  except Exception as e: handler(e)] *)
Definition try_except (A : Type) (body : M A) (handler : exn -> M A) : M A :=
  fun w =>
    match body w with
    | (Ok a, w') => (Ok a, w')
    | (Raise e, w') => handler e w'
    end.

(** A pure operation that may raise. *)
Definition lift (A : Type) (r : result A) : M A := fun w => (r, w).

Declare Scope monad_scope.

Delimit Scope monad_scope with monad.

Notation "x <- m ;; k" := (bind m (fun x => k))
  (at level 61, m at next level, right associativity) : monad_scope.

Notation "m ;; k" := (bind m (fun _ => k))
  (at level 61, right associativity) : monad_scope.

#[local] Open Scope monad_scope.

(** *** Messages and files *)

Definition fstr (before : string) (v : pyvalue) (after : string) : message :=
  mk_message before (FmtValue v) after.

Definition fstr_exn (before : string) (e : exn) (after : string) : message :=
  mk_message before (FmtExn e) after.

Definition FileNotFoundError : exn :=
  mk_exn "FileNotFoundError" (lit "[Errno 2] No such file or directory: 'llm_cache.json'").

(** What [json.load(f)] makes of the bytes of a file opened with
    [encoding='utf-8'].  The last case does not occur: see
    [json_loads_total]. *)
Definition load_file (b : bytes) : result pyvalue :=
  match utf8_decode b with
  | None => Raise UnicodeDecodeError
  | Some s =>
    match json_loads s with
    | Parsed v _ => Ok v
    | Invalid => Raise JSONDecodeError
    | Exhausted => Raise JSONDecodeError
    end
  end.

(* ================================================================== *)
(** ** The operations of the collaborators, and [call_llm] *)

Section Collaborators.

Variable E : collaborators.

(** [logger.info], [logger.warning], [logger.error] *)
Definition logger_log (site : log_site) (lvl : level) (msg : message) : M unit :=
  fun w =>
    match logger_raises E site with
    | Some e => (Raise e, w)
    | None => (Ok tt, add_log (mk_log lvl msg) w)
    end.

Definition print (msg : message) : M unit :=
  fun w => (Ok tt, add_stdout msg w).

(** [os.path.exists(cache_file)] *)
Definition os_path_exists : M bool :=
  fun w =>
    (Ok (match cache_file w with Some _ => true | None => false end),
     count_stat w).

(** [with open(cache_file, 'r', encoding='utf-8') as f: json.load(f)] *)
Definition open_and_load (site : read_site) : M pyvalue :=
  fun w =>
    match read_raises E site with
    | Some e => (Raise e, count_read w)
    | None =>
      match cache_file w with
      | None => (Raise FileNotFoundError, count_read w)
      | Some b => (load_file b, count_read w)
      end
    end.

(** [with open(cache_file, 'w', encoding='utf-8') as f:
       json.dump(cache, f, ensure_ascii=False, indent=4)] *)
Definition open_and_dump (cache : pyvalue) : M unit :=
  fun w =>
    let o := write_ends E in
    let text := json_dumps cache in
    let torn := Some (utf8_encode_prefix (firstn (flushed o) text)) in
    match open_error o with
    | Some e => (Raise e, count_write w)
    | None =>
      match dump_error o with
      | Some e => (Raise e, set_cache_file torn (count_write w))
      | None =>
        match utf8_encode text with
        | Some b => (Ok tt, set_cache_file (Some b) (count_write w))
        | None => (Raise UnicodeEncodeError, set_cache_file torn (count_write w))
        end
      end
    end.

(** [os.getenv(name, default)] *)
Definition getenv_default (name : string) (default : string) : pystr :=
  match getenv E name with
  | Some v => v
  | None => lit default
  end.

(** The request of lines 58-73. *)
Definition request_for (prompt : pystr) : request :=
  mk_request (getenv_default "GEMINI_API_KEY" "your-api-key")
             (getenv_default "GEMINI_MODEL" "models/gemini-2.5-pro-preview-03-25")
             [prompt].

(** [client.models.generate_content(model=model, contents=[prompt])] and
    the read of [response.text]. *)
Definition generate_content (prompt : pystr) : M (option pystr) :=
  fun w =>
    let req := request_for prompt in
    match remote E req with
    | RemoteRaises e => (Raise e, add_remote_call req w)
    | RemoteText t => (Ok t, add_remote_call req w)
    end.

(* ---------------------------------------------------------------- *)
(** ** [call_llm], block by block *)

(** Lines 26-31: log the prompt. *)
Definition log_prompt (prompt : pystr) : M unit :=
  try_except
    (logger_log Log29 INFO (fstr "PROMPT: " (PyStr prompt) ""))
    (fun log_err => print (fstr_exn "Warning: Failed to log prompt - " log_err "")).

(** Lines 35-44: load the cache from disk. *)
Definition load_cache : M pyvalue :=
  file_exists <- os_path_exists ;;
  if file_exists then
    try_except
      (open_and_load Read40)
      (fun cache_load_err =>
         logger_log Log43 WARNING
           (fstr_exn "Failed to load cache: " cache_load_err
                     ", starting with empty cache") ;;
         ret (PyDict []))
  else ret (PyDict []).

(** Lines 33-54: check the cache if enabled.  [Some v]: the function
    returns [v] at line 54; [None]: it goes on to line 56. *)
Definition check_cache (prompt : pystr) (use_cache : bool) : M (option pyvalue) :=
  if use_cache then
    cache <- load_cache ;;
    found <- lift (py_contains cache prompt) ;;
    if found then
      response_text <- lift (py_getitem cache prompt) ;;
      try_except
        (logger_log Log51 INFO (fstr "RESPONSE (cached): " response_text ""))
        (fun log_err =>
           print (fstr_exn "Warning: Failed to log cached response - " log_err "")) ;;
      ret (Some response_text)
    else ret None
  else ret None.

(** Lines 56-80: call the LLM.  [inl text]: [response_text] at line 74;
    [inr s]: the function returns the string [s] at line 80. *)
Definition generate (prompt : pystr) : M (pystr + pystr) :=
  try_except
    (text <- generate_content prompt ;;
     ret (inl match text with
              | Some t => t
              | None => []
              end))
    (fun llm_err =>
       logger_log Log77 ERROR (fstr_exn "Error calling LLM API: " llm_err "") ;;
       ret (inr (lit "Error calling LLM: " ++ exn_msg llm_err))).

(** Lines 82-87: log the response. *)
Definition log_response (response_text : pystr) : M unit :=
  try_except
    (logger_log Log85 INFO (fstr "RESPONSE (API): " (PyStr response_text) ""))
    (fun log_err =>
       print (fstr_exn "Warning: Failed to log API response - " log_err "")).

(** Lines 91-101: load the cache again. *)
Definition reload_cache : M pyvalue :=
  file_exists <- os_path_exists ;;
  if file_exists then
    try_except
      (open_and_load Read96)
      (fun cache_reload_err =>
         logger_log Log99 WARNING
           (fstr_exn "Failed to reload cache before saving: " cache_reload_err "") ;;
         ret (PyDict []))
  else ret (PyDict []).

(** Lines 103-111: add to the cache and save. *)
Definition save_cache (cache : pyvalue) (prompt response_text : pystr) : M unit :=
  cache' <- lift (py_setitem cache prompt (PyStr response_text)) ;;
  try_except
    (open_and_dump cache')
    (fun e => logger_log Log111 ERROR (fstr_exn "Failed to save cache: " e "")).

(** Lines 89-111: update the cache if enabled. *)
Definition update_cache (prompt response_text : pystr) (use_cache : bool) : M unit :=
  if use_cache then
    cache <- reload_cache ;;
    save_cache cache prompt response_text
  else ret tt.

(** Lines 25-113. *)
Definition call_llm (prompt : pystr) (use_cache : bool) : M pyvalue :=
  log_prompt prompt ;;
  cached <- check_cache prompt use_cache ;;
  match cached with
  | Some response_text => ret response_text
  | None =>
    outcome <- generate prompt ;;
    match outcome with
    | inr error_string => ret (PyStr error_string)
    | inl response_text =>
      log_response response_text ;;
      update_cache prompt response_text use_cache ;;
      ret (PyStr response_text)
    end
  end.

End Collaborators.

(* ================================================================== *)
(** ** Notions for the properties of [call_llm] *)

Definition outcome (A : Type) (m : M A) (w : world) : result A := fst (m w).

Definition after (A : Type) (m : M A) (w : world) : world := snd (m w).

(** The cache file and the counts of its accesses are the same in [w']
    as in [w]. *)
Definition same_cache_file (w w' : world) : Prop :=
  cache_file w' = cache_file w /\ fs_stats w' = fs_stats w
  /\ fs_reads w' = fs_reads w /\ fs_writes w' = fs_writes w.

(** [response.text if response.text is not None else ""] (line 74). *)
Definition text_or_empty (text : option pystr) : pystr :=
  match text with
  | Some t => t
  | None => []
  end.

(** Lines 107-109 complete: the file can be opened and written, and the
    text can be encoded; [b] is what the file then holds. *)
Definition write_succeeds (E : collaborators) (cache : pyvalue) (b : bytes) : Prop :=
  open_error (write_ends E) = None /\ dump_error (write_ends E) = None
  /\ utf8_encode (json_dumps cache) = Some b.

Definition is_json_scalar (v : pyvalue) : bool :=
  match v with
  | PyNone | PyBool _ | PyInt _ | PyFloat _ => true
  | _ => false
  end.

(** The cache file, absent or a JSON object, holds the mapping [d]. *)
Definition holds_mapping (w : world) (d : dict) : Prop :=
  match cache_file w with
  | None => d = []
  | Some b => load_file b = Ok (PyDict d)
  end.



(** Every string inside [v] is made of Unicode scalar values. *)
Fixpoint scalar_value (v : pyvalue) : bool :=
  match v with
  | PyFloat lexeme => forallb is_scalar lexeme
  | PyStr s => forallb is_scalar s
  | PyList vs => forallb scalar_value vs
  | PyDict kvs =>
    forallb (fun kv => forallb is_scalar (fst kv) && scalar_value (snd kv)) kvs
  | _ => true
  end.

(* ================================================================== *)
(** ** Sample collaborators, worlds and cache files *)

Definition quiet (reply : remote_outcome) : collaborators :=
  mk_collaborators (fun _ => None) (fun _ => None)
                   (mk_write_outcome None None 0)
                   (fun _ => reply) (fun _ => None).

Definition fresh (file : option bytes) : world :=
  mk_world file [] [] 0 0 0 [].

Definition hi : pystr := lit "hi".

(** The text [{"hi": 7}]. *)
Definition hi_is_7 : bytes :=
  [LBRACE; QUOTE] ++ hi ++ [QUOTE; COLON; SPACE] ++ lit "7" ++ [RBRACE].

(** The text [{"hi": [1, {}]}]. *)
Definition hi_is_list : bytes :=
  [LBRACE; QUOTE] ++ hi ++ [QUOTE; COLON; SPACE] ++ lit "[1, {}]" ++ [RBRACE].

(** The text [["hi"]]. *)
Definition list_of_hi : bytes := [LBRACKET; QUOTE] ++ hi ++ [QUOTE; RBRACKET].

Definition answers_4 : collaborators := quiet (RemoteText (Some (lit "4"))).

Definition unreachable : exn := mk_exn "ConnectionError" (lit "endpoint unreachable").

(** The text [{"a": "b"}]. *)
Definition a_is_b : bytes :=
  [LBRACE; QUOTE] ++ lit "a" ++ [QUOTE; COLON; SPACE; QUOTE] ++ lit "b"
  ++ [QUOTE; RBRACE].

(** The bytes of the text that maps ["hi"] to ["4"], as the encoder lays
    it out. *)
Definition hi_is_4 : bytes :=
  Eval vm_compute in utf8_encode_prefix (json_dumps (PyDict [(hi, PyStr (lit "4"))])).

(** A prompt and a response outside ASCII: two CJK characters and an emoji. *)
Definition ni_hao : pystr := [0x4F60; 0x597D; 0x1F60A].

(* ================================================================== *)
(** ** The configuration of the module (lines 7-22) *)

Definition SLASH : codepoint := 0x2F.

Definition starts_with_sep (b : pystr) : bool :=
  match b with
  | c :: _ => c =? SLASH
  | [] => false
  end.

(** [os.path.join(a, b)] of [posixpath]: [b] alone when it is absolute or
    [a] is empty, else [a] and [b] with one separator between them. *)
Definition os_path_join (a b : pystr) : pystr :=
  if starts_with_sep b then b
  else match a with
       | [] => b
       | _ :: _ => if last a 0 =? SLASH then a ++ b else a ++ SLASH :: b
       end.

(** The calendar date of [datetime.now()]. *)
Record date : Type := mk_date { year : N; month : N; day : N }.


Definition digit (n : N) : codepoint := 0x30 + n mod 10.

(** [strftime('%Y%m%d')]: the year on four digits, the month and the day on
    two, each padded with zeros. *)
Definition strftime_Ymd (d : date) : pystr :=
  [digit (year d / 1000); digit (year d / 100); digit (year d / 10); digit (year d);
   digit (month d / 10); digit (month d); digit (day d / 10); digit (day d)].

(** Line 8. *)
Definition log_directory (E : collaborators) : pystr :=
  getenv_default E "LOG_DIR" "logs".

(** Line 10, for the date [today] on which the module is loaded. *)
Definition log_file (E : collaborators) (today : date) : pystr :=
  os_path_join (log_directory E)
               (lit "llm_calls_" ++ strftime_Ymd today ++ lit ".log").

(** Line 22. *)
Definition cache_file_path : pystr := lit "llm_cache.json".

(* ================================================================== *)
(** ** The demonstration run (lines 196-211) *)

(** The prompt of line 197, code point by code point as the source file
    has it. *)
Definition test_prompt : pystr :=
  lit "Hello, how are you? "
  ++ [0x2030; 0x3A9; 0x2020; 0xC2; 0x2022; 0x3A9; 0xC2; 0xEA; 0xF3; 0xD4; 0xBA;
      0xFC; 0xF8FF; 0xFC; 0xF2; 0xE4].

(** [print(s)] for a string [s]. *)
Definition print_str (s : pystr) : M unit := print (fstr "" (PyStr s) "").

(** Lines 196-211.  [log_file_path] is the module's [log_file]; [E1] and
    [E2] are what the collaborators answer during the first and the second
    call. *)
Definition main (log_file_path : pystr) (E1 E2 : collaborators) : M unit :=
  print_str (lit "Making call...") ;;
  response1 <- call_llm E1 test_prompt true ;;
  print (fstr "Response 1: " response1 "") ;;
  print_str (NEWLINE :: lit "Making second call (should use cache if enabled)...") ;;
  response2 <- call_llm E2 test_prompt true ;;
  print (fstr "Response 2: " response2 "") ;;
  print (fstr (String "010" "Check log file: ") (PyStr log_file_path) "") ;;
  print (fstr "Check cache file: " (PyStr cache_file_path) "").

(** The world in which the first call of [main] starts, and the world in
    which the second starts when the first returned [response1] in [w1]. *)
Definition before_first_call (w : world) : world :=
  add_stdout (fstr "" (PyStr (lit "Making call...")) "") w.

Definition before_second_call (response1 : pyvalue) (w1 : world) : world :=
  add_stdout
    (fstr "" (PyStr (NEWLINE
                     :: lit "Making second call (should use cache if enabled)...")) "")
    (add_stdout (fstr "Response 1: " response1 "") w1).

(* ================================================================== *)
(** ** Notions for the invariants of a call *)

(** [m] leaves every world in relation [R] with the world it started in. *)
Definition keeps (R : world -> world -> Prop) (A : Type) (m : M A) : Prop :=
  forall w, R w (after m w).

(** [w'] continues [w]: the log, the standard output and the list of remote
    requests of [w] are prefixes of those of [w'], and no count of file
    accesses went down. *)
Definition continues (w w' : world) : Prop :=
  (exists l, log_lines w' = log_lines w ++ l)
  /\ (exists s, stdout w' = stdout w ++ s)
  /\ (exists r, remote_calls w' = remote_calls w ++ r)
  /\ (fs_stats w <= fs_stats w')%nat
  /\ (fs_reads w <= fs_reads w')%nat
  /\ (fs_writes w <= fs_writes w')%nat.

(** What a guarded [logger.info] leaves behind (lines 28-31, 50-53, 84-87):
    the record in the log, or, when the logger raises, the warning on the
    standard output. *)
Definition logged_or_warned (E : collaborators) (site : log_site) (msg : message)
    (warning : string) (w : world) : world :=
  match logger_raises E site with
  | None => add_log (mk_log INFO msg) w
  | Some log_err => add_stdout (fstr_exn warning log_err "") w
  end.

(** The calls of the logger that the source wraps in [try]. *)
Definition guarded_site (s : log_site) : bool :=
  match s with
  | Log29 | Log51 | Log85 => true
  | _ => false
  end.

(** The logger takes the three records at INFO. *)
Definition info_is_logged (E : collaborators) : Prop :=
  forall s, guarded_site s = true -> logger_raises E s = None.

(** [E] with the answers [f] of the logger. *)
Definition with_logger (f : log_site -> option exn) (E : collaborators) : collaborators :=
  mk_collaborators f (read_raises E) (write_ends E) (remote E) (getenv E).

(** [w] and [w'] have the same cache file. *)
Definition same_file (w w' : world) : Prop := cache_file w' = cache_file w.


(** [m'] does what [m] does, up to [R]: started in worlds related by [R],
    they end alike and in worlds related by [R]. *)
Definition simulates (R : world -> world -> Prop) (A : Type) (m m' : M A) : Prop :=
  forall w w', R w w' -> outcome m' w' = outcome m w /\ R (after m w) (after m' w').

(** The records that a call for [prompt] can hand to the logger: the seven
    calls of the logger in the source, each with its level. *)
Definition call_record (prompt : pystr) (r : log_record) : Prop :=
  r = mk_log INFO (fstr "PROMPT: " (PyStr prompt) "")
  \/ (exists e, r = mk_log WARNING (fstr_exn "Failed to load cache: " e
                                             ", starting with empty cache"))
  \/ (exists v, r = mk_log INFO (fstr "RESPONSE (cached): " v ""))
  \/ (exists e, r = mk_log ERROR (fstr_exn "Error calling LLM API: " e ""))
  \/ (exists t, r = mk_log INFO (fstr "RESPONSE (API): " (PyStr t) ""))
  \/ (exists e, r = mk_log WARNING (fstr_exn "Failed to reload cache before saving: " e ""))
  \/ (exists e, r = mk_log ERROR (fstr_exn "Failed to save cache: " e "")).

(** [l'] is [l] with at most [n] records added, each a record of a call
    for [prompt], none of them a warning when [no_warning] holds. *)
Definition logs_at_most (prompt : pystr) (n : nat) (no_warning : Prop)
    (l l' : list log_record) : Prop :=
  exists new, l' = l ++ new
              /\ (List.length new <= n)%nat
              /\ Forall (call_record prompt) new
              /\ (no_warning -> Forall (fun r => log_level r <> WARNING) new).

(** The lines that a call can print: the three warnings about a record
    that the logger did not take. *)
Definition call_warning (m : message) : Prop :=
  exists log_err,
    m = fstr_exn "Warning: Failed to log prompt - " log_err ""
    \/ m = fstr_exn "Warning: Failed to log cached response - " log_err ""
    \/ m = fstr_exn "Warning: Failed to log API response - " log_err "".

(** [s'] is [s] with at most [n] warnings added, none when [quiet] holds. *)
Definition prints_at_most (n : nat) (quiet : Prop) (s s' : list message) : Prop :=
  exists new, s' = s ++ new
              /\ (List.length new <= n)%nat
              /\ Forall call_warning new
              /\ (quiet -> new = []).





(* ================================================================== *)
(** ** More samples *)

Definition disk_full : exn := mk_exn "OSError" (lit "[Errno 28] No space left on device").


(** The text [{"k": "\ud800"}]: an object whose one value is written as
    the escape of a lone surrogate. *)
Definition k_is_surrogate : bytes :=
  [LBRACE; QUOTE] ++ lit "k" ++ [QUOTE; COLON; SPACE; QUOTE; BACKSLASH]
  ++ lit "ud800" ++ [QUOTE; RBRACE].

(** The bytes of the text that maps ["hi"] to ["4"] and ["yo"] to ["4"]. *)
Definition hi_and_yo : bytes :=
  Eval vm_compute in
    utf8_encode_prefix
      (json_dumps (PyDict [(hi, PyStr (lit "4")); (lit "yo", PyStr (lit "4"))])).

(** The bytes of the text that maps the prompt of the demonstration to
    ["4"]. *)
Definition demo_cache : bytes :=
  Eval vm_compute in
    utf8_encode_prefix (json_dumps (PyDict [(test_prompt, PyStr (lit "4"))])).

Definition nov_4_2026 : date := mk_date 2026 11 4.


(* ================================================================== *)
(** * Proofs *)

(* ================================================================== *)
(** ** Python strings *)

Lemma pystr_eqb_eq a b : pystr_eqb a b = true <-> a = b.
Proof.
  unfold pystr_eqb. destruct (list_eq_dec N.eq_dec a b); split; congruence.
Qed.

Lemma pystr_eqb_refl a : pystr_eqb a a = true.
Proof. now apply pystr_eqb_eq. Qed.

Lemma pystr_eqb_neq a b : a <> b -> pystr_eqb a b = false.
Proof.
  intro H. destruct (pystr_eqb a b) eqn:E; [|reflexivity].
  apply pystr_eqb_eq in E. contradiction.
Qed.

Lemma strip_prefix_app p rest : strip_prefix p (p ++ rest) = Some rest.
Proof.
  induction p as [|c p IH]; simpl; [reflexivity|].
  now rewrite N.eqb_refl.
Qed.

(* ================================================================== *)
(** ** The UTF-8 codec: decoding undoes encoding *)

Ltac Zify.zify_post_hook ::= Z.to_euclidean_division_equations.

Ltac bool_to_prop :=
  repeat match goal with
  | H : _ && _ = true |- _ => apply andb_prop in H; destruct H
  | H : _ && _ = false |- _ => apply andb_false_iff in H
  | H : negb _ = true |- _ => apply negb_true_iff in H
  | H : negb _ = false |- _ => apply negb_false_iff in H
  | H : (_ <? _) = true |- _ => apply N.ltb_lt in H
  | H : (_ <? _) = false |- _ => apply N.ltb_ge in H
  | H : (_ <=? _) = true |- _ => apply N.leb_le in H
  | H : (_ <=? _) = false |- _ => apply N.leb_gt in H
  | H : (_ =? _) = true |- _ => apply N.eqb_eq in H
  | H : (_ =? _) = false |- _ => apply N.eqb_neq in H
  end.

Ltac prop_to_bool :=
  repeat match goal with
  | |- _ && _ = true => apply andb_true_intro; split
  | |- negb _ = true => apply negb_true_iff
  | |- (_ <? _) = true => apply N.ltb_lt
  | |- (_ <? _) = false => apply N.ltb_ge
  | |- (_ <=? _) = true => apply N.leb_le
  | |- (_ <=? _) = false => apply N.leb_gt
  | |- (_ =? _) = true => apply N.eqb_eq
  | |- (_ =? _) = false => apply N.eqb_neq
  end.

Lemma if_true (A : Type) (b : bool) (x y : A) :
  b = true -> (if b then x else y) = x.
Proof. now intros ->. Qed.

Lemma if_false (A : Type) (b : bool) (x y : A) :
  b = false -> (if b then x else y) = y.
Proof. now intros ->. Qed.

(** The decoder on each of the four well-formed shapes. *)
Lemma utf8_decode_1 b1 rest :
  b1 < 0x80 ->
  utf8_decode (b1 :: rest) = option_map (cons b1) (utf8_decode rest).
Proof.
  intros H. cbn [utf8_decode]. rewrite if_true; [reflexivity|prop_to_bool; lia].
Qed.

Lemma utf8_decode_2 b1 b2 rest :
  0xC2 <= b1 <= 0xDF -> 0x80 <= b2 <= 0xBF ->
  utf8_decode (b1 :: b2 :: rest)
  = option_map (cons ((b1 - 0xC0) * 64 + (b2 - 0x80))) (utf8_decode rest).
Proof.
  intros H1 H2. cbn [utf8_decode].
  rewrite if_false by (prop_to_bool; lia).
  rewrite if_true by (prop_to_bool; lia).
  rewrite if_true; [reflexivity|unfold is_cont; prop_to_bool; lia].
Qed.

Lemma utf8_decode_3 b1 b2 b3 rest :
  0xE0 <= b1 <= 0xEF -> 0x80 <= b2 <= 0xBF -> 0x80 <= b3 <= 0xBF ->
  let c := (b1 - 0xE0) * 4096 + (b2 - 0x80) * 64 + (b3 - 0x80) in
  0x800 <= c -> is_surrogate c = false ->
  utf8_decode (b1 :: b2 :: b3 :: rest) = option_map (cons c) (utf8_decode rest).
Proof.
  intros H1 H2 H3 c Hc Hs. cbn [utf8_decode].
  rewrite if_false by (prop_to_bool; lia).
  rewrite if_false by (apply andb_false_iff; right; prop_to_bool; lia).
  rewrite if_true by (prop_to_bool; lia).
  cbv zeta. fold c. rewrite Hs.
  rewrite if_true; [reflexivity|unfold is_cont; prop_to_bool; try lia; reflexivity].
Qed.

Lemma utf8_decode_4 b1 b2 b3 b4 rest :
  0xF0 <= b1 <= 0xF4 ->
  0x80 <= b2 <= 0xBF -> 0x80 <= b3 <= 0xBF -> 0x80 <= b4 <= 0xBF ->
  let c := (b1 - 0xF0) * 262144 + (b2 - 0x80) * 4096
           + (b3 - 0x80) * 64 + (b4 - 0x80) in
  0x10000 <= c < 0x110000 ->
  utf8_decode (b1 :: b2 :: b3 :: b4 :: rest) = option_map (cons c) (utf8_decode rest).
Proof.
  intros H1 H2 H3 H4 c Hc. cbn [utf8_decode].
  rewrite if_false by (prop_to_bool; lia).
  rewrite if_false by (apply andb_false_iff; right; prop_to_bool; lia).
  rewrite if_false by (apply andb_false_iff; right; prop_to_bool; lia).
  rewrite if_true by (prop_to_bool; lia).
  cbv zeta. fold c.
  rewrite if_true; [reflexivity|unfold is_cont; prop_to_bool; lia].
Qed.

Lemma Some_inj (A : Type) (x y : A) : Some x = Some y -> x = y.
Proof. congruence. Qed.

(** Decoding undoes the encoding of one code point, whatever follows. *)
Lemma utf8_decode_encode_cp c b rest :
  utf8_encode_cp c = Some b ->
  utf8_decode (b ++ rest) = option_map (cons c) (utf8_decode rest).
Proof.
  unfold utf8_encode_cp.
  destruct (c <? 0x80) eqn:H1.
  { intros Hb; apply Some_inj in Hb; subst b. bool_to_prop. now apply utf8_decode_1. }
  destruct (c <? 0x800) eqn:H2.
  { intros Hb; apply Some_inj in Hb; subst b. bool_to_prop.
    rewrite <- !app_comm_cons, app_nil_l.
    rewrite utf8_decode_2 by lia.
    assert (E : (0xC0 + c / 64 - 0xC0) * 64 + (0x80 + c mod 64 - 0x80) = c) by lia.
    now rewrite E. }
  destruct (c <? 0x10000) eqn:H3.
  { destruct (is_surrogate c) eqn:Hs; [discriminate|].
    intros Hb; apply Some_inj in Hb; subst b. bool_to_prop.
    rewrite <- !app_comm_cons, app_nil_l.
    assert (E : (0xE0 + c / 4096 - 0xE0) * 4096
                + (0x80 + (c / 64) mod 64 - 0x80) * 64
                + (0x80 + c mod 64 - 0x80) = c) by lia.
    rewrite utf8_decode_3; rewrite ?E; try lia; [reflexivity|assumption]. }
  destruct (c <? 0x110000) eqn:H4; [|discriminate].
  intros Hb; apply Some_inj in Hb; subst b. bool_to_prop.
  rewrite <- !app_comm_cons, app_nil_l.
  assert (E : (0xF0 + c / 262144 - 0xF0) * 262144
              + (0x80 + (c / 4096) mod 64 - 0x80) * 4096
              + (0x80 + (c / 64) mod 64 - 0x80) * 64
              + (0x80 + c mod 64 - 0x80) = c) by lia.
  rewrite utf8_decode_4; rewrite ?E; try lia; reflexivity.
Qed.

Lemma utf8_decode_encode s bs :
  utf8_encode s = Some bs -> utf8_decode bs = Some s.
Proof.
  revert bs. induction s as [|c s IH]; simpl; intros bs.
  - now intros [= <-].
  - destruct (utf8_encode_cp c) as [b|] eqn:Hc; [|discriminate].
    destruct (utf8_encode s) as [bs'|]; [|discriminate].
    intros [= <-]. rewrite (utf8_decode_encode_cp _ _ Hc).
    now rewrite (IH bs' eq_refl).
Qed.

Lemma utf8_encode_cp_scalar c :
  is_scalar c = true <-> exists b, utf8_encode_cp c = Some b.
Proof.
  unfold is_scalar, utf8_encode_cp. split.
  - intros H. apply andb_prop in H as [Hlt Hs]. apply negb_true_iff in Hs.
    rewrite Hs, Hlt.
    destruct (c <? 0x80); [eauto|]. destruct (c <? 0x800); [eauto|].
    destruct (c <? 0x10000); eauto.
  - intros [b Hb].
    destruct (c <? 0x80) eqn:H1.
    { unfold is_surrogate. bool_to_prop. prop_to_bool; [lia|].
      apply andb_false_iff. left. prop_to_bool. lia. }
    destruct (c <? 0x800) eqn:H2.
    { unfold is_surrogate. bool_to_prop. prop_to_bool; [lia|].
      apply andb_false_iff. left. prop_to_bool. lia. }
    destruct (c <? 0x10000) eqn:H3.
    { destruct (is_surrogate c) eqn:Hs; [discriminate|].
      bool_to_prop. prop_to_bool; [lia|reflexivity]. }
    destruct (c <? 0x110000) eqn:H4; [|discriminate].
    unfold is_surrogate. bool_to_prop. prop_to_bool; [lia|].
    apply andb_false_iff. right. prop_to_bool. lia.
Qed.

(** Encoding succeeds exactly on the strings of scalar values. *)
Lemma utf8_encode_total s :
  forallb is_scalar s = true -> exists bs, utf8_encode s = Some bs.
Proof.
  induction s as [|c s IH]; simpl; [eauto|].
  intros H. apply andb_prop in H as [Hc Hs].
  apply utf8_encode_cp_scalar in Hc as [b Hb]. destruct (IH Hs) as [bs Hbs].
  rewrite Hb, Hbs. eauto.
Qed.

Lemma utf8_encode_scalar s bs :
  utf8_encode s = Some bs -> forallb is_scalar s = true.
Proof.
  revert bs. induction s as [|c s IH]; simpl; intros bs; [reflexivity|].
  destruct (utf8_encode_cp c) as [b|] eqn:Hc; [|discriminate].
  destruct (utf8_encode s) as [bs'|]; [|discriminate]. intros _.
  apply andb_true_intro. split; [|eauto].
  apply utf8_encode_cp_scalar. eauto.
Qed.

(* ================================================================== *)
(** ** The scanner reads back what the encoder writes *)

(** *** Strings *)

Lemma hex_value_hex_digit n : n < 16 -> hex_value (hex_digit n) = Some n.
Proof.
  intros H. unfold hex_digit, hex_value.
  destruct (n <? 10) eqn:E; bool_to_prop.
  - rewrite if_true by (prop_to_bool; lia). f_equal. lia.
  - rewrite if_false by (apply andb_false_iff; right; prop_to_bool; lia).
    rewrite if_true by (prop_to_bool; lia). f_equal. lia.
Qed.

Lemma hex4_control c :
  c < 0x20 -> hex4 0x30 0x30 (hex_digit (c / 16)) (hex_digit (c mod 16)) = Some c.
Proof.
  intros H. unfold hex4.
  rewrite (@hex_value_hex_digit (c / 16)) by lia.
  rewrite (@hex_value_hex_digit (c mod 16)) by lia.
  change (hex_value 0x30) with (Some 0). cbv iota beta. apply f_equal. lia.
Qed.

(** A [\u00XX] escape of a control character is read as that character. *)
Lemma scanstring_control c h1 h2 tail :
  c < 0x20 -> hex4 0x30 0x30 h1 h2 = Some c ->
  scanstring (BACKSLASH :: 0x75 :: 0x30 :: 0x30 :: h1 :: h2 :: tail)
  = cons_fst c (scanstring tail).
Proof.
  intros Hc Hx. cbn [scanstring].
  change (BACKSLASH =? QUOTE) with false.
  change (BACKSLASH =? BACKSLASH) with true.
  change (0x75 =? 0x75) with true. cbv iota. rewrite Hx.
  assert (Hh : is_high_surrogate c = false).
  { unfold is_high_surrogate. apply andb_false_iff. left. prop_to_bool. lia. }
  rewrite Hh. cbn [andb].
  destruct tail as [|? [|? [|? [|? [|? [|? ?]]]]]]; reflexivity.
Qed.

Lemma scanstring_escape_cp c tail :
  scanstring (escape_cp c ++ tail) = cons_fst c (scanstring tail).
Proof.
  unfold escape_cp.
  destruct (c =? BACKSLASH) eqn:E1; [bool_to_prop; subst; reflexivity|].
  destruct (c =? QUOTE) eqn:E2; [bool_to_prop; subst; reflexivity|].
  destruct (c =? 0x08) eqn:E3; [bool_to_prop; subst; reflexivity|].
  destruct (c =? 0x0C) eqn:E4; [bool_to_prop; subst; reflexivity|].
  destruct (c =? 0x0A) eqn:E5; [bool_to_prop; subst; reflexivity|].
  destruct (c =? 0x0D) eqn:E6; [bool_to_prop; subst; reflexivity|].
  destruct (c =? 0x09) eqn:E7; [bool_to_prop; subst; reflexivity|].
  destruct (c <? 0x20) eqn:E8.
  - bool_to_prop. rewrite <- !app_comm_cons, app_nil_l.
    apply scanstring_control; [assumption|]. now apply hex4_control.
  - rewrite <- app_comm_cons, app_nil_l. cbn [scanstring].
    now rewrite E2, E1, E8.
Qed.

Lemma scanstring_escaped s rest :
  scanstring (flat_map escape_cp s ++ QUOTE :: rest) = Some (s, rest).
Proof.
  induction s as [|c s IH]; [reflexivity|].
  cbn [flat_map]. rewrite <- app_assoc, scanstring_escape_cp, IH. reflexivity.
Qed.

(** A string in quotes, as [encode_basestring] writes it, is read back. *)
Lemma scanstring_encode_basestring s rest :
  exists body, encode_basestring s ++ rest = QUOTE :: body
               /\ scanstring body = Some (s, rest).
Proof.
  exists (flat_map escape_cp s ++ QUOTE :: rest). split.
  - unfold encode_basestring. rewrite <- app_comm_cons, <- app_assoc. reflexivity.
  - apply scanstring_escaped.
Qed.

(** *** Numbers *)

Lemma value_end_cases rest :
  value_end rest = true ->
  rest = [] \/ exists r, rest = COMMA :: r \/ rest = NEWLINE :: r.
Proof.
  destruct rest as [|c r]; [now left|]. cbn [value_end]. intros H. right. exists r.
  apply orb_prop in H as [H|H]; bool_to_prop; subst; auto.
Qed.

Ltac value_end_split H r :=
  apply value_end_cases in H; destruct H as [H|[r [H|H]]]; subst.

Lemma span_digits_frame x rest :
  value_end rest = true ->
  span_digits (x ++ rest) = (fst (span_digits x), snd (span_digits x) ++ rest).
Proof.
  intros H. induction x as [|c x IH].
  - cbn [app span_digits fst snd]. value_end_split H r; reflexivity.
  - cbn [app span_digits]. destruct (is_digit c); [|reflexivity].
    rewrite IH. destruct (span_digits x). reflexivity.
Qed.

Lemma opt_minus_frame x rest :
  value_end rest = true ->
  opt_minus (x ++ rest) = (fst (opt_minus x), snd (opt_minus x) ++ rest).
Proof.
  intros H. destruct x as [|c x].
  - value_end_split H r; reflexivity.
  - cbn [app opt_minus]. destruct (c =? MINUS); reflexivity.
Qed.

Lemma int_part_frame x rest :
  value_end rest = true ->
  int_part (x ++ rest) = (fst (int_part x), snd (int_part x) ++ rest).
Proof.
  intros H. destruct x as [|c x].
  - value_end_split H r; reflexivity.
  - cbn [app int_part]. destruct (c =? 0x30); [reflexivity|].
    apply (span_digits_frame (c :: x) rest H).
Qed.

Lemma frac_part_frame x rest :
  value_end rest = true ->
  frac_part (x ++ rest) = (fst (frac_part x), snd (frac_part x) ++ rest).
Proof.
  intros H. destruct x as [|c x].
  - value_end_split H r; reflexivity.
  - cbn [app frac_part]. destruct (c =? DOT); [|reflexivity].
    rewrite span_digits_frame by assumption.
    destruct (span_digits x) as [[|d ds] r']; reflexivity.
Qed.

Lemma exp_part_frame x rest :
  value_end rest = true ->
  exp_part (x ++ rest) = (fst (exp_part x), snd (exp_part x) ++ rest).
Proof.
  intros H. destruct x as [|e x].
  - value_end_split H r; reflexivity.
  - cbn [app exp_part]. destruct ((e =? 0x65) || (e =? 0x45)); [|reflexivity].
    destruct x as [|sg x].
    + value_end_split H r; reflexivity.
    + cbn [app]. destruct (is_sign sg).
      * rewrite span_digits_frame by assumption.
        destruct (span_digits x) as [[|d ds] r']; reflexivity.
      * change (sg :: x ++ rest) with ((sg :: x) ++ rest).
        rewrite (span_digits_frame (sg :: x) rest H).
        destruct (span_digits (sg :: x)) as [[|d ds] r']; reflexivity.
Qed.

(** A number that the pattern matches is matched the same way when a
    comma, a line break or nothing follows the text. *)
Lemma scan_number_frame x rest v r :
  value_end rest = true ->
  scan_number x = Some (v, r) ->
  scan_number (x ++ rest) = Some (v, r ++ rest).
Proof.
  intros H. unfold scan_number.
  rewrite opt_minus_frame by assumption.
  destruct (opt_minus x) as [sign s1]. cbn [fst snd].
  rewrite int_part_frame by assumption.
  destruct (int_part s1) as [digits s2]. cbn [fst snd].
  destruct digits as [|d ds]; [discriminate|].
  rewrite frac_part_frame by assumption.
  destruct (frac_part s2) as [frac s3]. cbn [fst snd].
  rewrite exp_part_frame by assumption.
  destruct (exp_part s3) as [exp s4]. cbn [fst snd].
  destruct frac, exp; intros [= <- <-]; reflexivity.
Qed.

(** **** Integers *)

Lemma digits_uint_uint_digits d : digits_uint (uint_digits d) = d.
Proof.
  induction d; simpl; congruence.
Qed.

Lemma uint_digits_all d : forallb is_digit (uint_digits d) = true.
Proof.
  induction d; simpl; assumption || reflexivity.
Qed.

Lemma span_digits_all ds : forallb is_digit ds = true -> span_digits ds = (ds, []).
Proof.
  induction ds as [|c ds IH]; [reflexivity|].
  cbn [forallb span_digits]. intros H. apply andb_prop in H as [Hc Hds].
  now rewrite Hc, (IH Hds).
Qed.

Lemma nzhead_not_D0 d x : Decimal.nzhead d <> Decimal.D0 x.
Proof.
  induction d; cbn [Decimal.nzhead]; try discriminate. assumption.
Qed.

(** The decimal expansion of a positive number starts with a digit other
    than zero. *)
Lemma to_uint_head p :
  exists c ds, uint_digits (Pos.to_uint p) = c :: ds
               /\ is_digit c = true /\ (c =? 0x30) = false /\ (c =? MINUS) = false.
Proof.
  assert (Hn : Decimal.unorm (Pos.to_uint p) = Pos.to_uint p).
  { rewrite <- DecimalPos.Unsigned.to_of, DecimalPos.Unsigned.of_to. reflexivity. }
  pose proof (DecimalPos.Unsigned.to_uint_nonzero p) as Hz.
  pose proof (DecimalPos.Unsigned.to_uint_nonnil p) as Hnil.
  destruct (Pos.to_uint p) as [|d|d|d|d|d|d|d|d|d|d] eqn:E;
    try (cbn [uint_digits]; do 2 eexists; repeat split; reflexivity).
  - contradiction.
  - exfalso. unfold Decimal.unorm in Hn. cbn [Decimal.nzhead] in Hn.
    destruct (Decimal.nzhead d) eqn:Ed;
      try (rewrite <- Ed in Hn; exact (nzhead_not_D0 _ Hn)).
    apply Hz. congruence.
Qed.

Lemma scan_number_int_repr z : scan_number (int_repr z) = Some (PyInt z, []).
Proof.
  unfold int_repr.
  destruct z as [|p|p]; [reflexivity| |]; cbn [Z.to_int].
  - destruct (to_uint_head p) as (c & ds & E & Hd & H0 & Hm).
    unfold scan_number. rewrite E. cbn [opt_minus]. rewrite Hm.
    cbn [int_part]. rewrite H0. rewrite <- E.
    rewrite span_digits_all by apply uint_digits_all.
    rewrite E at 1. cbn [frac_part exp_part].
    unfold parse_int. rewrite digits_uint_uint_digits.
    change (Decimal.Pos (Pos.to_uint p)) with (Z.to_int (Z.pos p)).
    now rewrite DecimalZ.of_to.
  - destruct (to_uint_head p) as (c & ds & E & Hd & H0 & Hm).
    unfold scan_number. cbn [opt_minus]. change (MINUS =? MINUS) with true. cbv iota.
    rewrite E. cbn [int_part]. rewrite H0. rewrite <- E.
    rewrite span_digits_all by apply uint_digits_all.
    rewrite E at 1. cbn [frac_part exp_part].
    unfold parse_int. rewrite digits_uint_uint_digits.
    change (Decimal.Neg (Pos.to_uint p)) with (Z.to_int (Z.neg p)).
    now rewrite DecimalZ.of_to.
Qed.

(** **** Floats *)

Lemma float_lexeme_cases lex :
  float_lexeme lex = true ->
  scan_number lex = Some (PyFloat lex, [])
  \/ lex = lit "NaN" \/ lex = lit "Infinity" \/ lex = lit "-Infinity".
Proof.
  unfold float_lexeme. intros H.
  assert (K : pystr_eqb lex (lit "NaN") || pystr_eqb lex (lit "Infinity")
              || pystr_eqb lex (lit "-Infinity") = true ->
              lex = lit "NaN" \/ lex = lit "Infinity" \/ lex = lit "-Infinity").
  { intros K. apply orb_prop in K as [K|K]; [apply orb_prop in K as [K|K]|];
      apply pystr_eqb_eq in K; auto. }
  destruct (scan_number lex) as [[v r]|]; [|right; auto].
  destruct v; try (right; auto; fail).
  destruct r; [|right; auto].
  left. apply pystr_eqb_eq in H. now subst.
Qed.

(** *** The first character of an encoded value *)

Ltac orb_cases H :=
  repeat match type of H with
  | _ || _ = true => apply orb_prop in H; destruct H as [H|H]
  end.

Lemma atom_start_value_start c : atom_start c = true -> value_start c = true.
Proof.
  unfold atom_start, value_start. intros H.
  orb_cases H; rewrite H; rewrite ?orb_true_r; reflexivity.
Qed.

Lemma value_start_facts c :
  value_start c = true ->
  is_ws c = false /\ (c =? RBRACKET) = false /\ (c =? RBRACE) = false
  /\ (c =? COMMA) = false.
Proof.
  unfold value_start. intros H.
  orb_cases H; try (bool_to_prop; subst; repeat split; reflexivity).
  unfold is_digit in H. bool_to_prop. unfold is_ws.
  repeat split; repeat (apply orb_false_intro); prop_to_bool;
    unfold RBRACKET, RBRACE, COMMA; lia.
Qed.

Lemma atom_start_facts c :
  atom_start c = true ->
  (c =? QUOTE) = false /\ (c =? LBRACE) = false /\ (c =? LBRACKET) = false.
Proof.
  unfold atom_start. intros H.
  orb_cases H; try (bool_to_prop; subst; repeat split; reflexivity).
  unfold is_digit in H. bool_to_prop.
  repeat split; prop_to_bool; unfold QUOTE, LBRACE, LBRACKET; lia.
Qed.

Lemma scan_number_head s v r :
  scan_number s = Some (v, r) ->
  exists c t, s = c :: t /\ (is_digit c = true \/ c = MINUS).
Proof.
  unfold scan_number. destruct s as [|c t]; [discriminate|].
  intros H. exists c, t. split; [reflexivity|].
  cbn [opt_minus] in H. destruct (c =? MINUS) eqn:Em; [bool_to_prop; auto|].
  cbn [int_part] in H. destruct (c =? 0x30) eqn:E0.
  { bool_to_prop. subst. now left. }
  cbn [span_digits] in H. destruct (is_digit c); [now left|discriminate].
Qed.

Lemma number_start c : is_digit c = true \/ c = MINUS -> atom_start c = true.
Proof.
  unfold atom_start. intros [H| ->]; [now rewrite H|reflexivity].
Qed.

Lemma strip_prefix_head_neq p c d s :
  (c =? d) = false -> strip_prefix (c :: p) (d :: s) = None.
Proof. intros H. cbn [strip_prefix]. now rewrite H. Qed.

(** A number is not taken for one of the three leading literals. *)
Lemma scan_atom_number x v rest :
  scan_number x = Some (v, []) -> value_end rest = true ->
  scan_atom (x ++ rest) = Parsed v rest.
Proof.
  intros Hx Hr.
  destruct (scan_number_head _ Hx) as (c & t & -> & Hc).
  pose proof (scan_number_frame (c :: t) rest Hr Hx) as Hf.
  cbn [app] in *. unfold scan_atom.
  assert (E1 : strip_prefix (lit "null") (c :: t ++ rest) = None).
  { apply strip_prefix_head_neq.
    destruct Hc as [Hc| ->]; [|reflexivity].
    unfold is_digit in Hc. bool_to_prop. prop_to_bool. cbn. lia. }
  assert (E2 : strip_prefix (lit "true") (c :: t ++ rest) = None).
  { apply strip_prefix_head_neq.
    destruct Hc as [Hc| ->]; [|reflexivity].
    unfold is_digit in Hc. bool_to_prop. prop_to_bool. cbn. lia. }
  assert (E3 : strip_prefix (lit "false") (c :: t ++ rest) = None).
  { apply strip_prefix_head_neq.
    destruct Hc as [Hc| ->]; [|reflexivity].
    unfold is_digit in Hc. bool_to_prop. prop_to_bool. cbn. lia. }
  rewrite E1, E2, E3, Hf. reflexivity.
Qed.

Lemma scan_atom_float lex rest :
  float_lexeme lex = true -> value_end rest = true ->
  scan_atom (lex ++ rest) = Parsed (PyFloat lex) rest.
Proof.
  intros Hl Hr. apply float_lexeme_cases in Hl as [H|[->|[->| ->]]].
  - now apply scan_atom_number.
  - reflexivity.
  - reflexivity.
  - reflexivity.
Qed.

Lemma float_lexeme_head lex :
  float_lexeme lex = true -> exists c t, lex = c :: t /\ atom_start c = true.
Proof.
  intros Hl. apply float_lexeme_cases in Hl as [H|[->|[->| ->]]].
  - destruct (scan_number_head _ H) as (c & t & -> & Hc).
    exists c, t. split; [reflexivity|now apply number_start].
  - now do 2 eexists.
  - now do 2 eexists.
  - now do 2 eexists.
Qed.

Lemma int_repr_head z : exists c t, int_repr z = c :: t /\ atom_start c = true.
Proof.
  destruct (scan_number_head _ (scan_number_int_repr z)) as (c & t & E & Hc).
  exists c, t. split; [assumption|now apply number_start].
Qed.

(** With one unit of fuel, [scan_once] hands a text that starts like an atom
    to [scan_atom]. *)
Lemma scan_once_atom n c t :
  atom_start c = true -> scan_once (S n) (c :: t) = scan_atom (c :: t).
Proof.
  intros H. apply atom_start_facts in H as (H1 & H2 & H3).
  cbn [scan_once]. now rewrite H1, H2, H3.
Qed.

(** *** Whitespace and the start of a value *)

Lemma starts_value_app x y : starts_value x -> starts_value (x ++ y).
Proof. intros (c & t & -> & H). exists c, (t ++ y). now split. Qed.

Lemma join_cons2 sep x y l : join sep (x :: y :: l) = x ++ sep ++ join sep (y :: l).
Proof. reflexivity. Qed.

Lemma join_starts sep x l : starts_value x -> starts_value (join sep (x :: l)).
Proof.
  intros H. destruct l as [|y l]; [exact H|].
  rewrite join_cons2. now apply starts_value_app.
Qed.

Lemma skip_ws_start s : starts_value s -> skip_ws s = s.
Proof.
  intros (c & t & -> & H). apply value_start_facts in H as (H & _).
  cbn [skip_ws]. now rewrite H.
Qed.

Lemma skip_ws_spaces k s : skip_ws (repeat SPACE k ++ s) = skip_ws s.
Proof. induction k as [|k IH]; [reflexivity|exact IH]. Qed.

Lemma skip_ws_newline_indent k s : skip_ws (newline_indent k ++ s) = skip_ws s.
Proof. unfold newline_indent. cbn [app skip_ws]. apply skip_ws_spaces. Qed.

Lemma skip_ws_indent k s : starts_value s -> skip_ws (newline_indent k ++ s) = s.
Proof. intros H. rewrite skip_ws_newline_indent. now apply skip_ws_start. Qed.

Lemma value_end_newline_indent k s : value_end (newline_indent k ++ s) = true.
Proof. reflexivity. Qed.

Lemma iterencode_starts level v :
  wf_value v = true -> starts_value (iterencode level v).
Proof.
  intros Hwf. destruct v as [|[|]|z|lex|s|[|v vs]|[|kv kvs]];
    try (do 2 eexists; split; [reflexivity|reflexivity]).
  - destruct (int_repr_head z) as (c & t & E & Hc).
    exists c, t. split; [exact E|now apply atom_start_value_start].
  - destruct (float_lexeme_head lex Hwf) as (c & t & E & Hc).
    exists c, t. split; [exact E|now apply atom_start_value_start].
Qed.

(** *** Values *)

Lemma reads_back_atom v :
  (forall level, exists c t, iterencode level v = c :: t /\ atom_start c = true) ->
  (forall level rest, value_end rest = true ->
     scan_atom (iterencode level v ++ rest) = Parsed v rest) ->
  reads_back v.
Proof.
  intros Hh Ha level rest Hr. exists 1%nat. intros [|m] Hm; [lia|].
  destruct (Hh level) as (c & t & E & Hc).
  rewrite <- (Ha level rest Hr). rewrite E. cbn [app].
  now apply scan_once_atom.
Qed.

Lemma scan_elems_join vs :
  vs <> [] -> Forall reads_back vs -> forallb wf_value vs = true ->
  forall level k rest,
  exists n, forall m, (n <= m)%nat ->
    scan_elems m (join (COMMA :: newline_indent level) (map (iterencode level) vs)
                  ++ newline_indent k ++ RBRACKET :: rest)
    = Parsed vs rest.
Proof.
  induction vs as [|v vs IH]; [contradiction|]. intros _ Hrb Hwf level k rest.
  inversion Hrb as [|? ? Hv Hvs]; subst.
  cbn [forallb] in Hwf. apply andb_prop in Hwf as [Hwv Hwvs].
  destruct vs as [|v' vs'].
  - destruct (Hv level (newline_indent k ++ RBRACKET :: rest)
                 (value_end_newline_indent _ _)) as [n Hn].
    exists (S n). intros [|m] Hm; [lia|].
    cbn [map join scan_elems]. rewrite Hn by lia.
    rewrite skip_ws_newline_indent. reflexivity.
  - destruct (IH ltac:(discriminate) Hvs Hwvs level k rest) as [n2 Hn2].
    set (tail := join (COMMA :: newline_indent level)
                      (map (iterencode level) (v' :: vs'))
                 ++ newline_indent k ++ RBRACKET :: rest) in *.
    assert (Ht : starts_value tail).
    { apply starts_value_app. cbn [map]. apply join_starts.
      apply iterencode_starts.
      cbn [forallb] in Hwvs. now apply andb_prop in Hwvs as [? _]. }
    destruct (Hv level (COMMA :: newline_indent level ++ tail) eq_refl) as [n1 Hn1].
    exists (S (Nat.max n1 n2)). intros [|m] Hm; [lia|].
    change (map (iterencode level) (v :: v' :: vs'))
      with (iterencode level v :: map (iterencode level) (v' :: vs')).
    cbn [map] in tail |- *. rewrite join_cons2.
    replace ((iterencode level v ++ (COMMA :: newline_indent level)
              ++ join (COMMA :: newline_indent level)
                   (iterencode level v' :: map (iterencode level) vs'))
             ++ newline_indent k ++ RBRACKET :: rest)
      with (iterencode level v ++ COMMA :: newline_indent level ++ tail).
    2:{ unfold tail. rewrite <- ?app_assoc. reflexivity. }
    cbn [scan_elems]. rewrite Hn1 by lia.
    cbn [skip_ws]. change (is_ws COMMA) with false. cbv iota.
    change (COMMA =? RBRACKET) with false. change (COMMA =? COMMA) with true. cbv iota.
    rewrite (skip_ws_indent _ Ht). rewrite Hn2 by lia. reflexivity.
Qed.

Lemma member_text_app level key v tail :
  member_text level (key, v) ++ tail
  = QUOTE :: flat_map escape_cp key
      ++ QUOTE :: COLON :: SPACE :: iterencode level v ++ tail.
Proof.
  unfold member_text, encode_basestring. cbn [fst snd app].
  rewrite <- !app_assoc. reflexivity.
Qed.

Lemma member_text_starts level kv : starts_value (member_text level kv).
Proof. do 2 eexists. split; reflexivity. Qed.

(** One member: the key, the colon, the value; then the scanner looks at
    what follows. *)
Lemma scan_members_step m level key v tail :
  wf_value v = true ->
  scan_once m (iterencode level v ++ tail) = Parsed v tail ->
  scan_members (S m) (member_text level (key, v) ++ tail)
  = match skip_ws tail with
    | [] => Invalid
    | c2 :: r3 =>
      if c2 =? RBRACE then Parsed [(key, v)] r3
      else if c2 =? COMMA then
        scan_map (cons (key, v)) (scan_members m (skip_ws r3))
      else Invalid
    end.
Proof.
  intros Hwf Hv. rewrite member_text_app. cbn [scan_members].
  change (QUOTE =? QUOTE) with true. cbv iota.
  rewrite scanstring_escaped. cbn [skip_ws].
  change (is_ws COLON) with false. cbv iota.
  change (COLON =? COLON) with true. cbv iota.
  cbn [skip_ws]. change (is_ws SPACE) with true. cbv iota.
  rewrite skip_ws_start by (apply starts_value_app; now apply iterencode_starts).
  rewrite Hv. reflexivity.
Qed.

Lemma scan_members_join kvs :
  kvs <> [] ->
  Forall (fun kv => reads_back (snd kv)) kvs ->
  forallb (fun kv => wf_value (snd kv)) kvs = true ->
  forall level k rest,
  exists n, forall m, (n <= m)%nat ->
    scan_members m (join (COMMA :: newline_indent level)
                         (map (member_text level) kvs)
                    ++ newline_indent k ++ RBRACE :: rest)
    = Parsed kvs rest.
Proof.
  induction kvs as [|[key v] kvs IH]; [contradiction|].
  intros _ Hrb Hwf level k rest.
  inversion Hrb as [|? ? Hv Hvs]; subst. cbn [snd] in Hv.
  cbn [forallb snd] in Hwf. apply andb_prop in Hwf as [Hwv Hwvs].
  destruct kvs as [|kv' kvs'].
  - destruct (Hv level (newline_indent k ++ RBRACE :: rest)
                 (value_end_newline_indent _ _)) as [n Hn].
    exists (S n). intros [|m] Hm; [lia|].
    cbn [map join]. rewrite scan_members_step by (auto; apply Hn; lia).
    rewrite skip_ws_newline_indent. reflexivity.
  - destruct (IH ltac:(discriminate) Hvs Hwvs level k rest) as [n2 Hn2].
    set (tail := join (COMMA :: newline_indent level)
                      (map (member_text level) (kv' :: kvs'))
                 ++ newline_indent k ++ RBRACE :: rest) in *.
    assert (Ht : starts_value tail).
    { apply starts_value_app. cbn [map]. apply join_starts.
      apply member_text_starts. }
    destruct (Hv level (COMMA :: newline_indent level ++ tail) eq_refl) as [n1 Hn1].
    exists (S (Nat.max n1 n2)). intros [|m] Hm; [lia|].
    change (map (member_text level) ((key, v) :: kv' :: kvs'))
      with (member_text level (key, v) :: map (member_text level) (kv' :: kvs')).
    cbn [map] in tail |- *. rewrite join_cons2.
    replace ((member_text level (key, v) ++ (COMMA :: newline_indent level)
              ++ join (COMMA :: newline_indent level)
                   (member_text level kv' :: map (member_text level) kvs'))
             ++ newline_indent k ++ RBRACE :: rest)
      with (member_text level (key, v) ++ COMMA :: newline_indent level ++ tail).
    2:{ unfold tail. rewrite <- ?app_assoc. reflexivity. }
    rewrite scan_members_step by (auto; apply Hn1; lia).
    cbn [skip_ws]. change (is_ws COMMA) with false. cbv iota.
    change (COMMA =? RBRACE) with false. change (COMMA =? COMMA) with true. cbv iota.
    rewrite (skip_ws_indent _ Ht). rewrite Hn2 by lia. reflexivity.
Qed.

(** *** [dict(pairs)] on pairs with distinct keys *)

Lemma dict_set_fresh k v d :
  existsb (pystr_eqb k) (map fst d) = false -> dict_set k v d = d ++ [(k, v)].
Proof.
  induction d as [|[k' v'] d IH]; [reflexivity|].
  cbn [map fst existsb dict_set app]. intros H.
  apply orb_false_elim in H as [H1 H2].
  assert (E : pystr_eqb k' k = false).
  { destruct (pystr_eqb k' k) eqn:E; [|reflexivity].
    apply pystr_eqb_eq in E. subst. now rewrite pystr_eqb_refl in H1. }
  now rewrite E, (IH H2).
Qed.

Lemma keys_unique_app_last ks k :
  keys_unique (ks ++ [k]) = true ->
  keys_unique ks = true /\ existsb (pystr_eqb k) ks = false.
Proof.
  induction ks as [|k0 ks IH]; [now split|].
  cbn [app keys_unique existsb]. intros H.
  apply andb_prop in H as [H1 H2]. apply negb_true_iff in H1.
  rewrite existsb_app in H1. apply orb_false_elim in H1 as [H1 H1'].
  cbn [existsb] in H1'. rewrite orb_false_r in H1'.
  destruct (IH H2) as [IH1 IH2]. rewrite H1, IH1, IH2. split; [reflexivity|].
  cbn [orb]. rewrite orb_false_r.
  destruct (pystr_eqb k k0) eqn:E; [|reflexivity].
  apply pystr_eqb_eq in E. subst. now rewrite pystr_eqb_refl in H1'.
Qed.

Lemma keys_unique_app_comm ks k ks' :
  keys_unique (ks ++ k :: ks') = true -> keys_unique ((ks ++ [k]) ++ ks') = true.
Proof. now rewrite <- app_assoc. Qed.

Lemma keys_unique_app_l ks ks' : keys_unique (ks ++ ks') = true -> keys_unique ks = true.
Proof.
  induction ks as [|k ks IH]; [reflexivity|].
  cbn [app keys_unique]. intros H. apply andb_prop in H as [H1 H2].
  apply negb_true_iff in H1. rewrite existsb_app in H1.
  apply orb_false_elim in H1 as [H1 _]. now rewrite H1, (IH H2).
Qed.

Lemma dict_of_pairs_acc ps acc :
  keys_unique (map fst (acc ++ ps)) = true ->
  fold_left (fun d kv => dict_set (fst kv) (snd kv) d) ps acc = acc ++ ps.
Proof.
  revert acc. induction ps as [|[k v] ps IH]; intros acc H.
  - now rewrite app_nil_r.
  - cbn [fold_left fst snd].
    assert (H' : keys_unique (map fst ((acc ++ [(k, v)]) ++ ps)) = true).
    { now rewrite <- app_assoc. }
    rewrite dict_set_fresh.
    + rewrite (IH _ H'). now rewrite <- app_assoc.
    + rewrite map_app in H'. apply keys_unique_app_l in H'.
      rewrite map_app in H'. cbn [map fst] in H'.
      now apply keys_unique_app_last in H' as [_ ?].
Qed.

Lemma dict_of_pairs_unique kvs :
  keys_unique (map fst kvs) = true -> dict_of_pairs kvs = kvs.
Proof. intros H. unfold dict_of_pairs. now rewrite dict_of_pairs_acc. Qed.

(** *** The round trip on texts *)

Lemma reads_back_all v : wf_value v = true -> reads_back v.
Proof.
  induction v as [|b|z|lex|s|vs IH|kvs IH] using pyvalue_ind'; intros Hwf.
  - apply reads_back_atom; [intros; now do 2 eexists|reflexivity].
  - apply reads_back_atom; [intros; destruct b; now do 2 eexists|].
    destruct b; reflexivity.
  - apply reads_back_atom; [intros; apply int_repr_head|].
    intros level rest Hr. apply scan_atom_number; [apply scan_number_int_repr|exact Hr].
  - apply reads_back_atom; [intros; now apply float_lexeme_head|].
    intros level rest Hr. now apply scan_atom_float.
  - intros level rest Hr. exists 1%nat. intros [|m] Hm; [lia|].
    cbn [iterencode]. unfold encode_basestring.
    rewrite <- app_comm_cons, <- app_assoc. cbn [scan_once app].
    change (QUOTE =? QUOTE) with true. cbv iota.
    now rewrite scanstring_escaped.
  - intros level rest Hr. destruct vs as [|v0 vs].
    { exists 1%nat. intros [|m] Hm; [lia|]. reflexivity. }
    cbn [wf_value] in Hwf.
    assert (Hrb : Forall reads_back (v0 :: vs)).
    { apply Forall_forall. intros x Hx.
      rewrite Forall_forall in IH. apply (IH x Hx).
      rewrite forallb_forall in Hwf. now apply Hwf. }
    destruct (@scan_elems_join (v0 :: vs) ltac:(discriminate) Hrb Hwf
                                (S level) level rest)
      as [n Hn].
    exists (S n). intros [|m] Hm; [lia|].
    set (items := join (COMMA :: newline_indent (S level))
                       (map (iterencode (S level)) (v0 :: vs))) in *.
    assert (Hs : starts_value (items ++ newline_indent level ++ RBRACKET :: rest)).
    { apply starts_value_app. apply join_starts. apply iterencode_starts.
      cbn [forallb] in Hwf. now apply andb_prop in Hwf as [? _]. }
    replace (iterencode level (PyList (v0 :: vs)) ++ rest)
      with (LBRACKET :: newline_indent (S level)
              ++ items ++ newline_indent level ++ RBRACKET :: rest).
    2:{ cbn [iterencode]. fold items. rewrite <- ?app_assoc. reflexivity. }
    cbn [scan_once].
    change (LBRACKET =? QUOTE) with false. change (LBRACKET =? LBRACE) with false.
    change (LBRACKET =? LBRACKET) with true. cbv iota.
    rewrite (skip_ws_indent _ Hs).
    destruct Hs as (c & t & Es & Hc). rewrite Es in *.
    apply value_start_facts in Hc as (_ & Hc & _). rewrite Hc.
    rewrite Hn by lia. reflexivity.
  - intros level rest Hr. destruct kvs as [|kv0 kvs].
    { exists 1%nat. intros [|m] Hm; [lia|]. reflexivity. }
    cbn [wf_value] in Hwf. apply andb_prop in Hwf as [Hu Hwf].
    assert (Hrb : Forall (fun kv => reads_back (snd kv)) (kv0 :: kvs)).
    { apply Forall_forall. intros x Hx.
      rewrite Forall_forall in IH. apply (IH x Hx).
      rewrite forallb_forall in Hwf. now apply Hwf. }
    destruct (@scan_members_join (kv0 :: kvs) ltac:(discriminate) Hrb Hwf
                                  (S level) level rest)
      as [n Hn].
    exists (S n). intros [|m] Hm; [lia|].
    set (items := join (COMMA :: newline_indent (S level))
                       (map (member_text (S level)) (kv0 :: kvs))) in *.
    assert (Hs : starts_value (items ++ newline_indent level ++ RBRACE :: rest)).
    { apply starts_value_app. apply join_starts. apply member_text_starts. }
    replace (iterencode level (PyDict (kv0 :: kvs)) ++ rest)
      with (LBRACE :: newline_indent (S level)
              ++ items ++ newline_indent level ++ RBRACE :: rest).
    2:{ cbn [iterencode]. unfold items, member_text.
        rewrite <- ?app_assoc. reflexivity. }
    cbn [scan_once].
    change (LBRACE =? QUOTE) with false. change (LBRACE =? LBRACE) with true.
    cbv iota.
    rewrite (skip_ws_indent _ Hs).
    destruct Hs as (c & t & Es & Hc). rewrite Es in *.
    apply value_start_facts in Hc as (_ & _ & Hc & _). rewrite Hc.
    rewrite Hn by lia. cbn [scan_map].
    now rewrite (dict_of_pairs_unique _ Hu).
Qed.

(* ================================================================== *)
(** ** The fuel of the scanner is enough *)

Lemma scan_map_not_exhausted (A B : Type) (f : A -> B) (r : scan A) :
  scan_map f r <> Exhausted -> r <> Exhausted.
Proof. destruct r; cbn; congruence. Qed.

(** More fuel does not change an answer. *)
Lemma scan_mono n :
  (forall s m, (n <= m)%nat -> scan_once n s <> Exhausted ->
               scan_once m s = scan_once n s)
  /\ (forall s m, (n <= m)%nat -> scan_elems n s <> Exhausted ->
                  scan_elems m s = scan_elems n s)
  /\ (forall s m, (n <= m)%nat -> scan_members n s <> Exhausted ->
                  scan_members m s = scan_members n s).
Proof.
  induction n as [|n (IHo & IHe & IHm)].
  { repeat split; intros s m _ H; now contradiction H. }
  repeat split; intros s [|m] Hm H; try lia; assert (Hm' : (n <= m)%nat) by lia.
  - cbn [scan_once] in *. destruct s as [|c s1]; [reflexivity|].
    destruct (c =? QUOTE); [reflexivity|].
    destruct (c =? LBRACE).
    { destruct (skip_ws s1) as [|c2 s3]; [reflexivity|].
      destruct (c2 =? RBRACE); [reflexivity|].
      apply scan_map_not_exhausted in H. now rewrite (IHm _ _ Hm' H). }
    destruct (c =? LBRACKET); [|reflexivity].
    destruct (skip_ws s1) as [|c2 s3]; [reflexivity|].
    destruct (c2 =? RBRACKET); [reflexivity|].
    apply scan_map_not_exhausted in H. now rewrite (IHe _ _ Hm' H).
  - cbn [scan_elems] in *.
    assert (Ho : scan_once n s <> Exhausted).
    { intros E. now rewrite E in H. }
    rewrite (IHo _ _ Hm' Ho).
    destruct (scan_once n s) as [v r| |]; try reflexivity.
    destruct (skip_ws r) as [|c r1]; [reflexivity|].
    destruct (c =? RBRACKET); [reflexivity|].
    destruct (c =? COMMA); [|reflexivity].
    apply scan_map_not_exhausted in H. now rewrite (IHe _ _ Hm' H).
  - cbn [scan_members] in *. destruct s as [|q s1]; [reflexivity|].
    destruct (q =? QUOTE); [|reflexivity].
    destruct (scanstring s1) as [[key r]|]; [|reflexivity].
    destruct (skip_ws r) as [|c r1]; [reflexivity|].
    destruct (c =? COLON); [|reflexivity].
    assert (Ho : scan_once n (skip_ws r1) <> Exhausted).
    { intros E. now rewrite E in H. }
    rewrite (IHo _ _ Hm' Ho).
    destruct (scan_once n (skip_ws r1)) as [v r2| |]; try reflexivity.
    destruct (skip_ws r2) as [|c2 r3]; [reflexivity|].
    destruct (c2 =? RBRACE); [reflexivity|].
    destruct (c2 =? COMMA); [|reflexivity].
    apply scan_map_not_exhausted in H. now rewrite (IHm _ _ Hm' H).
Qed.

(** *** What is left is never longer than what was given *)

Lemma skip_ws_length s : (List.length (skip_ws s) <= List.length s)%nat.
Proof.
  induction s as [|c s IH]; [reflexivity|].
  cbn [skip_ws]. destruct (is_ws c); cbn [List.length]; lia.
Qed.

Lemma strip_prefix_eq p s r : strip_prefix p s = Some r -> s = p ++ r.
Proof.
  revert s. induction p as [|c p IH]; intros s; cbn [strip_prefix].
  - now intros [= ->].
  - destruct s as [|d s]; [discriminate|].
    destruct (c =? d) eqn:E; [|discriminate]. bool_to_prop. subst.
    intros H. cbn [app]. now rewrite (IH _ H).
Qed.

Lemma cons_fst_some (A B : Type) (a : A) (x : option (list A * B)) l b :
  cons_fst a x = Some (l, b) -> exists l', x = Some (l', b) /\ l = a :: l'.
Proof.
  destruct x as [[l' b']|]; cbn; [|discriminate].
  intros [= <- <-]. now exists l'.
Qed.

Lemma scanstring_length_aux n :
  forall s k r, (List.length s <= n)%nat ->
  scanstring s = Some (k, r) -> (List.length r < List.length s)%nat.
Proof.
  induction n as [|n IH]; intros s k r Hn.
  { destruct s; [discriminate|cbn in Hn; lia]. }
  destruct s as [|c s1]; [discriminate|]. cbn [scanstring List.length] in *.
  destruct (c =? QUOTE). { intros [= <- <-]. lia. }
  destruct (c =? BACKSLASH).
  - destruct s1 as [|e s2]; [discriminate|]. cbn [List.length] in *.
    destruct (e =? 0x75).
    + destruct s2 as [|x1 [|x2 [|x3 [|x4 s6]]]]; try discriminate.
      cbn [List.length] in *.
      destruct (hex4 x1 x2 x3 x4) as [uni|]; [|discriminate].
      assert (K : forall k', scanstring s6 = Some (k', r) ->
                             (List.length r < S (S (S (S (S (S (List.length s6)))))))%nat).
      { intros k' Hk. apply IH in Hk; lia. }
      destruct s6 as [|b [|u [|y1 [|y2 [|y3 [|y4 s12]]]]]];
        try (intros H; apply cons_fst_some in H as (k' & H & _); now apply K in H).
      destruct (is_high_surrogate uni && (b =? BACKSLASH) && (u =? 0x75));
        [|intros H; apply cons_fst_some in H as (k' & H & _); now apply K in H].
      destruct (hex4 y1 y2 y3 y4) as [uni2|]; [|discriminate].
      destruct (is_low_surrogate uni2);
        [|intros H; apply cons_fst_some in H as (k' & H & _); now apply K in H].
      intros H. apply cons_fst_some in H as (k' & H & _).
      apply IH in H; cbn [List.length] in *; lia.
    + destruct (unescape e); [|discriminate].
      intros H. apply cons_fst_some in H as (k' & H & _). apply IH in H; lia.
  - destruct (c <? 0x20); [discriminate|].
    intros H. apply cons_fst_some in H as (k' & H & _). apply IH in H; lia.
Qed.

Lemma scanstring_length s k r :
  scanstring s = Some (k, r) -> (List.length r < List.length s)%nat.
Proof. now apply (@scanstring_length_aux (List.length s)). Qed.

(** *** The shape of what the number pattern matches *)

Lemma span_digits_spec s :
  let (ds, r) := span_digits s in
  s = ds ++ r /\ forallb is_digit ds = true /\ stop_digit r = true.
Proof.
  induction s as [|c s IH]; [now repeat split|].
  cbn [span_digits]. destruct (is_digit c) eqn:E.
  - destruct (span_digits s) as [ds r]. destruct IH as (-> & H1 & H2).
    cbn [forallb app]. now rewrite E, H1.
  - cbn [stop_digit app forallb]. now rewrite E.
Qed.

Lemma span_digits_stop ds t :
  forallb is_digit ds = true -> stop_digit t = true ->
  span_digits (ds ++ t) = (ds, t).
Proof.
  intros Hd Ht. induction ds as [|c ds IH].
  - destruct t as [|c t]; [reflexivity|]. cbn [app span_digits].
    cbn [stop_digit] in Ht. apply negb_true_iff in Ht. now rewrite Ht.
  - cbn [forallb] in Hd. apply andb_prop in Hd as [Hc Hd].
    cbn [app span_digits]. now rewrite Hc, (IH Hd).
Qed.

Lemma opt_minus_spec s :
  let (sign, r) := opt_minus s in
  s = sign ++ r
  /\ (sign = [MINUS] \/ (sign = [] /\ forall c t, r = c :: t -> (c =? MINUS) = false)).
Proof.
  destruct s as [|c s]; cbn [opt_minus].
  - split; [reflexivity|]. right. split; [reflexivity|]. discriminate.
  - destruct (c =? MINUS) eqn:E.
    + bool_to_prop. subst. split; [reflexivity|now left].
    + split; [reflexivity|]. right. split; [reflexivity|].
      now intros c' t [= <- <-].
Qed.

(** The integer group matched [digits]: a lone zero, or a run of digits
    that does not start with zero and is not followed by a digit. *)
Lemma int_part_spec s :
  let (digits, r) := int_part s in
  s = digits ++ r /\ forallb is_digit digits = true
  /\ (digits = [0x30]
      \/ (stop_digit r = true
          /\ forall c t, digits = c :: t -> (c =? 0x30) = false)).
Proof.
  destruct s as [|c s]; cbn [int_part].
  - repeat split. right. split; [reflexivity|discriminate].
  - destruct (c =? 0x30) eqn:E.
    + bool_to_prop. subst. repeat split. now left.
    + pose proof (span_digits_spec (c :: s)) as H.
      destruct (span_digits (c :: s)) as [ds r]. destruct H as (H1 & H2 & H3).
      repeat split; try assumption. right. split; [assumption|].
      intros c' t ->. cbn [app] in H1. now injection H1 as <- _.
Qed.

Lemma frac_part_spec s :
  let (frac, r) := frac_part s in
  s = frac ++ r
  /\ ((frac = [] /\ forall c t, s = c :: t ->
                    (c =? DOT) = false \/ stop_digit t = true)
      \/ exists d ds, frac = DOT :: d :: ds
                      /\ forallb is_digit (d :: ds) = true /\ stop_digit r = true).
Proof.
  destruct s as [|c s]; cbn [frac_part].
  - split; [reflexivity|]. left. split; [reflexivity|discriminate].
  - destruct (c =? DOT) eqn:E.
    + bool_to_prop. subst.
      pose proof (span_digits_spec s) as H.
      destruct (span_digits s) as [[|d ds] r]; destruct H as (H1 & H2 & H3).
      * split; [reflexivity|]. left. split; [reflexivity|].
        intros c t [= <- <-]. right. now subst.
      * split; [now subst|]. right. now exists d, ds.
    + split; [reflexivity|]. left. split; [reflexivity|].
      intros c' t [= <- <-]. now left.
Qed.

Lemma exp_part_spec s :
  let (exp, r) := exp_part s in
  s = exp ++ r
  /\ (exp = []
      \/ (exists e sg d ds, exp = e :: sg :: d :: ds /\ is_e e = true
            /\ is_sign sg = true /\ forallb is_digit (d :: ds) = true)
      \/ (exists e d ds, exp = e :: d :: ds /\ is_e e = true
            /\ is_sign d = false /\ forallb is_digit (d :: ds) = true)).
Proof.
  destruct s as [|e s]; cbn [exp_part].
  - split; [reflexivity|now left].
  - fold (is_e e). destruct (is_e e) eqn:Ee; [|split; [reflexivity|now left]].
    destruct s as [|sg s]; [split; [reflexivity|now left]|].
    destruct (is_sign sg) eqn:Es.
    + pose proof (span_digits_spec s) as H.
      destruct (span_digits s) as [[|d ds] r]; destruct H as (H1 & H2 & H3).
      * split; [reflexivity|now left].
      * split; [now subst|]. right. left. now exists e, sg, d, ds.
    + pose proof (span_digits_spec (sg :: s)) as H.
      destruct (span_digits (sg :: s)) as [[|d ds] r]; destruct H as (H1 & H2 & H3).
      * split; [reflexivity|now left].
      * split; [cbn [app] in *; now rewrite H1|]. right. right.
        cbn [app] in H1. injection H1 as -> _. now exists e, d, ds.
Qed.

(** *** Lengths, through the whole scanner *)

Lemma scan_number_length s v r :
  scan_number s = Some (v, r) -> (List.length r <= List.length s)%nat.
Proof.
  unfold scan_number.
  pose proof (opt_minus_spec s) as H1. destruct (opt_minus s) as [sign s1].
  pose proof (int_part_spec s1) as H2. destruct (int_part s1) as [digits s2].
  destruct digits as [|d ds]; [discriminate|].
  pose proof (frac_part_spec s2) as H3. destruct (frac_part s2) as [frac s3].
  pose proof (exp_part_spec s3) as H4. destruct (exp_part s3) as [exp s4].
  destruct H1 as [-> _], H2 as [-> _], H3 as [-> _], H4 as [-> _].
  intros H. assert (r = s4) by (destruct frac, exp; congruence). subst r.
  rewrite !length_app. lia.
Qed.

Lemma scan_atom_length s v r :
  scan_atom s = Parsed v r -> (List.length r <= List.length s)%nat.
Proof.
  unfold scan_atom.
  assert (K : forall p r', strip_prefix p s = Some r' ->
                           (List.length r' <= List.length s)%nat).
  { intros p r' H. apply strip_prefix_eq in H. subst. rewrite length_app. lia. }
  destruct (strip_prefix (lit "null") s) eqn:E1; [intros [= <- <-]; eauto|].
  destruct (strip_prefix (lit "true") s) eqn:E2; [intros [= <- <-]; eauto|].
  destruct (strip_prefix (lit "false") s) eqn:E3; [intros [= <- <-]; eauto|].
  destruct (scan_number s) as [[v' r']|] eqn:E4.
  { intros [= <- <-]. eapply scan_number_length; eauto. }
  destruct (strip_prefix (lit "NaN") s) eqn:E5; [intros [= <- <-]; eauto|].
  destruct (strip_prefix (lit "Infinity") s) eqn:E6; [intros [= <- <-]; eauto|].
  destruct (strip_prefix (lit "-Infinity") s) eqn:E7; [intros [= <- <-]; eauto|].
  discriminate.
Qed.

Lemma scan_map_parsed (A B : Type) (f : A -> B) (x : scan A) b r :
  scan_map f x = Parsed b r -> exists a, x = Parsed a r /\ b = f a.
Proof. destruct x; cbn; try discriminate. intros [= <- <-]. eauto. Qed.

Lemma scan_length n :
  (forall s v r, scan_once n s = Parsed v r ->
                 (List.length r <= List.length s)%nat)
  /\ (forall s vs r, scan_elems n s = Parsed vs r ->
                     (List.length r <= List.length s)%nat)
  /\ (forall s ps r, scan_members n s = Parsed ps r ->
                     (List.length r <= List.length s)%nat).
Proof.
  induction n as [|n (IHo & IHe & IHm)]; [repeat split; discriminate|].
  repeat split.
  - intros s v r. cbn [scan_once]. destruct s as [|c s1]; [discriminate|].
    pose proof (skip_ws_length s1) as Hw. cbn [List.length].
    destruct (c =? QUOTE).
    { destruct (scanstring s1) as [[k r']|] eqn:E; [|discriminate].
      intros [= <- <-]. apply scanstring_length in E. lia. }
    destruct (c =? LBRACE).
    { destruct (skip_ws s1) as [|c2 s3]; [discriminate|]. cbn [List.length] in Hw.
      destruct (c2 =? RBRACE); [intros [= <- <-]; lia|].
      intros H. apply scan_map_parsed in H as (ps & H & _).
      apply IHm in H. cbn [List.length] in H. lia. }
    destruct (c =? LBRACKET).
    { destruct (skip_ws s1) as [|c2 s3]; [discriminate|]. cbn [List.length] in Hw.
      destruct (c2 =? RBRACKET); [intros [= <- <-]; lia|].
      intros H. apply scan_map_parsed in H as (ps & H & _).
      apply IHe in H. cbn [List.length] in H. lia. }
    intros H. apply scan_atom_length in H. exact H.
  - intros s vs r. cbn [scan_elems].
    destruct (scan_once n s) as [v r0| |] eqn:E; try discriminate.
    apply IHo in E. pose proof (skip_ws_length r0) as Hw.
    destruct (skip_ws r0) as [|c r1]; [discriminate|]. cbn [List.length] in Hw.
    destruct (c =? RBRACKET); [intros [= <- <-]; lia|].
    destruct (c =? COMMA); [|discriminate].
    intros H. apply scan_map_parsed in H as (vs' & H & _).
    apply IHe in H. pose proof (skip_ws_length r1). lia.
  - intros s ps r. cbn [scan_members]. destruct s as [|q s1]; [discriminate|].
    destruct (q =? QUOTE); [|discriminate].
    destruct (scanstring s1) as [[key r0]|] eqn:E; [|discriminate].
    apply scanstring_length in E. pose proof (skip_ws_length r0) as Hw.
    destruct (skip_ws r0) as [|c r1]; [discriminate|]. cbn [List.length] in *.
    destruct (c =? COLON); [|discriminate].
    destruct (scan_once n (skip_ws r1)) as [v r2| |] eqn:E2; try discriminate.
    apply IHo in E2. pose proof (skip_ws_length r1) as Hw1.
    pose proof (skip_ws_length r2) as Hw2.
    destruct (skip_ws r2) as [|c2 r3]; [discriminate|]. cbn [List.length] in *.
    destruct (c2 =? RBRACE); [intros [= <- <-]; lia|].
    destruct (c2 =? COMMA); [|discriminate].
    intros H. apply scan_map_parsed in H as (ps' & H & _).
    apply IHm in H. pose proof (skip_ws_length r3). lia.
Qed.

(** *** Enough fuel *)

Lemma scan_map_exhausted (A B : Type) (f : A -> B) (x : scan A) :
  x <> Exhausted -> scan_map f x <> Exhausted.
Proof. destruct x; cbn; congruence. Qed.

Lemma scan_atom_not_exhausted s : scan_atom s <> Exhausted.
Proof.
  unfold scan_atom.
  repeat match goal with
  | |- context [match ?x with _ => _ end] => destruct x as [[? ?]|] || destruct x
  end; discriminate.
Qed.

(** Twice the length of the text, and one or two more, is fuel enough. *)
Lemma scan_adequate n :
  (forall s, (2 * List.length s + 1 <= n)%nat -> scan_once n s <> Exhausted)
  /\ (forall s, (2 * List.length s + 2 <= n)%nat -> scan_elems n s <> Exhausted)
  /\ (forall s, (2 * List.length s + 2 <= n)%nat -> scan_members n s <> Exhausted).
Proof.
  induction n as [|n (IHo & IHe & IHm)]; [repeat split; intros; lia|].
  destruct (scan_length n) as (Lo & Le & Lm).
  repeat split; intros s Hn.
  - cbn [scan_once]. destruct s as [|c s1]; [discriminate|].
    pose proof (skip_ws_length s1) as Hw. cbn [List.length] in Hn.
    destruct (c =? QUOTE). { destruct (scanstring s1) as [[? ?]|]; discriminate. }
    destruct (c =? LBRACE).
    { destruct (skip_ws s1) as [|c2 s3]; [discriminate|].
      destruct (c2 =? RBRACE); [discriminate|].
      apply scan_map_exhausted, IHm. lia. }
    destruct (c =? LBRACKET); [|apply scan_atom_not_exhausted].
    destruct (skip_ws s1) as [|c2 s3]; [discriminate|].
    destruct (c2 =? RBRACKET); [discriminate|].
    apply scan_map_exhausted, IHe. lia.
  - cbn [scan_elems].
    assert (Ho : scan_once n s <> Exhausted) by (apply IHo; lia).
    destruct (scan_once n s) as [v r0| |] eqn:E; [|discriminate|contradiction].
    apply Lo in E. pose proof (skip_ws_length r0) as Hw.
    destruct (skip_ws r0) as [|c r1]; [discriminate|]. cbn [List.length] in Hw.
    destruct (c =? RBRACKET); [discriminate|].
    destruct (c =? COMMA); [|discriminate].
    apply scan_map_exhausted, IHe. pose proof (skip_ws_length r1). lia.
  - cbn [scan_members]. destruct s as [|q s1]; [discriminate|].
    destruct (q =? QUOTE); [|discriminate].
    destruct (scanstring s1) as [[key r0]|] eqn:E; [|discriminate].
    apply scanstring_length in E. pose proof (skip_ws_length r0) as Hw.
    destruct (skip_ws r0) as [|c r1]; [discriminate|]. cbn [List.length] in *.
    destruct (c =? COLON); [|discriminate].
    pose proof (skip_ws_length r1) as Hw1.
    assert (Ho : scan_once n (skip_ws r1) <> Exhausted) by (apply IHo; lia).
    destruct (scan_once n (skip_ws r1)) as [v r2| |] eqn:E2;
      [|discriminate|contradiction].
    apply Lo in E2. pose proof (skip_ws_length r2) as Hw2.
    destruct (skip_ws r2) as [|c2 r3]; [discriminate|]. cbn [List.length] in *.
    destruct (c2 =? RBRACE); [discriminate|].
    destruct (c2 =? COMMA); [|discriminate].
    apply scan_map_exhausted, IHm. pose proof (skip_ws_length r3). lia.
Qed.

(** [json_loads] never runs out of fuel: every text is either read or
    rejected. *)
Lemma json_loads_total s : json_loads s <> Exhausted.
Proof.
  unfold json_loads.
  assert (H : scan_once (2 * List.length s + 1) (skip_ws s) <> Exhausted).
  { apply scan_adequate. pose proof (skip_ws_length s). lia. }
  destruct (scan_once _ (skip_ws s)) as [v r| |]; [|discriminate|contradiction].
  destruct (skip_ws r); discriminate.
Qed.

(** [json.loads(json.dumps(v, ensure_ascii=False, indent=4)) == v] *)
Lemma json_loads_dumps v :
  wf_value v = true -> json_loads (json_dumps v) = Parsed v [].
Proof.
  intros Hwf. unfold json_loads, json_dumps.
  rewrite skip_ws_start by now apply iterencode_starts.
  destruct (reads_back_all v Hwf 0%nat [] eq_refl) as [n Hn].
  rewrite app_nil_r in Hn.
  set (F := (2 * List.length (iterencode 0 v) + 1)%nat).
  assert (Ha : scan_once F (iterencode 0 v) <> Exhausted).
  { apply scan_adequate. unfold F. lia. }
  assert (E : scan_once F (iterencode 0 v) = Parsed v []).
  { destruct (Nat.le_ge_cases n F) as [Hle|Hge].
    - now apply Hn.
    - rewrite <- (Hn n (le_n n)).
      symmetry. now apply (proj1 (scan_mono F)). }
  now rewrite E.
Qed.

(* ================================================================== *)
(** ** Whatever the scanner returns is well formed *)

Lemma is_e_facts e : is_e e = true -> is_digit e = false /\ (e =? DOT) = false.
Proof.
  unfold is_e. intros H. apply orb_prop in H as [H|H]; bool_to_prop; subst; now split.
Qed.

Lemma is_digit_not_minus c : is_digit c = true -> (c =? MINUS) = false.
Proof. unfold is_digit. intros H. bool_to_prop. prop_to_bool. unfold MINUS. lia. Qed.

Lemma is_digit_not_dot c : is_digit c = true -> (c =? DOT) = false.
Proof. unfold is_digit. intros H. bool_to_prop. prop_to_bool. unfold DOT. lia. Qed.

(** A float that the pattern matched is matched again, whole, when its
    text stands alone. *)
Lemma scan_number_float_lexeme s lex r :
  scan_number s = Some (PyFloat lex, r) -> float_lexeme lex = true.
Proof.
  unfold scan_number.
  pose proof (opt_minus_spec s) as H1. destruct (opt_minus s) as [sign s1].
  pose proof (int_part_spec s1) as H2. destruct (int_part s1) as [digits s2].
  destruct digits as [|d ds]; [discriminate|].
  pose proof (frac_part_spec s2) as H3. destruct (frac_part s2) as [frac s3].
  pose proof (exp_part_spec s3) as H4. destruct (exp_part s3) as [exp s4].
  destruct H1 as [E1 H1], H2 as (E2 & D2 & H2), H3 as [E3 H3], H4 as [E4 H4].
  intros H.
  assert (Hlex : lex = sign ++ (d :: ds) ++ frac ++ exp /\ (frac <> [] \/ exp <> [])).
  { destruct frac, exp; try discriminate; injection H as <- _;
      (split; [reflexivity|]); (left; discriminate) || (right; discriminate). }
  clear H. destruct Hlex as [-> Hne].
  assert (Hse : stop_digit exp = true).
  { destruct H4 as [->|[(e & sg & d' & ds' & -> & He & _)|(e & d' & ds' & -> & He & _)]];
      [reflexivity| |]; cbn [stop_digit]; now rewrite (proj1 (is_e_facts _ He)). }
  assert (Hsf : stop_digit (frac ++ exp) = true).
  { destruct H3 as [[-> _]|(d' & ds' & -> & _)]; [exact Hse|reflexivity]. }
  assert (A1 : opt_minus (sign ++ (d :: ds) ++ frac ++ exp)
               = (sign, (d :: ds) ++ frac ++ exp)).
  { destruct H1 as [->|[-> H1]]; [reflexivity|].
    cbn [app opt_minus]. cbn [forallb] in D2. apply andb_prop in D2 as [Dd _].
    now rewrite (is_digit_not_minus _ Dd). }
  assert (A2 : int_part ((d :: ds) ++ frac ++ exp) = (d :: ds, frac ++ exp)).
  { destruct H2 as [[= -> ->]|[_ H2]]; [reflexivity|].
    cbn [app int_part]. rewrite (H2 d ds eq_refl).
    now apply (span_digits_stop (d :: ds)). }
  assert (A3 : frac_part (frac ++ exp) = (frac, exp)).
  { destruct H3 as [[-> _]|(d' & ds' & -> & D3 & _)].
    - cbn [app].
      destruct H4 as [->|[(e & sg & d' & ds' & -> & He & _)|(e & d' & ds' & -> & He & _)]];
        [reflexivity| |]; cbn [frac_part]; now rewrite (proj2 (is_e_facts _ He)).
    - cbn [app frac_part]. change (DOT =? DOT) with true. cbv iota.
      change (d' :: ds' ++ exp) with ((d' :: ds') ++ exp).
      now rewrite (span_digits_stop (d' :: ds') exp D3 Hse). }
  assert (A4 : exp_part exp = (exp, [])).
  { destruct H4 as [->|[(e & sg & d' & ds' & -> & He & Hs & D4)
                       |(e & d' & ds' & -> & He & Hs & D4)]]; [reflexivity| |].
    - cbn [exp_part]. fold (is_e e). rewrite He, Hs.
      now rewrite (span_digits_all (d' :: ds') D4).
    - cbn [exp_part]. fold (is_e e). rewrite He, Hs.
      now rewrite (span_digits_all (d' :: ds') D4). }
  unfold float_lexeme, scan_number. rewrite A1, A2, A3, A4.
  destruct frac, exp; try (now destruct Hne); apply pystr_eqb_refl.
Qed.

Lemma scan_number_wf s v r : scan_number s = Some (v, r) -> wf_value v = true.
Proof.
  intros H. destruct v;
    try (unfold scan_number in H;
         destruct (opt_minus s) as [? ?]; destruct (int_part _) as [[|? ?] ?];
         [discriminate|];
         destruct (frac_part _) as [[|? ?] ?]; destruct (exp_part _) as [[|? ?] ?];
         discriminate).
  - reflexivity.
  - cbn [wf_value]. eapply scan_number_float_lexeme; eauto.
Qed.

Lemma scan_atom_wf s v r : scan_atom s = Parsed v r -> wf_value v = true.
Proof.
  unfold scan_atom.
  destruct (strip_prefix (lit "null") s); [now intros [= <- <-]|].
  destruct (strip_prefix (lit "true") s); [now intros [= <- <-]|].
  destruct (strip_prefix (lit "false") s); [now intros [= <- <-]|].
  destruct (scan_number s) as [[v' r']|] eqn:E.
  { intros [= <- <-]. eapply scan_number_wf; eauto. }
  destruct (strip_prefix (lit "NaN") s); [now intros [= <- <-]|].
  destruct (strip_prefix (lit "Infinity") s); [now intros [= <- <-]|].
  destruct (strip_prefix (lit "-Infinity") s); [now intros [= <- <-]|].
  discriminate.
Qed.

(** *** [dict(pairs)] has one entry per key *)

Lemma pystr_eqb_sym a b : pystr_eqb a b = pystr_eqb b a.
Proof.
  destruct (pystr_eqb a b) eqn:E.
  - apply pystr_eqb_eq in E. subst. now rewrite pystr_eqb_refl.
  - destruct (pystr_eqb b a) eqn:E'; [|reflexivity].
    apply pystr_eqb_eq in E'. subst. now rewrite pystr_eqb_refl in E.
Qed.

Lemma dict_set_keys k v d :
  map fst (dict_set k v d)
  = if existsb (pystr_eqb k) (map fst d) then map fst d else map fst d ++ [k].
Proof.
  induction d as [|[k' v'] d IH]; [reflexivity|].
  cbn [dict_set map fst existsb]. rewrite (pystr_eqb_sym k k').
  destruct (pystr_eqb k' k) eqn:E; cbn [orb map fst]; [reflexivity|].
  rewrite IH. destruct (existsb (pystr_eqb k) (map fst d)); reflexivity.
Qed.

Lemma keys_unique_snoc ks k :
  keys_unique ks = true -> existsb (pystr_eqb k) ks = false ->
  keys_unique (ks ++ [k]) = true.
Proof.
  induction ks as [|k0 ks IH]; [reflexivity|].
  cbn [keys_unique existsb app]. intros H1 H2.
  apply andb_prop in H1 as [H1 H1']. apply negb_true_iff in H1.
  apply orb_false_elim in H2 as [H2 H2'].
  rewrite existsb_app, H1. cbn [existsb orb]. rewrite orb_false_r.
  rewrite (pystr_eqb_sym k0 k), H2. cbn [negb andb]. now apply IH.
Qed.

Lemma dict_set_keys_unique k v d :
  keys_unique (map fst d) = true -> keys_unique (map fst (dict_set k v d)) = true.
Proof.
  intros H. rewrite dict_set_keys.
  destruct (existsb (pystr_eqb k) (map fst d)) eqn:E; [assumption|].
  now apply keys_unique_snoc.
Qed.

Lemma dict_set_forall (P : pyvalue -> bool) k v d :
  P v = true -> forallb (fun kv => P (snd kv)) d = true ->
  forallb (fun kv => P (snd kv)) (dict_set k v d) = true.
Proof.
  intros Hv. induction d as [|[k' v'] d IH]; cbn [dict_set forallb snd].
  - intros _. now rewrite Hv.
  - intros H. apply andb_prop in H as [H1 H2].
    destruct (pystr_eqb k' k); cbn [forallb snd].
    + now rewrite Hv, H2.
    + now rewrite H1, (IH H2).
Qed.

Lemma dict_of_pairs_wf ps :
  forallb (fun kv => wf_value (snd kv)) ps = true ->
  wf_value (PyDict (dict_of_pairs ps)) = true.
Proof.
  unfold dict_of_pairs. intros H.
  assert (G : forall acc,
             wf_value (PyDict acc) = true ->
             wf_value (PyDict (fold_left (fun d kv => dict_set (fst kv) (snd kv) d)
                                          ps acc)) = true).
  { induction ps as [|[k v] ps IH]; intros acc Hacc; [exact Hacc|].
    cbn [forallb snd] in H. apply andb_prop in H as [Hv Hps].
    cbn [fold_left fst snd]. apply (IH Hps).
    cbn [wf_value] in *. apply andb_prop in Hacc as [Ha1 Ha2].
    apply andb_true_intro. split.
    - now apply dict_set_keys_unique.
    - now apply dict_set_forall. }
  now apply G.
Qed.

(** *** Values *)

Lemma scan_wf n :
  (forall s v r, scan_once n s = Parsed v r -> wf_value v = true)
  /\ (forall s vs r, scan_elems n s = Parsed vs r -> forallb wf_value vs = true)
  /\ (forall s ps r, scan_members n s = Parsed ps r ->
                     forallb (fun kv => wf_value (snd kv)) ps = true).
Proof.
  induction n as [|n (IHo & IHe & IHm)]; [repeat split; discriminate|].
  repeat split.
  - intros s v r. cbn [scan_once]. destruct s as [|c s1]; [discriminate|].
    destruct (c =? QUOTE).
    { destruct (scanstring s1) as [[k r']|]; [|discriminate]. now intros [= <- <-]. }
    destruct (c =? LBRACE).
    { destruct (skip_ws s1) as [|c2 s3]; [discriminate|].
      destruct (c2 =? RBRACE); [now intros [= <- <-]|].
      intros H. apply scan_map_parsed in H as (ps & H & ->).
      apply dict_of_pairs_wf. eapply IHm; eauto. }
    destruct (c =? LBRACKET); [|apply scan_atom_wf].
    destruct (skip_ws s1) as [|c2 s3]; [discriminate|].
    destruct (c2 =? RBRACKET); [now intros [= <- <-]|].
    intros H. apply scan_map_parsed in H as (vs & H & ->).
    cbn [wf_value]. eapply IHe; eauto.
  - intros s vs r. cbn [scan_elems].
    destruct (scan_once n s) as [v r0| |] eqn:E; try discriminate.
    apply IHo in E.
    destruct (skip_ws r0) as [|c r1]; [discriminate|].
    destruct (c =? RBRACKET). { intros [= <- <-]. cbn [forallb]. now rewrite E. }
    destruct (c =? COMMA); [|discriminate].
    intros H. apply scan_map_parsed in H as (vs' & H & ->).
    cbn [forallb]. rewrite E. eapply IHe; eauto.
  - intros s ps r. cbn [scan_members]. destruct s as [|q s1]; [discriminate|].
    destruct (q =? QUOTE); [|discriminate].
    destruct (scanstring s1) as [[key r0]|]; [|discriminate].
    destruct (skip_ws r0) as [|c r1]; [discriminate|].
    destruct (c =? COLON); [|discriminate].
    destruct (scan_once n (skip_ws r1)) as [v r2| |] eqn:E2; try discriminate.
    apply IHo in E2.
    destruct (skip_ws r2) as [|c2 r3]; [discriminate|].
    destruct (c2 =? RBRACE). { intros [= <- <-]. cbn [forallb snd]. now rewrite E2. }
    destruct (c2 =? COMMA); [|discriminate].
    intros H. apply scan_map_parsed in H as (ps' & H & ->).
    cbn [forallb snd]. rewrite E2. eapply IHm; eauto.
Qed.

Lemma json_loads_wf s v r : json_loads s = Parsed v r -> wf_value v = true /\ r = [].
Proof.
  unfold json_loads.
  destruct (scan_once _ (skip_ws s)) as [v' r'| |] eqn:E; try discriminate.
  destruct (skip_ws r'); [|discriminate].
  intros [= <- <-]. split; [|reflexivity].
  eapply (proj1 (scan_wf _)); eauto.
Qed.

(* ================================================================== *)
(** ** Running the blocks of [call_llm] *)

Ltac unfold_ops :=
  unfold generate_content, open_and_load, open_and_dump, os_path_exists,
    logger_log, print, try_except, bind, ret, lift in *.

Ltac simp_world :=
  cbn [cache_file log_lines stdout fs_stats fs_reads fs_writes remote_calls
       set_cache_file add_log add_stdout count_stat count_read count_write
       add_remote_call fst snd] in *.

(** Destruct the innermost scrutinee of a [match] in the goal. *)
Ltac case_step :=
  match goal with
  | |- context [match ?x with _ => _ end] =>
    lazymatch x with
    | context [match _ with _ => _ end] => fail
    | _ => destruct x eqn:?
    end
  end.

Ltac run_blocks :=
  repeat first
    [ progress simp_world
    | progress cbn [py_contains py_getitem py_setitem dict_mem dict_get] in *
    | case_step ].

Ltac finish_frame :=
  repeat split; auto; try (intros ? ?; apply in_or_app; now left).

(** Lines 26-31 always complete, and touch only the log or the standard
    output. *)
Lemma log_prompt_run E prompt w :
  exists w1, log_prompt E prompt w = (Ok tt, w1)
             /\ same_cache_file w w1
             /\ remote_calls w1 = remote_calls w
             /\ (forall r, In r (log_lines w) -> In r (log_lines w1)).
Proof.
  unfold log_prompt. unfold_ops. destruct (logger_raises E Log29).
  - eexists. split; [reflexivity|]. simp_world. repeat split. auto.
  - eexists. split; [reflexivity|]. simp_world. repeat split.
    intros r Hr. apply in_or_app. now left.
Qed.

Lemma log_response_run E text w :
  exists w1, log_response E text w = (Ok tt, w1)
             /\ same_cache_file w w1
             /\ remote_calls w1 = remote_calls w
             /\ (forall r, In r (log_lines w) -> In r (log_lines w1))
             /\ (logger_raises E Log85 = None ->
                 In (mk_log INFO (fstr "RESPONSE (API): " (PyStr text) ""))
                    (log_lines w1)).
Proof.
  unfold log_response. unfold_ops. destruct (logger_raises E Log85).
  - eexists. split; [reflexivity|]. simp_world. repeat split; [auto|discriminate].
  - eexists. split; [reflexivity|]. simp_world. repeat split.
    + intros r Hr. apply in_or_app. now left.
    + intros _. apply in_or_app. right. now left.
Qed.

(** What lines 33-54 answer depends on the world only through the cache
    file, which they do not change; they write nothing and call nobody. *)
Lemma check_cache_frame E prompt use_cache w w1 :
  cache_file w1 = cache_file w ->
  outcome (check_cache E prompt use_cache) w1 = outcome (check_cache E prompt use_cache) w
  /\ cache_file (after (check_cache E prompt use_cache) w1) = cache_file w1
  /\ fs_writes (after (check_cache E prompt use_cache) w1) = fs_writes w1
  /\ remote_calls (after (check_cache E prompt use_cache) w1) = remote_calls w1
  /\ (forall r, In r (log_lines w1) ->
                In r (log_lines (after (check_cache E prompt use_cache) w1))).
Proof.
  intros Hf. destruct w, w1. simp_world. subst.
  unfold outcome, after, check_cache, load_cache.
  destruct use_cache; [|now repeat split].
  unfold_ops. run_blocks; finish_frame.
Qed.

(** [call_llm] as the sequence of its blocks. *)
Lemma call_llm_blocks E prompt use_cache w :
  call_llm E prompt use_cache w
  = match log_prompt E prompt w with
    | (Raise e, w1) => (Raise e, w1)
    | (Ok _, w1) =>
      match check_cache E prompt use_cache w1 with
      | (Raise e, w2) => (Raise e, w2)
      | (Ok (Some response_text), w2) => (Ok response_text, w2)
      | (Ok None, w2) =>
        match generate E prompt w2 with
        | (Raise e, w3) => (Raise e, w3)
        | (Ok (inr error_string), w3) => (Ok (PyStr error_string), w3)
        | (Ok (inl response_text), w3) =>
          match log_response E response_text w3 with
          | (Raise e, w4) => (Raise e, w4)
          | (Ok _, w4) =>
            match update_cache E prompt response_text use_cache w4 with
            | (Raise e, w5) => (Raise e, w5)
            | (Ok _, w5) => (Ok (PyStr response_text), w5)
            end
          end
        end
      end
    end.
Proof.
  unfold call_llm, bind, ret.
  destruct (log_prompt E prompt w) as [[[]|e] w1]; [|reflexivity].
  destruct (check_cache E prompt use_cache w1) as [[[v|]|e] w2]; try reflexivity.
  destruct (generate E prompt w2) as [[[t|s]|e] w3]; reflexivity.
Qed.

Lemma generate_text E prompt w text :
  remote E (request_for E prompt) = RemoteText text ->
  generate E prompt w
  = (Ok (inl (text_or_empty text)), add_remote_call (request_for E prompt) w).
Proof.
  intros H. unfold generate. unfold_ops. rewrite H. reflexivity.
Qed.

Lemma generate_raises E prompt w e :
  remote E (request_for E prompt) = RemoteRaises e ->
  generate E prompt w
  = match logger_raises E Log77 with
    | None =>
      (Ok (inr (lit "Error calling LLM: " ++ exn_msg e)),
       add_log (mk_log ERROR (fstr_exn "Error calling LLM API: " e ""))
               (add_remote_call (request_for E prompt) w))
    | Some e' => (Raise e', add_remote_call (request_for E prompt) w)
    end.
Proof.
  intros H. unfold generate. unfold_ops. rewrite H.
  destruct (logger_raises E Log77); reflexivity.
Qed.

(** Whatever the remote client answers, lines 56-80 call it once and leave
    the cache file alone. *)
Lemma generate_frame E prompt w :
  same_cache_file w (after (generate E prompt) w)
  /\ remote_calls (after (generate E prompt) w)
     = remote_calls w ++ [request_for E prompt]
  /\ (forall r, In r (log_lines w) -> In r (log_lines (after (generate E prompt) w))).
Proof.
  unfold after.
  destruct (remote E (request_for E prompt)) as [e|t] eqn:Hr.
  - rewrite (@generate_raises E prompt w e Hr).
    destruct (logger_raises E Log77); simp_world; finish_frame.
  - rewrite (@generate_text E prompt w t Hr). simp_world. finish_frame.
Qed.

(** What lines 91-101 answer depends on the world only through the cache
    file, which they do not change. *)
Lemma reload_cache_frame E w w1 :
  cache_file w1 = cache_file w ->
  outcome (reload_cache E) w1 = outcome (reload_cache E) w
  /\ cache_file (after (reload_cache E) w1) = cache_file w1
  /\ fs_writes (after (reload_cache E) w1) = fs_writes w1
  /\ remote_calls (after (reload_cache E) w1) = remote_calls w1
  /\ (forall r, In r (log_lines w1) -> In r (log_lines (after (reload_cache E) w1))).
Proof.
  intros Hf. destruct w, w1. simp_world. subst.
  unfold outcome, after, reload_cache.
  unfold_ops. run_blocks; finish_frame.
Qed.

(** *** Loading and reloading *)

Lemma load_file_wf b v : load_file b = Ok v -> wf_value v = true.
Proof.
  unfold load_file. destruct (utf8_decode b) as [s|]; [|discriminate].
  destruct (json_loads s) as [v' r| |] eqn:E; try discriminate.
  intros [= <-]. now apply json_loads_wf in E as [? _].
Qed.

(** A file that holds the encoder's text for [v] loads as [v]. *)
Lemma load_file_dumps v b :
  wf_value v = true -> utf8_encode (json_dumps v) = Some b -> load_file b = Ok v.
Proof.
  intros Hwf Hb. unfold load_file.
  rewrite (utf8_decode_encode _ Hb), (json_loads_dumps _ Hwf). reflexivity.
Qed.

Lemma reload_cache_wf E w v :
  outcome (reload_cache E) w = Ok v -> wf_value v = true.
Proof.
  destruct w as [[b|] ? ? ? ? ? ?]; unfold outcome, reload_cache; unfold_ops;
    simp_world; [|now intros [= <-]].
  destruct (read_raises E Read96); simp_world.
  - destruct (logger_raises E Log99); simp_world; [discriminate|now intros [= <-]].
  - destruct (load_file b) as [v'|e] eqn:El; simp_world.
    + intros [= <-]. eapply load_file_wf; eauto.
    + destruct (logger_raises E Log99); simp_world; [discriminate|now intros [= <-]].
Qed.

(** What lines 91-101 answer is the content of the file, when there is a
    file and it loads. *)
Lemma reload_cache_from_file E w b v :
  cache_file w = Some b -> read_raises E Read96 = None -> load_file b = Ok v ->
  outcome (reload_cache E) w = Ok v.
Proof.
  destruct w. simp_world. intros -> Hr Hl.
  unfold outcome, reload_cache. unfold_ops. simp_world.
  rewrite Hr. simp_world. now rewrite Hl.
Qed.

Lemma reload_cache_no_file E w :
  cache_file w = None -> outcome (reload_cache E) w = Ok (PyDict []).
Proof.
  destruct w. simp_world. intros ->.
  unfold outcome, reload_cache. unfold_ops. simp_world. reflexivity.
Qed.

(** *** dict lookups after an assignment *)

Lemma dict_get_set_same k v d : dict_get k (dict_set k v d) = Some v.
Proof.
  induction d as [|[k' v'] d IH]; cbn [dict_set dict_get].
  - now rewrite pystr_eqb_refl.
  - destruct (pystr_eqb k' k) eqn:E; cbn [dict_get]; now rewrite E.
Qed.

Lemma dict_get_set_other k k' v d :
  k' <> k -> dict_get k' (dict_set k v d) = dict_get k' d.
Proof.
  intros Hne. induction d as [|[k0 v0] d IH]; cbn [dict_set dict_get].
  - rewrite pystr_eqb_neq by congruence. reflexivity.
  - destruct (pystr_eqb k0 k) eqn:E; cbn [dict_get].
    + apply pystr_eqb_eq in E. subst k0.
      rewrite pystr_eqb_neq by congruence. reflexivity.
    + destruct (pystr_eqb k0 k'); [reflexivity|exact IH].
Qed.

Lemma dict_set_wf k s d :
  wf_value (PyDict d) = true -> wf_value (PyDict (dict_set k (PyStr s) d)) = true.
Proof.
  cbn [wf_value]. intros H. apply andb_prop in H as [H1 H2].
  apply andb_true_intro. split.
  - now apply dict_set_keys_unique.
  - now apply dict_set_forall.
Qed.

(** *** Saving *)

Lemma open_and_dump_succeeds E cache b w :
  write_succeeds E cache b ->
  open_and_dump E cache w = (Ok tt, set_cache_file (Some b) (count_write w)).
Proof.
  intros (H1 & H2 & H3). unfold open_and_dump. now rewrite H1, H2, H3.
Qed.

(** Whether lines 107-109 raise does not depend on the world. *)
Lemma open_and_dump_outcome E cache w w' :
  outcome (open_and_dump E cache) w = outcome (open_and_dump E cache) w'.
Proof.
  unfold outcome, open_and_dump.
  destruct (open_error (write_ends E)); [reflexivity|].
  destruct (dump_error (write_ends E)); [reflexivity|].
  destruct (utf8_encode (json_dumps cache)); reflexivity.
Qed.

Lemma save_cache_succeeds E d prompt text b w :
  write_succeeds E (PyDict (dict_set prompt (PyStr text) d)) b ->
  save_cache E (PyDict d) prompt text w
  = (Ok tt, set_cache_file (Some b) (count_write w)).
Proof.
  intros H. unfold save_cache. unfold bind, lift, try_except. cbn [py_setitem].
  now rewrite (@open_and_dump_succeeds E _ b w H).
Qed.

(** A failed save is logged, and lines 103-111 still complete, when the
    logger takes the record. *)
Lemma save_cache_fails E d prompt text e w :
  outcome (open_and_dump E (PyDict (dict_set prompt (PyStr text) d))) w = Raise e ->
  logger_raises E Log111 = None ->
  exists w', save_cache E (PyDict d) prompt text w = (Ok tt, w')
             /\ In (mk_log ERROR (fstr_exn "Failed to save cache: " e ""))
                   (log_lines w').
Proof.
  intros Hd Hl. unfold save_cache. unfold bind, lift, try_except. cbn [py_setitem].
  unfold outcome in Hd.
  destruct (open_and_dump E _ w) as [[[]|e'] w1]; cbn [fst] in Hd; [discriminate|].
  injection Hd as ->. unfold logger_log. rewrite Hl.
  eexists. split; [reflexivity|]. simp_world. apply in_or_app. right. now left.
Qed.

(** *** A miss, then an answer from the remote client, with caching on *)

Lemma run_pair (A : Type) (m : M A) w : m w = (outcome m w, after m w).
Proof. unfold outcome, after. now destruct (m w). Qed.

(** The call runs up to line 103 without raising; there the world [w4]
    still has the cache file of the start, and one remote call more. *)
Lemma call_llm_until_save E prompt w text d :
  outcome (check_cache E prompt true) w = Ok None ->
  remote E (request_for E prompt) = RemoteText text ->
  outcome (reload_cache E) w = Ok (PyDict d) ->
  exists w4,
    cache_file w4 = cache_file w
    /\ fs_writes w4 = fs_writes w
    /\ remote_calls w4 = remote_calls w ++ [request_for E prompt]
    /\ (forall r, In r (log_lines w) -> In r (log_lines w4))
    /\ (logger_raises E Log85 = None ->
        In (mk_log INFO (fstr "RESPONSE (API): " (PyStr (text_or_empty text)) ""))
           (log_lines w4))
    /\ call_llm E prompt true w
       = match save_cache E (PyDict d) prompt (text_or_empty text) w4 with
         | (Ok _, w5) => (Ok (PyStr (text_or_empty text)), w5)
         | (Raise e, w5) => (Raise e, w5)
         end.
Proof.
  intros Hmiss Hremote Hreload.
  destruct (log_prompt_run E prompt w) as (w1 & E1 & (F1 & _ & _ & W1) & R1 & L1).
  destruct (check_cache_frame E prompt true w w1 F1) as (O2 & F2 & W2 & R2 & L2).
  set (w2 := after (check_cache E prompt true) w1) in *.
  pose proof (generate_frame E prompt w2) as ((F3 & _ & _ & W3) & R3 & L3).
  set (w3 := add_remote_call (request_for E prompt) w2).
  assert (E3 : generate E prompt w2 = (Ok (inl (text_or_empty text)), w3))
    by now apply generate_text.
  unfold after in F3, W3, R3, L3. rewrite E3 in F3, W3, R3, L3. cbn [snd] in *.
  destruct (log_response_run E (text_or_empty text) w3)
    as (w3' & E4 & (F4 & _ & _ & W4) & R4 & L4 & L4').
  assert (Hf : cache_file w3' = cache_file w) by congruence.
  destruct (reload_cache_frame E w w3' Hf) as (O5 & F5 & W5 & R5 & L5).
  exists (after (reload_cache E) w3'). repeat split.
  - congruence.
  - congruence.
  - rewrite R5, R4, R3, R2, R1. reflexivity.
  - auto.
  - auto.
  - rewrite call_llm_blocks, E1.
    rewrite (run_pair (check_cache E prompt true) w1), O2, Hmiss. fold w2.
    rewrite E3, E4. unfold update_cache, bind.
    rewrite (run_pair (reload_cache E) w3'), O5, Hreload.
    destruct (save_cache E (PyDict d) prompt (text_or_empty text)
                         (after (reload_cache E) w3')) as [[[]|e] w5]; reflexivity.
Qed.

(** *** Hits and misses *)

Lemma check_cache_hit E prompt w b d v :
  cache_file w = Some b -> read_raises E Read40 = None ->
  load_file b = Ok (PyDict d) -> dict_get prompt d = Some v ->
  outcome (check_cache E prompt true) w = Ok (Some v).
Proof.
  destruct w. simp_world. intros -> Hr Hl Hg.
  unfold outcome, check_cache, load_cache. unfold_ops. simp_world.
  rewrite Hr. simp_world. rewrite Hl. simp_world.
  cbn [py_contains py_getitem]. unfold dict_mem. rewrite Hg. simp_world.
  destruct (logger_raises E Log51); reflexivity.
Qed.

Lemma check_cache_miss E prompt w b d :
  cache_file w = Some b -> read_raises E Read40 = None ->
  load_file b = Ok (PyDict d) -> dict_get prompt d = None ->
  outcome (check_cache E prompt true) w = Ok None.
Proof.
  destruct w. simp_world. intros -> Hr Hl Hg.
  unfold outcome, check_cache, load_cache. unfold_ops. simp_world.
  rewrite Hr. simp_world. rewrite Hl. simp_world.
  cbn [py_contains]. unfold dict_mem. rewrite Hg. reflexivity.
Qed.

Lemma check_cache_no_file E prompt w :
  cache_file w = None -> outcome (check_cache E prompt true) w = Ok None.
Proof.
  destruct w. simp_world. intros ->.
  unfold outcome, check_cache, load_cache. unfold_ops. simp_world. reflexivity.
Qed.

(** A hit is returned at line 54: nothing is written and the remote client
    is not called. *)
Lemma call_llm_hit E prompt use_cache w v :
  outcome (check_cache E prompt use_cache) w = Ok (Some v) ->
  outcome (call_llm E prompt use_cache) w = Ok v
  /\ remote_calls (after (call_llm E prompt use_cache) w) = remote_calls w
  /\ cache_file (after (call_llm E prompt use_cache) w) = cache_file w
  /\ fs_writes (after (call_llm E prompt use_cache) w) = fs_writes w.
Proof.
  intros Hhit.
  destruct (log_prompt_run E prompt w) as (w1 & E1 & (F1 & _ & _ & W1) & R1 & L1).
  destruct (check_cache_frame E prompt use_cache w w1 F1) as (O2 & F2 & W2 & R2 & L2).
  unfold outcome, after. rewrite call_llm_blocks, E1.
  rewrite (run_pair (check_cache E prompt use_cache) w1), O2, Hhit.
  cbn [fst snd]. repeat split; congruence.
Qed.

(** After a miss the remote client is called, once, whatever happens
    next. *)
Lemma call_llm_miss_calls_remote E prompt use_cache w :
  outcome (check_cache E prompt use_cache) w = Ok None ->
  remote_calls (after (call_llm E prompt use_cache) w)
  = remote_calls w ++ [request_for E prompt].
Proof.
  intros Hmiss.
  destruct (log_prompt_run E prompt w) as (w1 & E1 & (F1 & _ & _ & W1) & R1 & L1).
  destruct (check_cache_frame E prompt use_cache w w1 F1) as (O2 & F2 & W2 & R2 & L2).
  set (w2 := after (check_cache E prompt use_cache) w1) in *.
  pose proof (generate_frame E prompt w2) as (_ & R3 & _).
  unfold after in *. rewrite call_llm_blocks, E1.
  rewrite (run_pair (check_cache E prompt use_cache) w1), O2, Hmiss.
  unfold after. fold w2.
  destruct (generate E prompt w2) as [[[t|s]|e] w3]; cbn [snd] in *;
    try congruence.
  destruct (log_response_run E t w3) as (w4 & E4 & _ & R4 & _). rewrite E4.
  assert (R5 : remote_calls (snd (update_cache E prompt t use_cache w4))
               = remote_calls w4).
  { unfold update_cache, save_cache, reload_cache. destruct use_cache; [|reflexivity].
    destruct w4. unfold_ops. run_blocks; reflexivity. }
  destruct (update_cache E prompt t use_cache w4) as [[[]|e] w5]; cbn [snd] in *;
    congruence.
Qed.

(** *** A cache file that holds a JSON scalar *)

(** Whatever the prompt and the collaborators, if the cache file loads as a
    number, [true], [false] or [null], the membership test of line 47 raises
    a [TypeError] and the call ends with it. *)
Lemma call_llm_raises_on_scalar_cache E prompt w b v :
  cache_file w = Some b -> read_raises E Read40 = None ->
  load_file b = Ok v -> is_json_scalar v = true ->
  exists msg, outcome (call_llm E prompt true) w = Raise (TypeError msg).
Proof.
  intros Hf Hr Hl Hv.
  destruct (log_prompt_run E prompt w) as (w1 & E1 & (F1 & _) & _).
  destruct (check_cache_frame E prompt true w w1 F1) as (O2 & _).
  assert (Hc : exists msg, outcome (check_cache E prompt true) w = Raise (TypeError msg)).
  { destruct w as [f ? ? ? ? ? ?]. simp_world. subst f.
    unfold outcome, check_cache, load_cache. unfold_ops. simp_world.
    rewrite Hr. simp_world. rewrite Hl. simp_world.
    destruct v; try discriminate Hv; cbn [py_contains]; simp_world; eauto. }
  destruct Hc as [msg Hc]. exists msg.
  unfold outcome. rewrite call_llm_blocks, E1.
  rewrite (run_pair (check_cache E prompt true) w1), O2, Hc. reflexivity.
Qed.

(* ================================================================== *)
(** ** Caching disabled *)

(** C3: for every prompt, a call with [use_cache = false] performs no read
    and no write of the cache file, whatever the collaborators answer: the
    file's content is unchanged, and neither [os.path.exists] nor [open] was
    called on it. *)
Theorem C3_no_cache_no_file_access :
  forall (E : collaborators) (prompt : pystr) (w : world),
    same_cache_file w (after (call_llm E prompt false) w).
Proof.
  intros E prompt w.
  unfold after, call_llm, log_prompt, check_cache, generate, log_response,
    update_cache, generate_content, try_except, bind, ret, logger_log, print.
  destruct (logger_raises E Log29); cbn [fst snd];
    destruct (remote E (request_for E prompt)); cbn [fst snd];
    try destruct (logger_raises E Log77); cbn [fst snd];
    try destruct (logger_raises E Log85); cbn [fst snd];
    repeat split.
Qed.

(* ================================================================== *)
(** ** Cache files that are valid JSON but not a mapping to strings *)

(** C1: the call does not always return: with the cache file holding the
    valid JSON text [42] and every collaborator answering normally,
    [call_llm("hi", True)] ends with a [TypeError] raised at line 47. *)
Theorem C1_raises_on_cache_file_42 :
  outcome (call_llm answers_4 hi true) (fresh (Some (lit "42")))
  = Raise (TypeError (lit "argument of type 'int' is not iterable")).
Proof. vm_compute. reflexivity. Qed.

(** C9: there are cache files that are valid JSON, that are not an
    object, and on which a call with [use_cache = true] raises a [TypeError]:
    [42] (the membership test of line 47), [["hi"]] (the subscript of line
    48, after the membership test answered true) and [[]] (the assignment of
    line 104, after the remote call succeeded). *)
Theorem C9_non_object_cache_raises_TypeError :
  (load_file (lit "42") = Ok (PyInt 42)
   /\ exists msg, outcome (call_llm answers_4 hi true) (fresh (Some (lit "42")))
                  = Raise (TypeError msg))
  /\ (load_file list_of_hi = Ok (PyList [PyStr hi])
      /\ exists msg, outcome (call_llm answers_4 hi true) (fresh (Some list_of_hi))
                     = Raise (TypeError msg))
  /\ (load_file (lit "[]") = Ok (PyList [])
      /\ remote_calls (after (call_llm answers_4 hi true) (fresh (Some (lit "[]"))))
         = [request_for answers_4 hi]
      /\ exists msg, outcome (call_llm answers_4 hi true) (fresh (Some (lit "[]")))
                     = Raise (TypeError msg)).
Proof.
  repeat split; try (vm_compute; reflexivity);
    eexists; vm_compute; reflexivity.
Qed.

(** C10: on a cache hit the stored value is returned as it was read, with
    no check of its type: with [{"hi": 7}] in the cache file the call returns
    the integer 7, and with [{"hi": [1, {}]}] a list; neither is a string. *)
Theorem C10_cache_hit_returns_non_string :
  (load_file hi_is_7 = Ok (PyDict [(hi, PyInt 7)])
   /\ outcome (call_llm answers_4 hi true) (fresh (Some hi_is_7)) = Ok (PyInt 7))
  /\ (load_file hi_is_list = Ok (PyDict [(hi, PyList [PyInt 1; PyDict []])])
      /\ outcome (call_llm answers_4 hi true) (fresh (Some hi_is_list))
         = Ok (PyList [PyInt 1; PyDict []]))
  /\ (forall s, PyInt 7 <> PyStr s)
  /\ (forall s, PyList [PyInt 1; PyDict []] <> PyStr s).
Proof.
  repeat split; try (vm_compute; reflexivity); discriminate.
Qed.

(* ================================================================== *)
(** ** Remote failures *)

(** After a miss and a remote call that raises [e], the call ends at line
    80, or in the logger's own exception at line 77; the world [w2] it
    started the remote call in still has the cache file of the start. *)
Lemma call_llm_after_remote_failure E prompt use_cache w e :
  outcome (check_cache E prompt use_cache) w = Ok None ->
  remote E (request_for E prompt) = RemoteRaises e ->
  exists w2,
    cache_file w2 = cache_file w
    /\ fs_writes w2 = fs_writes w
    /\ call_llm E prompt use_cache w
       = match logger_raises E Log77 with
         | None =>
           (Ok (PyStr (lit "Error calling LLM: " ++ exn_msg e)),
            add_log (mk_log ERROR (fstr_exn "Error calling LLM API: " e ""))
                    (add_remote_call (request_for E prompt) w2))
         | Some e' => (Raise e', add_remote_call (request_for E prompt) w2)
         end.
Proof.
  intros Hmiss Hremote.
  destruct (log_prompt_run E prompt w) as (w1 & E1 & (F1 & _ & _ & W1) & R1 & L1).
  destruct (check_cache_frame E prompt use_cache w w1 F1) as (O2 & F2 & W2 & R2 & L2).
  exists (after (check_cache E prompt use_cache) w1). split; [congruence|].
  split; [congruence|].
  rewrite call_llm_blocks, E1.
  rewrite (run_pair (check_cache E prompt use_cache) w1), O2, Hmiss.
  rewrite (@generate_raises E prompt _ e Hremote).
  destruct (logger_raises E Log77); reflexivity.
Qed.

(** C4: for every prompt that the cache check does not find (caching off,
    or a miss), if the remote call raises an exception [e], the cache file is
    not written: its content is what it was and [open(cache_file, 'w')] was
    not called; and, the logger taking the error record, the failure is in
    the log at level ERROR and [call_llm] returns the string
    ["Error calling LLM: " + str(e)] instead of raising. *)
Theorem C4_remote_failure_returns_error_string :
  forall (E : collaborators) (prompt : pystr) (use_cache : bool) (w : world) (e : exn),
    outcome (check_cache E prompt use_cache) w = Ok None ->
    remote E (request_for E prompt) = RemoteRaises e ->
    let run := call_llm E prompt use_cache in
    cache_file (after run w) = cache_file w
    /\ fs_writes (after run w) = fs_writes w
    /\ (logger_raises E Log77 = None ->
        outcome run w = Ok (PyStr (lit "Error calling LLM: " ++ exn_msg e))
        /\ In (mk_log ERROR (fstr_exn "Error calling LLM API: " e ""))
              (log_lines (after run w))).
Proof.
  intros E prompt use_cache w e Hmiss Hremote run.
  destruct (@call_llm_after_remote_failure E prompt use_cache w e Hmiss Hremote)
    as (w2 & F2 & W2 & Hc).
  unfold run, outcome, after. rewrite Hc.
  destruct (logger_raises E Log77) as [e'|]; simp_world.
  - split; [assumption|]. split; [assumption|]. discriminate.
  - split; [assumption|]. split; [assumption|]. intros _.
    split; [reflexivity|]. apply in_or_app. right. now left.
Qed.

Lemma C4_witness :
  let run := call_llm (quiet (RemoteRaises unreachable)) hi true in
  cache_file (after run (fresh None)) = cache_file (fresh None)
  /\ fs_writes (after run (fresh None)) = fs_writes (fresh None)
  /\ (logger_raises (quiet (RemoteRaises unreachable)) Log77 = None ->
      outcome run (fresh None)
      = Ok (PyStr (lit "Error calling LLM: " ++ exn_msg unreachable))
      /\ In (mk_log ERROR (fstr_exn "Error calling LLM API: " unreachable ""))
            (log_lines (after run (fresh None)))).
Proof.
  apply (@C4_remote_failure_returns_error_string
           (quiet (RemoteRaises unreachable)) hi true (fresh None) unreachable);
    reflexivity.
Defined.

(* ================================================================== *)
(** ** A missing response body *)

(** C6: for every prompt that the cache check does not find and whose
    remote call succeeds with [response.text] equal to [None], the response
    is the empty string: it is what the log receives at line 85, what the
    call returns whenever it returns, and, with caching on, what the cache
    file holds for the prompt once the reloaded mapping is saved. *)
Theorem C6_null_body_is_empty_string :
  forall (E : collaborators) (prompt : pystr) (use_cache : bool) (w : world),
    outcome (check_cache E prompt use_cache) w = Ok None ->
    remote E (request_for E prompt) = RemoteText None ->
    let run := call_llm E prompt use_cache in
    (logger_raises E Log85 = None ->
     In (mk_log INFO (fstr "RESPONSE (API): " (PyStr []) "")) (log_lines (after run w)))
    /\ (forall v, outcome run w = Ok v -> v = PyStr [])
    /\ (use_cache = false -> outcome run w = Ok (PyStr []))
    /\ (use_cache = true ->
        forall d b,
          outcome (reload_cache E) w = Ok (PyDict d) ->
          write_succeeds E (PyDict (dict_set prompt (PyStr []) d)) b ->
          outcome run w = Ok (PyStr [])
          /\ cache_file (after run w) = Some b
          /\ load_file b = Ok (PyDict (dict_set prompt (PyStr []) d))
          /\ dict_get prompt (dict_set prompt (PyStr []) d) = Some (PyStr [])).
Proof.
  intros E prompt use_cache w Hmiss Hremote run.
  destruct (log_prompt_run E prompt w) as (w1 & E1 & (F1 & _ & _ & W1) & R1 & L1).
  destruct (check_cache_frame E prompt use_cache w w1 F1) as (O2 & F2 & W2 & R2 & L2).
  set (w2 := after (check_cache E prompt use_cache) w1) in *.
  set (w3 := add_remote_call (request_for E prompt) w2).
  assert (E3 : generate E prompt w2 = (Ok (inl []), w3))
    by exact (@generate_text E prompt w2 None Hremote).
  destruct (log_response_run E [] w3) as (w4 & E4 & (F4 & _) & R4 & L4 & L4').
  assert (Hrun : run w
                 = match update_cache E prompt [] use_cache w4 with
                   | (Ok _, w5) => (Ok (PyStr []), w5)
                   | (Raise e, w5) => (Raise e, w5)
                   end).
  { unfold run. rewrite call_llm_blocks, E1.
    rewrite (run_pair (check_cache E prompt use_cache) w1), O2, Hmiss. fold w2.
    rewrite E3, E4. reflexivity. }
  assert (Hlog : forall r, In r (log_lines w4) ->
                           In r (log_lines (snd (update_cache E prompt [] use_cache w4)))).
  { unfold update_cache, save_cache, reload_cache. destruct use_cache; [|auto].
    destruct w4. unfold_ops. intros r Hr. run_blocks; auto;
      repeat (apply in_or_app; left); auto. }
  split; [|split; [|split]].
  - intros Hl. unfold after. rewrite Hrun.
    specialize (Hlog _ (L4' Hl)).
    destruct (update_cache E prompt [] use_cache w4) as [[[]|e] w5]; exact Hlog.
  - intros v. unfold outcome. rewrite Hrun.
    destruct (update_cache E prompt [] use_cache w4) as [[[]|e] w5]; cbn [fst];
      congruence.
  - intros ->. unfold outcome. rewrite Hrun. reflexivity.
  - intros ->. intros d b Hreload Hwrite.
    destruct (@call_llm_until_save E prompt w None d Hmiss Hremote Hreload)
      as (w4' & _ & _ & _ & _ & _ & Hc).
    cbn [text_or_empty] in Hc.
    rewrite (@save_cache_succeeds E d prompt [] b w4' Hwrite) in Hc.
    unfold run, outcome, after. rewrite Hc. cbn [fst snd]. repeat split.
    + apply load_file_dumps; [|apply Hwrite].
      apply dict_set_wf. eapply reload_cache_wf; eauto.
    + apply dict_get_set_same.
Qed.

Lemma C6_witness :
  let run := call_llm (quiet (RemoteText None)) hi true in
  (logger_raises (quiet (RemoteText None)) Log85 = None ->
   In (mk_log INFO (fstr "RESPONSE (API): " (PyStr []) ""))
      (log_lines (after run (fresh None))))
  /\ (forall v, outcome run (fresh None) = Ok v -> v = PyStr [])
  /\ (true = false -> outcome run (fresh None) = Ok (PyStr []))
  /\ (true = true ->
      forall d b,
        outcome (reload_cache (quiet (RemoteText None))) (fresh None) = Ok (PyDict d) ->
        write_succeeds (quiet (RemoteText None)) (PyDict (dict_set hi (PyStr []) d)) b ->
        outcome run (fresh None) = Ok (PyStr [])
        /\ cache_file (after run (fresh None)) = Some b
        /\ load_file b = Ok (PyDict (dict_set hi (PyStr []) d))
        /\ dict_get hi (dict_set hi (PyStr []) d) = Some (PyStr [])).
Proof.
  apply (@C6_null_body_is_empty_string (quiet (RemoteText None)) hi true (fresh None));
    reflexivity.
Defined.

(* ================================================================== *)
(** ** Updating the cache *)

(** C7: when caching is requested and the remote call succeeded, the
    mapping [d] that lines 91-101 reload is the content of the cache file
    (when the file loads), the mapping written back is [d] with the entry of
    the prompt inserted or overwritten and every other entry kept, and the
    file then holds exactly that mapping; if the write fails and the logger
    takes the error record, the failure is logged and the call still returns
    the response computed before the save. *)
Theorem C7_save_keeps_other_entries :
  forall (E : collaborators) (prompt : pystr) (w : world)
         (text : option pystr) (d : dict),
    outcome (check_cache E prompt true) w = Ok None ->
    remote E (request_for E prompt) = RemoteText text ->
    outcome (reload_cache E) w = Ok (PyDict d) ->
    let response_text := text_or_empty text in
    let cache' := dict_set prompt (PyStr response_text) d in
    let run := call_llm E prompt true in
    (forall b0 v, cache_file w = Some b0 -> read_raises E Read96 = None ->
                  load_file b0 = Ok v -> v = PyDict d)
    /\ dict_get prompt cache' = Some (PyStr response_text)
    /\ (forall k, k <> prompt -> dict_get k cache' = dict_get k d)
    /\ (forall b, write_succeeds E (PyDict cache') b ->
                  outcome run w = Ok (PyStr response_text)
                  /\ cache_file (after run w) = Some b
                  /\ load_file b = Ok (PyDict cache'))
    /\ (forall e, outcome (open_and_dump E (PyDict cache')) w = Raise e ->
                  logger_raises E Log111 = None ->
                  outcome run w = Ok (PyStr response_text)
                  /\ In (mk_log ERROR (fstr_exn "Failed to save cache: " e ""))
                        (log_lines (after run w))).
Proof.
  intros E prompt w text d Hmiss Hremote Hreload response_text cache' run.
  destruct (@call_llm_until_save E prompt w text d Hmiss Hremote Hreload)
    as (w4 & F4 & W4 & R4 & L4 & _ & Hc).
  fold response_text in Hc. fold run in Hc.
  split; [|split; [|split; [|split]]].
  - intros b0 v Hf Hr Hl.
    pose proof (@reload_cache_from_file E w b0 v Hf Hr Hl) as H.
    rewrite Hreload in H. now injection H as <-.
  - apply dict_get_set_same.
  - intros k Hk. now apply dict_get_set_other.
  - intros b Hwrite.
    rewrite (@save_cache_succeeds E d prompt response_text b w4 Hwrite) in Hc.
    unfold outcome, after. rewrite Hc. cbn [fst snd]. repeat split.
    apply load_file_dumps; [|apply Hwrite].
    apply dict_set_wf. eapply reload_cache_wf; eauto.
  - intros e He Hlog.
    rewrite (open_and_dump_outcome E (PyDict cache') w w4) in He.
    destruct (@save_cache_fails E d prompt response_text e w4 He Hlog)
      as (w5 & Hs & Hin).
    rewrite Hs in Hc. unfold outcome, after. rewrite Hc. cbn [fst snd]. now split.
Qed.

Lemma C7_witness :
  let response_text := text_or_empty (Some (lit "4")) in
  let cache' := dict_set hi (PyStr response_text) [(lit "a", PyStr (lit "b"))] in
  let run := call_llm answers_4 hi true in
  (forall b0 v, cache_file (fresh (Some a_is_b)) = Some b0 ->
                read_raises answers_4 Read96 = None ->
                load_file b0 = Ok v -> v = PyDict [(lit "a", PyStr (lit "b"))])
  /\ dict_get hi cache' = Some (PyStr response_text)
  /\ (forall k, k <> hi -> dict_get k cache'
                           = dict_get k [(lit "a", PyStr (lit "b"))])
  /\ (forall b, write_succeeds answers_4 (PyDict cache') b ->
                outcome run (fresh (Some a_is_b)) = Ok (PyStr response_text)
                /\ cache_file (after run (fresh (Some a_is_b))) = Some b
                /\ load_file b = Ok (PyDict cache'))
  /\ (forall e, outcome (open_and_dump answers_4 (PyDict cache'))
                        (fresh (Some a_is_b)) = Raise e ->
                logger_raises answers_4 Log111 = None ->
                outcome run (fresh (Some a_is_b)) = Ok (PyStr response_text)
                /\ In (mk_log ERROR (fstr_exn "Failed to save cache: " e ""))
                      (log_lines (after run (fresh (Some a_is_b))))).
Proof.
  apply (@C7_save_keeps_other_entries answers_4 hi (fresh (Some a_is_b))
           (Some (lit "4")) [(lit "a", PyStr (lit "b"))]);
    vm_compute; reflexivity.
Defined.

(* ================================================================== *)
(** ** Storing and reusing a response *)



(* ================================================================== *)
(** ** A cache file that is absent or cannot be loaded *)









(* ================================================================== *)
(** ** Non-ASCII text in the cache file *)

Lemma ascii_is_scalar c : c < 0x80 -> is_scalar c = true.
Proof.
  intros H. unfold is_scalar, is_surrogate. prop_to_bool; [lia|].
  apply andb_false_iff. left. prop_to_bool. lia.
Qed.

Lemma hex_digit_ascii n : n < 16 -> hex_digit n < 0x80.
Proof. unfold hex_digit. intros H. destruct (n <? 10); lia. Qed.

Lemma escape_cp_scalar c : is_scalar c = true -> forallb is_scalar (escape_cp c) = true.
Proof.
  intros Hc. unfold escape_cp.
  repeat match goal with
  | |- context [if ?b then _ else _] => destruct b eqn:?; [reflexivity|]
  end.
  destruct (c <? 0x20) eqn:E.
  - bool_to_prop. cbn [forallb].
    rewrite (@ascii_is_scalar (hex_digit (c / 16))) by (apply hex_digit_ascii; lia).
    rewrite (@ascii_is_scalar (hex_digit (c mod 16))) by (apply hex_digit_ascii; lia).
    reflexivity.
  - cbn [forallb]. now rewrite Hc.
Qed.

Lemma encode_basestring_scalar s :
  forallb is_scalar s = true -> forallb is_scalar (encode_basestring s) = true.
Proof.
  intros H. unfold encode_basestring. cbn [forallb].
  rewrite forallb_app. cbn [forallb]. rewrite andb_true_r.
  change (is_scalar QUOTE) with true. cbn [andb].
  induction s as [|c s IH]; [reflexivity|].
  cbn [forallb flat_map] in *. apply andb_prop in H as [Hc Hs].
  rewrite forallb_app, (escape_cp_scalar _ Hc). now apply IH.
Qed.

Lemma digits_scalar ds : forallb is_digit ds = true -> forallb is_scalar ds = true.
Proof.
  induction ds as [|c ds IH]; [reflexivity|]. cbn [forallb]. intros H.
  apply andb_prop in H as [Hc Hds]. rewrite (IH Hds), andb_true_r.
  apply ascii_is_scalar. unfold is_digit in Hc. bool_to_prop. lia.
Qed.

Lemma int_repr_scalar z : forallb is_scalar (int_repr z) = true.
Proof.
  unfold int_repr. destruct (Z.to_int z); cbn [forallb];
    rewrite digits_scalar by apply uint_digits_all; reflexivity.
Qed.

Lemma newline_indent_scalar k : forallb is_scalar (newline_indent k) = true.
Proof.
  unfold newline_indent. cbn [forallb]. change (is_scalar NEWLINE) with true.
  cbn [andb]. induction (4 * k)%nat as [|n IH]; [reflexivity|exact IH].
Qed.

Lemma join_scalar sep items :
  forallb is_scalar sep = true ->
  forallb (forallb is_scalar) items = true ->
  forallb is_scalar (join sep items) = true.
Proof.
  intros Hs. induction items as [|x items IH]; [reflexivity|].
  cbn [forallb]. intros H. apply andb_prop in H as [Hx Hi].
  destruct items as [|y items]; [exact Hx|].
  rewrite join_cons2, !forallb_app, Hx, Hs. now apply IH.
Qed.

Lemma forallb_over_map (A B : Type) (f : B -> bool) (g : A -> B) l :
  forallb f (map g l) = forallb (fun x => f (g x)) l.
Proof.
  induction l as [|x l IH]; [reflexivity|]. cbn [map forallb]. now rewrite IH.
Qed.

Lemma iterencode_scalar v :
  scalar_value v = true -> forall level, forallb is_scalar (iterencode level v) = true.
Proof.
  induction v as [|b|z|lex|s|vs IH|kvs IH] using pyvalue_ind'; intros Hv level.
  - reflexivity.
  - destruct b; reflexivity.
  - apply int_repr_scalar.
  - exact Hv.
  - now apply encode_basestring_scalar.
  - destruct vs as [|v0 vs]; [reflexivity|].
    change (iterencode level (PyList (v0 :: vs)))
      with ([LBRACKET] ++ newline_indent (S level)
            ++ join (COMMA :: newline_indent (S level))
                    (map (iterencode (S level)) (v0 :: vs))
            ++ newline_indent level ++ [RBRACKET]).
    rewrite !forallb_app, !newline_indent_scalar.
    rewrite join_scalar; [reflexivity|cbn [forallb]; now rewrite newline_indent_scalar|].
    cbn [scalar_value] in Hv. rewrite forallb_over_map. apply forallb_forall.
    intros x Hx. rewrite Forall_forall in IH. apply (IH x Hx).
    rewrite forallb_forall in Hv. now apply Hv.
  - destruct kvs as [|kv0 kvs]; [reflexivity|].
    change (iterencode level (PyDict (kv0 :: kvs)))
      with ([LBRACE] ++ newline_indent (S level)
            ++ join (COMMA :: newline_indent (S level))
                    (map (member_text (S level)) (kv0 :: kvs))
            ++ newline_indent level ++ [RBRACE]).
    rewrite !forallb_app, !newline_indent_scalar.
    rewrite join_scalar; [reflexivity|cbn [forallb]; now rewrite newline_indent_scalar|].
    cbn [scalar_value] in Hv. rewrite forallb_over_map. apply forallb_forall.
    intros x Hx. rewrite Forall_forall in IH. specialize (IH x Hx).
    rewrite forallb_forall in Hv. specialize (Hv x Hx).
    apply andb_prop in Hv as [Hk Hx'].
    unfold member_text. rewrite !forallb_app.
    rewrite (@encode_basestring_scalar (fst x) Hk), (IH Hx' (S level)). reflexivity.
Qed.

Lemma dict_set_scalar k s d :
  forallb is_scalar k = true -> forallb is_scalar s = true ->
  scalar_value (PyDict d) = true ->
  scalar_value (PyDict (dict_set k (PyStr s) d)) = true.
Proof.
  intros Hk Hs. cbn [scalar_value].
  induction d as [|[k' v'] d IH]; cbn [dict_set forallb fst snd scalar_value].
  - intros _. now rewrite Hk, Hs.
  - intros H. apply andb_prop in H as [H1 H2].
    destruct (pystr_eqb k' k) eqn:E; cbn [forallb fst snd scalar_value].
    + apply pystr_eqb_eq in E. subst k'. now rewrite Hk, Hs, H2.
    + now rewrite H1, (IH H2).
Qed.

(** C8: the cache file is written and read as UTF-8, and characters
    outside ASCII are stored as they are, not escaped.  For every mapping
    and every prompt and response: whenever the write of the mapping with
    the response under the prompt completes, the file holds the UTF-8
    encoding of the encoder's text, reading the file gives back the same
    mapping, and what it holds for the prompt is the response, code point
    for code point.  The write does complete, when opening and writing the
    file do not fail, for all strings of Unicode scalar values, ASCII or
    not. *)
Theorem C8_response_round_trips_through_cache_file :
  forall (E E' : collaborators) (w : world) (d : dict) (prompt response : pystr),
    wf_value (PyDict d) = true ->
    read_raises E' Read40 = None ->
    let cache' := PyDict (dict_set prompt (PyStr response) d) in
    let w1 := after (open_and_dump E cache') w in
    (forall c, 0x80 <= c -> escape_cp c = [c])
    /\ (forall b, write_succeeds E cache' b ->
          cache_file w1 = Some b
          /\ utf8_decode b = Some (json_dumps cache')
          /\ outcome (open_and_load E' Read40) w1 = Ok cache'
          /\ py_getitem cache' prompt = Ok (PyStr response))
    /\ (open_error (write_ends E) = None -> dump_error (write_ends E) = None ->
        scalar_value (PyDict d) = true ->
        forallb is_scalar prompt = true -> forallb is_scalar response = true ->
        exists b, write_succeeds E cache' b).
Proof.
  intros E E' w d prompt response Hwf Hread cache' w1.
  split; [|split].
  - intros c Hc. unfold escape_cp.
    repeat match goal with
    | |- context [if ?b then _ else _] =>
      rewrite (@if_false _ b)
        by (prop_to_bool; unfold BACKSLASH, QUOTE; lia)
    end.
    reflexivity.
  - intros b Hwrite.
    assert (Hfile : cache_file w1 = Some b).
    { unfold w1, after. now rewrite (@open_and_dump_succeeds E cache' b w Hwrite). }
    assert (Hload : load_file b = Ok cache').
    { apply load_file_dumps; [|apply Hwrite]. now apply dict_set_wf. }
    split; [exact Hfile|]. split; [apply utf8_decode_encode, Hwrite|]. split.
    + unfold outcome, open_and_load. rewrite Hread, Hfile. exact Hload.
    + unfold cache'. cbn [py_getitem]. now rewrite dict_get_set_same.
  - intros Ho Hd Hsd Hsp Hsr.
    destruct (@utf8_encode_total (json_dumps cache')) as [b Hb].
    { apply iterencode_scalar. now apply dict_set_scalar. }
    exists b. now repeat split.
Qed.

Lemma C8_witness :
  let cache' := PyDict (dict_set hi (PyStr ni_hao) [(lit "a", PyStr (lit "b"))]) in
  let w1 := after (open_and_dump answers_4 cache') (fresh None) in
  (forall c, 0x80 <= c -> escape_cp c = [c])
  /\ (forall b, write_succeeds answers_4 cache' b ->
        cache_file w1 = Some b
        /\ utf8_decode b = Some (json_dumps cache')
        /\ outcome (open_and_load answers_4 Read40) w1 = Ok cache'
        /\ py_getitem cache' hi = Ok (PyStr ni_hao))
  /\ (open_error (write_ends answers_4) = None ->
      dump_error (write_ends answers_4) = None ->
      scalar_value (PyDict [(lit "a", PyStr (lit "b"))]) = true ->
      forallb is_scalar hi = true -> forallb is_scalar ni_hao = true ->
      exists b, write_succeeds answers_4 cache' b).
Proof.
  apply (@C8_response_round_trips_through_cache_file
           answers_4 answers_4 (fresh None) [(lit "a", PyStr (lit "b"))] hi ni_hao);
    reflexivity.
Defined.

(* ================================================================== *)
(** ** Relations that every call keeps *)

Section Kept.

Variable R : world -> world -> Prop.
Hypothesis R_refl : forall w, R w w.
Hypothesis R_trans : forall a b c, R a b -> R b c -> R a c.
Hypothesis R_log : forall r w, R w (add_log r w).
Hypothesis R_stdout : forall m w, R w (add_stdout m w).
Hypothesis R_stat : forall w, R w (count_stat w).
Hypothesis R_read : forall w, R w (count_read w).
Hypothesis R_write : forall w, R w (count_write w).
Hypothesis R_file : forall f w, R w (set_cache_file f w).
Hypothesis R_remote : forall r w, R w (add_remote_call r w).

Lemma keeps_ret (A : Type) (a : A) : keeps R (ret a).
Proof. intros w. apply R_refl. Qed.

Lemma keeps_lift (A : Type) (r : result A) : keeps R (lift r).
Proof. intros w. apply R_refl. Qed.

Lemma keeps_bind (A B : Type) (m : M A) (k : A -> M B) :
  keeps R m -> (forall a, keeps R (k a)) -> keeps R (bind m k).
Proof.
  intros Hm Hk w. specialize (Hm w). unfold after, bind in *.
  destruct (m w) as [[a|e] w1]; cbn [snd] in *; [|exact Hm].
  eapply R_trans; [exact Hm|apply Hk].
Qed.

Lemma keeps_try_except (A : Type) (body : M A) (handler : exn -> M A) :
  keeps R body -> (forall e, keeps R (handler e)) -> keeps R (try_except body handler).
Proof.
  intros Hm Hk w. specialize (Hm w). unfold after, try_except in *.
  destruct (body w) as [[a|e] w1]; cbn [snd] in *; [exact Hm|].
  eapply R_trans; [exact Hm|apply Hk].
Qed.

Lemma keeps_logger_log E site lvl msg : keeps R (logger_log E site lvl msg).
Proof.
  intros w. unfold after, logger_log. destruct (logger_raises E site); cbn [snd]; auto.
Qed.

Lemma keeps_print msg : keeps R (print msg).
Proof. intros w. apply R_stdout. Qed.

Lemma keeps_os_path_exists : keeps R os_path_exists.
Proof. intros w. apply R_stat. Qed.

Lemma keeps_open_and_load E site : keeps R (open_and_load E site).
Proof.
  intros w. unfold after, open_and_load.
  destruct (read_raises E site); [apply R_read|].
  destruct (cache_file w); apply R_read.
Qed.

Lemma keeps_open_and_dump E cache : keeps R (open_and_dump E cache).
Proof.
  intros w. unfold after, open_and_dump.
  destruct (open_error (write_ends E)); [apply R_write|].
  destruct (dump_error (write_ends E)); cbn [snd].
  { eapply R_trans; [apply R_write|apply R_file]. }
  destruct (utf8_encode (json_dumps cache)); cbn [snd];
    (eapply R_trans; [apply R_write|apply R_file]).
Qed.

Lemma keeps_generate_content E prompt : keeps R (generate_content E prompt).
Proof.
  intros w. unfold after, generate_content.
  destruct (remote E (request_for E prompt)); apply R_remote.
Qed.

Create HintDb keeps.

#[local] Hint Resolve keeps_ret keeps_lift keeps_logger_log keeps_print keeps_os_path_exists
  keeps_open_and_load keeps_open_and_dump keeps_generate_content : keeps.

Ltac keeps_step :=
  first [ apply keeps_bind; [|intros ?]
        | apply keeps_try_except; [|intros ?]
        | solve [auto with keeps]
        | match goal with |- keeps _ (if ?b then _ else _) => destruct b end
        | match goal with |- keeps _ (match ?x with _ => _ end) => destruct x end ].

Lemma keeps_log_prompt E prompt : keeps R (log_prompt E prompt).
Proof. unfold log_prompt. repeat keeps_step. Qed.

Lemma keeps_check_cache E prompt use_cache : keeps R (check_cache E prompt use_cache).
Proof. unfold check_cache, load_cache. repeat keeps_step. Qed.

Lemma keeps_generate E prompt : keeps R (generate E prompt).
Proof. unfold generate. repeat keeps_step. Qed.

Lemma keeps_log_response E text : keeps R (log_response E text).
Proof. unfold log_response. repeat keeps_step. Qed.

Lemma keeps_update_cache E prompt text use_cache :
  keeps R (update_cache E prompt text use_cache).
Proof. unfold update_cache, reload_cache, save_cache. repeat keeps_step. Qed.

Lemma keeps_call_llm E prompt use_cache : keeps R (call_llm E prompt use_cache).
Proof.
  unfold call_llm.
  apply keeps_bind; [apply keeps_log_prompt|intros _].
  apply keeps_bind; [apply keeps_check_cache|intros [v|]]; [apply keeps_ret|].
  apply keeps_bind; [apply keeps_generate|intros [t|s]]; [|apply keeps_ret].
  apply keeps_bind; [apply keeps_log_response|intros _].
  apply keeps_bind; [apply keeps_update_cache|intros _]. apply keeps_ret.
Qed.

End Kept.

Lemma continues_refl w : continues w w.
Proof.
  unfold continues. repeat split; try lia; exists []; now rewrite app_nil_r.
Qed.

Lemma continues_trans a b c : continues a b -> continues b c -> continues a c.
Proof.
  intros ([l1 H1] & [s1 H2] & [r1 H3] & H4 & H5 & H6)
         ([l2 K1] & [s2 K2] & [r2 K3] & K4 & K5 & K6).
  unfold continues. repeat split; try lia.
  - exists (l1 ++ l2). now rewrite K1, H1, app_assoc.
  - exists (s1 ++ s2). now rewrite K2, H2, app_assoc.
  - exists (r1 ++ r2). now rewrite K3, H3, app_assoc.
Qed.

Lemma call_llm_continues E prompt use_cache w :
  continues w (after (call_llm E prompt use_cache) w).
Proof.
  apply keeps_call_llm; clear.
  - apply continues_refl.
  - apply continues_trans.
  - intros r w. unfold continues. simp_world.
    repeat split; try lia; eauto; exists []; now rewrite app_nil_r.
  - intros r w. unfold continues. simp_world.
    repeat split; try lia; eauto; exists []; now rewrite app_nil_r.
  - intros w. unfold continues. simp_world.
    repeat split; try lia; exists []; now rewrite app_nil_r.
  - intros w. unfold continues. simp_world.
    repeat split; try lia; exists []; now rewrite app_nil_r.
  - intros w. unfold continues. simp_world.
    repeat split; try lia; exists []; now rewrite app_nil_r.
  - intros f w. unfold continues. simp_world.
    repeat split; try lia; exists []; now rewrite app_nil_r.
  - intros r w. unfold continues. simp_world.
    repeat split; try lia; eauto; exists []; now rewrite app_nil_r.
Qed.

(* ================================================================== *)
(** ** The remote client and the cache file, call by call *)

Lemma log_prompt_exact E prompt w :
  log_prompt E prompt w
  = (Ok tt, logged_or_warned E Log29 (fstr "PROMPT: " (PyStr prompt) "")
                             "Warning: Failed to log prompt - " w).
Proof.
  unfold log_prompt, logged_or_warned. unfold_ops.
  destruct (logger_raises E Log29); reflexivity.
Qed.

Lemma log_response_exact E text w :
  log_response E text w
  = (Ok tt, logged_or_warned E Log85 (fstr "RESPONSE (API): " (PyStr text) "")
                             "Warning: Failed to log API response - " w).
Proof.
  unfold log_response, logged_or_warned. unfold_ops.
  destruct (logger_raises E Log85); reflexivity.
Qed.

(** The remote client is called exactly when lines 33-54 end in a miss. *)
Lemma call_llm_remote_calls E prompt use_cache w :
  remote_calls (after (call_llm E prompt use_cache) w)
  = match outcome (check_cache E prompt use_cache) w with
    | Ok None => remote_calls w ++ [request_for E prompt]
    | _ => remote_calls w
    end.
Proof.
  destruct (outcome (check_cache E prompt use_cache) w) as [[v|]|e] eqn:Hc.
  - exact (proj1 (proj2 (call_llm_hit _ _ _ _ Hc))).
  - now apply call_llm_miss_calls_remote.
  - destruct (log_prompt_run E prompt w) as (w1 & E1 & (F1 & _ & _ & W1) & R1 & L1).
    destruct (check_cache_frame E prompt use_cache w w1 F1) as (O2 & F2 & W2 & R2 & L2).
    unfold after in *. rewrite call_llm_blocks, E1.
    rewrite (run_pair (check_cache E prompt use_cache) w1), O2, Hc. cbn [snd].
    unfold after. congruence.
Qed.

(** The same for the cache file: it can change only after a miss and an
    answer of the remote client, with caching on. *)
Lemma call_llm_writes E prompt use_cache w :
  (cache_file (after (call_llm E prompt use_cache) w) = cache_file w
   /\ fs_writes (after (call_llm E prompt use_cache) w) = fs_writes w)
  \/ (use_cache = true
      /\ outcome (check_cache E prompt use_cache) w = Ok None
      /\ exists text, remote E (request_for E prompt) = RemoteText text).
Proof.
  destruct (log_prompt_run E prompt w) as (w1 & E1 & (F1 & _ & _ & W1) & R1 & L1).
  destruct (check_cache_frame E prompt use_cache w w1 F1) as (O2 & F2 & W2 & R2 & L2).
  set (w2 := after (check_cache E prompt use_cache) w1) in *.
  pose proof (generate_frame E prompt w2) as ((F3 & _ & _ & W3) & _).
  unfold after. rewrite call_llm_blocks, E1.
  rewrite (run_pair (check_cache E prompt use_cache) w1), O2. fold w2.
  destruct (outcome (check_cache E prompt use_cache) w) as [[v|]|e] eqn:Hc;
    cbn [snd]; try (left; split; congruence).
  destruct (remote E (request_for E prompt)) as [e|text] eqn:Hr.
  - left. unfold after in F3, W3.
    destruct (generate E prompt w2) as [[[t|s]|e'] w3] eqn:Hg; cbn [snd] in *;
      try (split; congruence).
    rewrite (@generate_raises E prompt w2 e Hr) in Hg.
    destruct (logger_raises E Log77); discriminate.
  - destruct use_cache.
    + right. eauto.
    + left. rewrite (@generate_text E prompt w2 text Hr).
      destruct (log_response_run E (text_or_empty text)
                  (add_remote_call (request_for E prompt) w2))
        as (w4 & E4 & (F4 & _ & _ & W4) & _).
      rewrite E4. cbn [update_cache ret snd]. simp_world. split; congruence.
Qed.

(** X1: one call makes at most one request to the remote client, and with
    caching off exactly one. *)
Theorem X1_at_most_one_remote_call :
  forall (E : collaborators) (prompt : pystr) (use_cache : bool) (w : world),
    let w' := after (call_llm E prompt use_cache) w in
    (remote_calls w' = remote_calls w
     \/ remote_calls w' = remote_calls w ++ [request_for E prompt])
    /\ (use_cache = false -> remote_calls w' = remote_calls w ++ [request_for E prompt])
    /\ (forall v, outcome (call_llm E prompt use_cache) w = Ok v ->
                  remote_calls w' = remote_calls w ->
                  outcome (check_cache E prompt use_cache) w = Ok (Some v)).
Proof.
  intros E prompt use_cache w w'. unfold w'. rewrite call_llm_remote_calls.
  split; [|split].
  - destruct (outcome (check_cache E prompt use_cache) w) as [[v|]|e]; auto.
  - intros ->. reflexivity.
  - intros v Hv.
    destruct (outcome (check_cache E prompt use_cache) w) as [[v'|]|e] eqn:Hc.
    + intros _. pose proof (proj1 (call_llm_hit _ _ _ _ Hc)). congruence.
    + intros H. exfalso. rewrite <- (app_nil_r (remote_calls w)) in H at 2.
      apply app_inv_head in H. discriminate.
    + intros _. exfalso.
      destruct (log_prompt_run E prompt w) as (w1 & E1 & (F1 & _) & _).
      destruct (check_cache_frame E prompt use_cache w w1 F1) as (O2 & _).
      unfold outcome in Hv. rewrite call_llm_blocks, E1 in Hv.
      rewrite (run_pair (check_cache E prompt use_cache) w1), O2, Hc in Hv.
      discriminate.
Qed.


(* ================================================================== *)
(** ** File accesses, the log and the standard output *)

(** Lines 33-54: at most one [os.path.exists] and one [open], the latter
    only when there is a file. *)
Lemma check_cache_footprint E prompt use_cache w :
  let w' := after (check_cache E prompt use_cache) w in
  (fs_stats w' <= S (fs_stats w))%nat
  /\ (fs_reads w' <= S (fs_reads w))%nat
  /\ (cache_file w = None -> fs_reads w' = fs_reads w)
  /\ (use_cache = true -> fs_stats w' = S (fs_stats w)).
Proof.
  cbv zeta. destruct w. unfold after, check_cache, load_cache.
  destruct use_cache; [|unfold_ops; simp_world; repeat split; try lia; easy].
  unfold_ops. run_blocks; repeat split; try lia; try easy.
Qed.

(** Lines 89-111: at most one [os.path.exists], one [open] to read and one
    [open] to write. *)
Lemma update_cache_footprint E prompt text use_cache w :
  let w' := after (update_cache E prompt text use_cache) w in
  (fs_stats w' <= S (fs_stats w))%nat
  /\ (fs_reads w' <= S (fs_reads w))%nat
  /\ (fs_writes w' <= S (fs_writes w))%nat
  /\ (cache_file w = None -> fs_reads w' = fs_reads w).
Proof.
  cbv zeta. destruct w. unfold after, update_cache, reload_cache, save_cache.
  destruct use_cache; [|unfold_ops; simp_world; repeat split; try lia].
  unfold_ops. run_blocks; repeat split; try lia; try easy.
Qed.

(** X3: the file accesses of one call: [os.path.exists] at most twice, the
    cache file opened at most twice to read and at most once to write;
    no [open] to read when there is no file; and the file is written, or
    opened to write, only with caching on, after a miss and an answer of
    the remote client. *)
Theorem X3_file_accesses_are_bounded :
  forall (E : collaborators) (prompt : pystr) (use_cache : bool) (w : world),
    let w' := after (call_llm E prompt use_cache) w in
    (fs_stats w <= fs_stats w' <= fs_stats w + 2)%nat
    /\ (fs_reads w <= fs_reads w' <= fs_reads w + 2)%nat
    /\ (fs_writes w <= fs_writes w' <= fs_writes w + 1)%nat
    /\ (cache_file w = None -> fs_reads w' = fs_reads w)
    /\ ((cache_file w' = cache_file w /\ fs_writes w' = fs_writes w)
        \/ (use_cache = true
            /\ outcome (check_cache E prompt use_cache) w = Ok None
            /\ exists text, remote E (request_for E prompt) = RemoteText text)).
Proof.
  intros E prompt use_cache w w'.
  pose proof (call_llm_continues E prompt use_cache w) as (_ & _ & _ & G1 & G2 & G3).
  fold w' in G1, G2, G3.
  assert (B : (fs_stats w' <= fs_stats w + 2)%nat
              /\ (fs_reads w' <= fs_reads w + 2)%nat
              /\ (fs_writes w' <= fs_writes w + 1)%nat
              /\ (cache_file w = None -> fs_reads w' = fs_reads w)).
  { unfold w', after. rewrite call_llm_blocks, log_prompt_exact.
    set (w1 := logged_or_warned _ _ _ _ w).
    assert (F1 : same_cache_file w w1).
    { unfold w1, logged_or_warned. destruct (logger_raises E Log29); now repeat split. }
    destruct F1 as (F1 & S1 & R1 & W1).
    pose proof (check_cache_footprint E prompt use_cache w1) as (S2 & R2 & N2 & _).
    destruct (check_cache_frame E prompt use_cache w1 w1 eq_refl) as (_ & F2 & W2 & _).
    unfold after in *.
    destruct (check_cache E prompt use_cache w1) as [[[v|]|e] w2]; cbn [snd] in *;
      try (repeat split; try lia; intros Hn; rewrite N2; congruence).
    pose proof (generate_frame E prompt w2) as ((F3 & S3 & R3 & W3) & _).
    unfold after in *.
    destruct (generate E prompt w2) as [[[t|s]|e] w3]; cbn [snd] in *;
      try (repeat split; try lia; intros Hn; rewrite R3, N2; congruence).
    rewrite log_response_exact.
    set (w4 := logged_or_warned _ _ _ _ w3).
    assert (F4 : same_cache_file w3 w4).
    { unfold w4, logged_or_warned. destruct (logger_raises E Log85); now repeat split. }
    destruct F4 as (F4 & S4 & R4 & W4).
    pose proof (update_cache_footprint E prompt t use_cache w4) as (S5 & R5 & W5 & N5).
    unfold after in *.
    destruct (update_cache E prompt t use_cache w4) as [[[]|e] w5]; cbn [snd] in *;
      (repeat split; try lia; intros Hn; rewrite N5, R4, R3, N2; congruence). }
  destruct B as (B1 & B2 & B3 & B4).
  split; [lia|]. split; [lia|]. split; [lia|]. split; [exact B4|].
  apply call_llm_writes.
Qed.




(* ================================================================== *)
(** ** The guarded calls of the logger, and the state of a call *)

Section Simulation.

(** A relation between worlds that sees the cache file, that the log and
    the standard output do not affect, and that is kept when both worlds
    make the same access to the file or the same remote call. *)
Variable R : world -> world -> Prop.
Hypothesis R_file : forall w w', R w w' -> cache_file w' = cache_file w.
Hypothesis R_log_l : forall r w w', R w w' -> R (add_log r w) w'.
Hypothesis R_log_r : forall r w w', R w w' -> R w (add_log r w').
Hypothesis R_stdout_l : forall m w w', R w w' -> R (add_stdout m w) w'.
Hypothesis R_stdout_r : forall m w w', R w w' -> R w (add_stdout m w').
Hypothesis R_stat : forall w w', R w w' -> R (count_stat w) (count_stat w').
Hypothesis R_read : forall w w', R w w' -> R (count_read w) (count_read w').
Hypothesis R_write : forall w w', R w w' -> R (count_write w) (count_write w').
Hypothesis R_set : forall f w w', R w w' -> R (set_cache_file f w) (set_cache_file f w').
Hypothesis R_remote :
  forall r w w', R w w' -> R (add_remote_call r w) (add_remote_call r w').

Lemma sim_ret (A : Type) (a : A) : simulates R (ret a) (ret a).
Proof. intros w w' H. now split. Qed.

Lemma sim_lift (A : Type) (r : result A) : simulates R (lift r) (lift r).
Proof. intros w w' H. now split. Qed.

Lemma sim_bind (A B : Type) (m m' : M A) (k k' : A -> M B) :
  simulates R m m' -> (forall a, simulates R (k a) (k' a)) ->
  simulates R (bind m k) (bind m' k').
Proof.
  intros Hm Hk w w' H. destruct (Hm w w' H) as [Ho Hw].
  unfold outcome, after, bind in *.
  destruct (m w) as [[a|e] w1], (m' w') as [[a'|e'] w1']; cbn [fst snd] in *;
    try discriminate.
  - injection Ho as ->. apply Hk, Hw.
  - injection Ho as ->. now split.
Qed.

Lemma sim_try_except (A : Type) (body body' : M A) (h h' : exn -> M A) :
  simulates R body body' -> (forall e, simulates R (h e) (h' e)) ->
  simulates R (try_except body h) (try_except body' h').
Proof.
  intros Hm Hk w w' H. destruct (Hm w w' H) as [Ho Hw].
  unfold outcome, after, try_except in *.
  destruct (body w) as [[a|e] w1], (body' w') as [[a'|e'] w1']; cbn [fst snd] in *;
    try discriminate.
  - now split.
  - injection Ho as ->. apply Hk, Hw.
Qed.

Variable E : collaborators.
Variable f : log_site -> option exn.
Hypothesis f_unguarded : forall s, guarded_site s = false -> f s = logger_raises E s.

Lemma sim_logger_log s lvl msg :
  guarded_site s = false ->
  simulates R (logger_log E s lvl msg) (logger_log (with_logger f E) s lvl msg).
Proof.
  intros Hs w w' H. unfold outcome, after, logger_log. cbn [logger_raises with_logger].
  rewrite (f_unguarded _ Hs). destruct (logger_raises E s); cbn [fst snd];
    (split; [reflexivity|auto]).
Qed.

(** A guarded call of the logger ends the same way whatever the logger
    does. *)
Lemma sim_guarded s lvl msg warning :
  simulates R
    (try_except (logger_log E s lvl msg)
                (fun log_err => print (fstr_exn warning log_err "")))
    (try_except (logger_log (with_logger f E) s lvl msg)
                (fun log_err => print (fstr_exn warning log_err ""))).
Proof.
  intros w w' H. unfold outcome, after. unfold_ops. cbn [logger_raises with_logger].
  destruct (logger_raises E s), (f s); cbn [fst snd];
    (split; [reflexivity|auto]).
Qed.

Lemma sim_print msg : simulates R (print msg) (print msg).
Proof. intros w w' H. split; [reflexivity|]. unfold after, print. cbn [snd]. auto. Qed.

Lemma sim_os_path_exists : simulates R os_path_exists os_path_exists.
Proof.
  intros w w' H. unfold outcome, after, os_path_exists. cbn [fst snd].
  rewrite (R_file H). split; [reflexivity|auto].
Qed.

Lemma sim_open_and_load site :
  simulates R (open_and_load E site) (open_and_load (with_logger f E) site).
Proof.
  intros w w' H. unfold outcome, after, open_and_load. cbn [read_raises with_logger].
  rewrite (R_file H).
  destruct (read_raises E site); [split; [reflexivity|cbn [snd]; auto]|].
  destruct (cache_file w); (split; [reflexivity|cbn [snd]; auto]).
Qed.

Lemma sim_open_and_dump cache :
  simulates R (open_and_dump E cache) (open_and_dump (with_logger f E) cache).
Proof.
  intros w w' H. unfold outcome, after, open_and_dump. cbn [write_ends with_logger].
  destruct (open_error (write_ends E)); [split; [reflexivity|cbn [snd]; auto]|].
  destruct (dump_error (write_ends E)); [split; [reflexivity|cbn [snd]; auto]|].
  destruct (utf8_encode (json_dumps cache)); (split; [reflexivity|cbn [snd]; auto]).
Qed.

Lemma sim_generate_content prompt :
  simulates R (generate_content E prompt) (generate_content (with_logger f E) prompt).
Proof.
  intros w w' H. unfold outcome, after, generate_content.
  change (request_for (with_logger f E) prompt) with (request_for E prompt).
  cbn [remote with_logger].
  destruct (remote E (request_for E prompt)); (split; [reflexivity|cbn [snd]; auto]).
Qed.

Ltac sim_step :=
  first [ apply sim_guarded
        | apply sim_bind; [|intros ?]
        | apply sim_try_except; [|intros ?]
        | apply sim_ret | apply sim_lift | apply sim_print | apply sim_os_path_exists
        | apply sim_open_and_load | apply sim_open_and_dump | apply sim_generate_content
        | apply sim_logger_log; reflexivity
        | match goal with |- simulates _ (if ?b then _ else _) _ => destruct b end
        | match goal with |- simulates _ (match ?x with _ => _ end) _ => destruct x end ].

Lemma sim_call_llm prompt use_cache :
  simulates R (call_llm E prompt use_cache) (call_llm (with_logger f E) prompt use_cache).
Proof.
  unfold call_llm, log_prompt, check_cache, load_cache, generate, log_response,
    update_cache, reload_cache, save_cache.
  repeat sim_step.
Qed.

End Simulation.





(** X6: a call keeps no state of its own.  What it returns or raises, and
    the cache file it leaves, depend on the world in which it starts only
    through the cache file: the log, the standard output, the earlier file
    accesses and the earlier remote requests do not matter. *)
Theorem X6_result_depends_on_the_cache_file_only :
  forall (E : collaborators) (prompt : pystr) (use_cache : bool) (w w' : world),
    cache_file w' = cache_file w ->
    outcome (call_llm E prompt use_cache) w' = outcome (call_llm E prompt use_cache) w
    /\ cache_file (after (call_llm E prompt use_cache) w')
       = cache_file (after (call_llm E prompt use_cache) w).
Proof.
  intros E prompt use_cache w w' Hf.
  change (call_llm E prompt use_cache)
    with (call_llm (with_logger (logger_raises E) E) prompt use_cache) at 1 3.
  apply (@sim_call_llm same_file); unfold same_file; simp_world; auto.
Qed.

Lemma X6_witness :
  let w' := mk_world (Some hi_is_4) [mk_log ERROR (fstr "x" PyNone "")] [] 3 2 1 [] in
  outcome (call_llm answers_4 hi true) w'
  = outcome (call_llm answers_4 hi true) (fresh (Some hi_is_4))
  /\ cache_file (after (call_llm answers_4 hi true) w')
     = cache_file (after (call_llm answers_4 hi true) (fresh (Some hi_is_4))).
Proof.
  apply (@X6_result_depends_on_the_cache_file_only answers_4 hi true
           (fresh (Some hi_is_4))
           (mk_world (Some hi_is_4) [mk_log ERROR (fstr "x" PyNone "")] [] 3 2 1 [])).
  reflexivity.
Defined.

(* ================================================================== *)
(** ** Hits, and caches that are mappings *)

(** X7: the whole effect of a cache hit.  When the cache file holds a JSON
    object that maps the prompt to [v], the call returns [v]; it asks once
    whether the file exists and opens it once to read; it does not write the
    file and does not call the remote client; and, the logger taking both
    records, the log gains the prompt and the cached response, in this
    order, and nothing is printed. *)
Theorem X7_cache_hit_effect :
  forall (E : collaborators) (prompt : pystr) (w : world) (b : bytes) (d : dict)
         (v : pyvalue),
    cache_file w = Some b ->
    read_raises E Read40 = None ->
    load_file b = Ok (PyDict d) ->
    dict_get prompt d = Some v ->
    let w' := after (call_llm E prompt true) w in
    outcome (call_llm E prompt true) w = Ok v
    /\ cache_file w' = Some b
    /\ fs_stats w' = S (fs_stats w)
    /\ fs_reads w' = S (fs_reads w)
    /\ fs_writes w' = fs_writes w
    /\ remote_calls w' = remote_calls w
    /\ (logger_raises E Log29 = None -> logger_raises E Log51 = None ->
        log_lines w' = log_lines w ++ [mk_log INFO (fstr "PROMPT: " (PyStr prompt) "");
                                        mk_log INFO (fstr "RESPONSE (cached): " v "")]
        /\ stdout w' = stdout w).
Proof.
  intros E prompt w b d v Hf Hr Hl Hg w'.
  assert (Hc : call_llm E prompt true w
               = (Ok v,
                  logged_or_warned E Log51 (fstr "RESPONSE (cached): " v "")
                    "Warning: Failed to log cached response - "
                    (count_read (count_stat
                       (logged_or_warned E Log29 (fstr "PROMPT: " (PyStr prompt) "")
                          "Warning: Failed to log prompt - " w))))).
  { rewrite call_llm_blocks, log_prompt_exact.
    destruct w as [f ? ? ? ? ? ?]. simp_world. subst f.
    unfold check_cache, load_cache, logged_or_warned. unfold_ops.
    destruct (logger_raises E Log29); simp_world; rewrite Hr; simp_world;
      rewrite Hl; simp_world; cbn [py_contains py_getitem]; unfold dict_mem;
      rewrite Hg; simp_world; destruct (logger_raises E Log51); reflexivity. }
  unfold w', outcome, after. rewrite Hc. cbn [fst snd]. unfold logged_or_warned.
  split; [reflexivity|].
  destruct (logger_raises E Log29), (logger_raises E Log51); simp_world;
    repeat split; try assumption; try congruence.
  now rewrite <- app_assoc.
Qed.

Lemma X7_witness :
  let w' := after (call_llm answers_4 hi true) (fresh (Some hi_is_7)) in
  outcome (call_llm answers_4 hi true) (fresh (Some hi_is_7)) = Ok (PyInt 7)
  /\ cache_file w' = Some hi_is_7
  /\ fs_stats w' = S (fs_stats (fresh (Some hi_is_7)))
  /\ fs_reads w' = S (fs_reads (fresh (Some hi_is_7)))
  /\ fs_writes w' = fs_writes (fresh (Some hi_is_7))
  /\ remote_calls w' = remote_calls (fresh (Some hi_is_7))
  /\ (logger_raises answers_4 Log29 = None -> logger_raises answers_4 Log51 = None ->
      log_lines w' = log_lines (fresh (Some hi_is_7))
                     ++ [mk_log INFO (fstr "PROMPT: " (PyStr hi) "");
                         mk_log INFO (fstr "RESPONSE (cached): " (PyInt 7) "")]
      /\ stdout w' = stdout (fresh (Some hi_is_7))).
Proof.
  apply (@X7_cache_hit_effect answers_4 hi (fresh (Some hi_is_7)) hi_is_7
           [(hi, PyInt 7)] (PyInt 7));
    vm_compute; reflexivity.
Defined.






(* ================================================================== *)
(** ** Caches that are not mappings, reloads that fail, successive stores *)

(** What lines 91-101 add to the log does not depend on the rest of the
    world. *)
Lemma reload_cache_log E w w' :
  cache_file w' = cache_file w ->
  (forall x, In x (log_lines w) -> In x (log_lines w')) ->
  forall r, In r (log_lines (after (reload_cache E) w)) ->
            In r (log_lines (after (reload_cache E) w')).
Proof.
  destruct w as [f l s n1 n2 n3 rc], w' as [f' l' s' n1' n2' n3' rc'].
  simp_world. intros -> Hl r.
  unfold after, reload_cache. unfold_ops. run_blocks; auto;
    rewrite !in_app_iff; intros [H|H]; auto.
Qed.

(** As [call_llm_until_save], for whatever value lines 91-101 reload. *)
Lemma call_llm_until_assignment E prompt w text cache :
  outcome (check_cache E prompt true) w = Ok None ->
  remote E (request_for E prompt) = RemoteText text ->
  outcome (reload_cache E) w = Ok cache ->
  exists w4,
    cache_file w4 = cache_file w
    /\ fs_writes w4 = fs_writes w
    /\ (forall r, In r (log_lines (after (reload_cache E) w)) -> In r (log_lines w4))
    /\ call_llm E prompt true w
       = match save_cache E cache prompt (text_or_empty text) w4 with
         | (Ok _, w5) => (Ok (PyStr (text_or_empty text)), w5)
         | (Raise e, w5) => (Raise e, w5)
         end.
Proof.
  intros Hmiss Hremote Hreload.
  destruct (log_prompt_run E prompt w) as (w1 & E1 & (F1 & _ & _ & W1) & R1 & L1).
  destruct (check_cache_frame E prompt true w w1 F1) as (O2 & F2 & W2 & R2 & L2).
  set (w2 := after (check_cache E prompt true) w1) in *.
  pose proof (generate_frame E prompt w2) as ((F3 & _ & _ & W3) & R3 & L3).
  set (w3 := add_remote_call (request_for E prompt) w2).
  assert (E3 : generate E prompt w2 = (Ok (inl (text_or_empty text)), w3))
    by now apply generate_text.
  unfold after in F3, W3, R3, L3. rewrite E3 in F3, W3, R3, L3. cbn [snd] in *.
  destruct (log_response_run E (text_or_empty text) w3)
    as (w3' & E4 & (F4 & _ & _ & W4) & R4 & L4 & L4').
  assert (Hf : cache_file w3' = cache_file w) by congruence.
  destruct (reload_cache_frame E w w3' Hf) as (O5 & F5 & W5 & R5 & L5).
  exists (after (reload_cache E) w3'). split; [congruence|]. split; [congruence|].
  split.
  - apply reload_cache_log; auto.
  - rewrite call_llm_blocks, E1.
    rewrite (run_pair (check_cache E prompt true) w1), O2, Hmiss. fold w2.
    rewrite E3, E4. unfold update_cache, bind.
    rewrite (run_pair (reload_cache E) w3'), O5, Hreload.
    destruct (save_cache E cache prompt (text_or_empty text)
                         (after (reload_cache E) w3')) as [[[]|e] w5]; reflexivity.
Qed.





Lemma reload_cache_read_fails E w b e :
  cache_file w = Some b -> read_raises E Read96 = Some e ->
  logger_raises E Log99 = None ->
  outcome (reload_cache E) w = Ok (PyDict [])
  /\ In (mk_log WARNING (fstr_exn "Failed to reload cache before saving: " e ""))
        (log_lines (after (reload_cache E) w)).
Proof.
  destruct w as [f ? ? ? ? ? ?]. simp_world. intros -> Hr Hl.
  unfold outcome, after, reload_cache. unfold_ops. simp_world.
  rewrite Hr. simp_world. rewrite Hl. simp_world. split; [reflexivity|].
  apply in_or_app. right. now left.
Qed.

(** X10: when the file was read at line 40 but cannot be read again at line
    96, the call goes on with an empty mapping: after a successful write the
    cache file holds the new entry and nothing else, so the entries that the
    file had are gone; the failure [e] of the second read is in the log as a
    warning and the response is returned. *)
Theorem X10_failed_reload_drops_old_entries :
  forall (E : collaborators) (prompt : pystr) (w : world) (b0 b : bytes) (d : dict)
         (text : option pystr) (e : exn),
    cache_file w = Some b0 ->
    load_file b0 = Ok (PyDict d) ->
    dict_get prompt d = None ->
    read_raises E Read40 = None ->
    read_raises E Read96 = Some e ->
    logger_raises E Log99 = None ->
    remote E (request_for E prompt) = RemoteText text ->
    write_succeeds E (PyDict [(prompt, PyStr (text_or_empty text))]) b ->
    let w' := after (call_llm E prompt true) w in
    outcome (call_llm E prompt true) w = Ok (PyStr (text_or_empty text))
    /\ cache_file w' = Some b
    /\ load_file b = Ok (PyDict [(prompt, PyStr (text_or_empty text))])
    /\ (forall k, k <> prompt ->
                  dict_get k [(prompt, PyStr (text_or_empty text))] = None)
    /\ In (mk_log WARNING (fstr_exn "Failed to reload cache before saving: " e ""))
          (log_lines w').
Proof.
  intros E prompt w b0 b d text e Hf Hl Hg H40 H96 H99 Hremote Hwrite w'.
  assert (Hmiss : outcome (check_cache E prompt true) w = Ok None)
    by (eapply check_cache_miss; eauto).
  destruct (@reload_cache_read_fails E w b0 e Hf H96 H99) as [Hreload Hlog].
  destruct (@call_llm_until_assignment E prompt w text (PyDict []) Hmiss Hremote Hreload)
    as (w4 & F4 & W4 & L4 & Hrun).
  rewrite (@save_cache_succeeds E [] prompt (text_or_empty text) b w4 Hwrite) in Hrun.
  unfold w', outcome, after. rewrite Hrun. cbn [fst snd]. simp_world.
  split; [reflexivity|]. split; [reflexivity|]. split.
  { apply load_file_dumps; [reflexivity|apply Hwrite]. }
  split; [|auto].
  intros k Hk. cbn [dict_get]. now rewrite pystr_eqb_neq by congruence.
Qed.

Lemma X10_witness :
  let E := mk_collaborators (fun _ => None)
             (fun s => match s with Read40 => None | Read96 => Some disk_full end)
             (mk_write_outcome None None 0)
             (fun _ => RemoteText (Some (lit "4"))) (fun _ => None) in
  let w' := after (call_llm E hi true) (fresh (Some a_is_b)) in
  outcome (call_llm E hi true) (fresh (Some a_is_b))
  = Ok (PyStr (text_or_empty (Some (lit "4"))))
  /\ cache_file w' = Some hi_is_4
  /\ load_file hi_is_4 = Ok (PyDict [(hi, PyStr (text_or_empty (Some (lit "4"))))])
  /\ (forall k, k <> hi ->
                dict_get k [(hi, PyStr (text_or_empty (Some (lit "4"))))] = None)
  /\ In (mk_log WARNING (fstr_exn "Failed to reload cache before saving: " disk_full ""))
        (log_lines w').
Proof.
  intros E.
  apply (@X10_failed_reload_drops_old_entries E hi (fresh (Some a_is_b)) a_is_b hi_is_4
           [(lit "a", PyStr (lit "b"))] (Some (lit "4")) disk_full);
    try reflexivity.
  repeat split.
Defined.

(** X11: stores accumulate.  Two calls with caching on, for two different
    prompts that the cache does not hold, both answered by the remote client
    and both saved: the cache file then holds the old mapping with the two
    new entries, every other key keeps its value, and each of the two
    prompts is a hit from then on. *)
Theorem X11_successive_stores_accumulate :
  forall (E1 E2 E3 : collaborators) (p1 p2 : pystr) (w : world) (d : dict)
         (t1 t2 : option pystr) (b1 b2 : bytes),
    holds_mapping w d ->
    dict_get p1 d = None -> dict_get p2 d = None -> p1 <> p2 ->
    read_raises E1 Read40 = None -> read_raises E1 Read96 = None ->
    read_raises E2 Read40 = None -> read_raises E2 Read96 = None ->
    read_raises E3 Read40 = None ->
    remote E1 (request_for E1 p1) = RemoteText t1 ->
    remote E2 (request_for E2 p2) = RemoteText t2 ->
    let r1 := PyStr (text_or_empty t1) in
    let r2 := PyStr (text_or_empty t2) in
    let cache2 := dict_set p2 r2 (dict_set p1 r1 d) in
    write_succeeds E1 (PyDict (dict_set p1 r1 d)) b1 ->
    write_succeeds E2 (PyDict cache2) b2 ->
    let w2 := after (call_llm E2 p2 true) (after (call_llm E1 p1 true) w) in
    cache_file w2 = Some b2
    /\ load_file b2 = Ok (PyDict cache2)
    /\ dict_get p1 cache2 = Some r1
    /\ dict_get p2 cache2 = Some r2
    /\ (forall k, k <> p1 -> k <> p2 -> dict_get k cache2 = dict_get k d)
    /\ outcome (call_llm E3 p1 true) w2 = Ok r1
    /\ outcome (call_llm E3 p2 true) w2 = Ok r2.
Proof.
  intros E1 E2 E3 p1 p2 w d t1 t2 b1 b2 Hd Hg1 Hg2 Hne H40 H96 H40' H96' H40''
         Hr1 Hr2 r1 r2 cache2 Hw1 Hw2 w2.
  set (w1 := after (call_llm E1 p1 true) w) in *.
  assert (Hmiss : outcome (check_cache E1 p1 true) w = Ok None).
  { unfold holds_mapping in Hd. destruct (cache_file w) as [b0|] eqn:Hf.
    - eapply check_cache_miss; eauto.
    - now apply check_cache_no_file. }
  assert (Hreload : outcome (reload_cache E1) w = Ok (PyDict d)).
  { unfold holds_mapping in Hd. destruct (cache_file w) as [b0|] eqn:Hf.
    - eapply reload_cache_from_file; eauto.
    - subst d. now apply reload_cache_no_file. }
  destruct (@call_llm_until_save E1 p1 w t1 d Hmiss Hr1 Hreload)
    as (w4 & _ & _ & _ & _ & _ & Hc).
  rewrite (@save_cache_succeeds E1 d p1 (text_or_empty t1) b1 w4 Hw1) in Hc.
  assert (Hf1 : cache_file w1 = Some b1).
  { unfold w1, after. rewrite Hc. reflexivity. }
  assert (Hwf1 : wf_value (PyDict (dict_set p1 r1 d)) = true).
  { apply dict_set_wf. eapply reload_cache_wf; eauto. }
  assert (Hl1 : load_file b1 = Ok (PyDict (dict_set p1 r1 d))).
  { apply load_file_dumps; [exact Hwf1|apply Hw1]. }
  assert (Hg2' : dict_get p2 (dict_set p1 r1 d) = None).
  { rewrite dict_get_set_other by congruence. exact Hg2. }
  assert (Hmiss2 : outcome (check_cache E2 p2 true) w1 = Ok None)
    by (eapply check_cache_miss; eauto).
  assert (Hreload2 : outcome (reload_cache E2) w1 = Ok (PyDict (dict_set p1 r1 d)))
    by (eapply reload_cache_from_file; eauto).
  destruct (@call_llm_until_save E2 p2 w1 t2 _ Hmiss2 Hr2 Hreload2)
    as (w4' & _ & _ & _ & _ & _ & Hc2).
  rewrite (@save_cache_succeeds E2 _ p2 (text_or_empty t2) b2 w4' Hw2) in Hc2.
  assert (Hf2 : cache_file w2 = Some b2).
  { unfold w2, after. rewrite Hc2. reflexivity. }
  assert (Hl2 : load_file b2 = Ok (PyDict cache2)).
  { apply load_file_dumps; [|apply Hw2]. apply dict_set_wf. exact Hwf1. }
  assert (G1 : dict_get p1 cache2 = Some r1).
  { unfold cache2. rewrite dict_get_set_other by congruence. apply dict_get_set_same. }
  assert (G2 : dict_get p2 cache2 = Some r2) by apply dict_get_set_same.
  split; [exact Hf2|]. split; [exact Hl2|]. split; [exact G1|]. split; [exact G2|].
  split; [|split].
  - intros k K1 K2. unfold cache2. now rewrite !dict_get_set_other by congruence.
  - refine (proj1 (call_llm_hit _ _ _ _ _)). eapply check_cache_hit; eauto.
  - refine (proj1 (call_llm_hit _ _ _ _ _)). eapply check_cache_hit; eauto.
Qed.

Lemma X11_witness :
  let r := PyStr (text_or_empty (Some (lit "4"))) in
  let cache2 := dict_set (lit "yo") r (dict_set hi r []) in
  let w2 := after (call_llm answers_4 (lit "yo") true)
                  (after (call_llm answers_4 hi true) (fresh None)) in
  cache_file w2 = Some hi_and_yo
  /\ load_file hi_and_yo = Ok (PyDict cache2)
  /\ dict_get hi cache2 = Some r
  /\ dict_get (lit "yo") cache2 = Some r
  /\ (forall k, k <> hi -> k <> lit "yo" -> dict_get k cache2 = dict_get k [])
  /\ outcome (call_llm (quiet (RemoteRaises unreachable)) hi true) w2 = Ok r
  /\ outcome (call_llm (quiet (RemoteRaises unreachable)) (lit "yo") true) w2 = Ok r.
Proof.
  apply (@X11_successive_stores_accumulate
           answers_4 answers_4 (quiet (RemoteRaises unreachable)) hi (lit "yo")
           (fresh None) [] (Some (lit "4")) (Some (lit "4")) hi_is_4 hi_and_yo);
    try reflexivity; try discriminate; repeat split.
Defined.

(* ================================================================== *)
(** ** The texts that the cache file can take *)

(** *** Which texts the file can take *)

Lemma escape_cp_scalar_inv c :
  forallb is_scalar (escape_cp c) = true -> is_scalar c = true.
Proof.
  destruct (c <? 0x80) eqn:E.
  - intros _. apply ascii_is_scalar. now apply N.ltb_lt.
  - apply N.ltb_ge in E. unfold escape_cp.
    repeat match goal with
    | |- context [if ?b then _ else _] =>
      rewrite (@if_false _ b) by (prop_to_bool; unfold BACKSLASH, QUOTE; lia)
    end.
    cbn [forallb]. now rewrite andb_true_r.
Qed.

Lemma encode_basestring_scalar_inv s :
  forallb is_scalar (encode_basestring s) = true -> forallb is_scalar s = true.
Proof.
  unfold encode_basestring. cbn [forallb]. rewrite forallb_app.
  intros H. apply andb_prop in H as [_ H]. apply andb_prop in H as [H _].
  induction s as [|c s IH]; [reflexivity|].
  cbn [flat_map forallb] in *. rewrite forallb_app in H.
  apply andb_prop in H as [Hc Hs].
  now rewrite (escape_cp_scalar_inv _ Hc), (IH Hs).
Qed.

Lemma join_scalar_inv sep items :
  forallb is_scalar (join sep items) = true ->
  forallb (forallb is_scalar) items = true.
Proof.
  induction items as [|x items IH]; [reflexivity|].
  destruct items as [|y items].
  - cbn [join forallb]. intros ->. reflexivity.
  - rewrite join_cons2, !forallb_app. intros H.
    apply andb_prop in H as [Hx H]. apply andb_prop in H as [_ H].
    cbn [forallb] in *. rewrite Hx. now apply IH.
Qed.

Lemma iterencode_scalar_inv v :
  forall level, forallb is_scalar (iterencode level v) = true -> scalar_value v = true.
Proof.
  induction v as [|b|z|lex|s|vs IH|kvs IH] using pyvalue_ind'; intros level Hv;
    try reflexivity.
  - exact Hv.
  - now apply encode_basestring_scalar_inv.
  - destruct vs as [|v0 vs]; [reflexivity|].
    change (iterencode level (PyList (v0 :: vs)))
      with ([LBRACKET] ++ newline_indent (S level)
            ++ join (COMMA :: newline_indent (S level))
                    (map (iterencode (S level)) (v0 :: vs))
            ++ newline_indent level ++ [RBRACKET]) in Hv.
    rewrite !forallb_app in Hv.
    apply andb_prop in Hv as [_ Hv]. apply andb_prop in Hv as [_ Hv].
    apply andb_prop in Hv as [Hv _]. apply join_scalar_inv in Hv.
    rewrite forallb_over_map in Hv. cbn [scalar_value].
    apply forallb_forall. intros x Hx. rewrite Forall_forall in IH.
    rewrite forallb_forall in Hv. exact (IH x Hx (S level) (Hv x Hx)).
  - destruct kvs as [|kv0 kvs]; [reflexivity|].
    change (iterencode level (PyDict (kv0 :: kvs)))
      with ([LBRACE] ++ newline_indent (S level)
            ++ join (COMMA :: newline_indent (S level))
                    (map (member_text (S level)) (kv0 :: kvs))
            ++ newline_indent level ++ [RBRACE]) in Hv.
    rewrite !forallb_app in Hv.
    apply andb_prop in Hv as [_ Hv]. apply andb_prop in Hv as [_ Hv].
    apply andb_prop in Hv as [Hv _]. apply join_scalar_inv in Hv.
    rewrite forallb_over_map in Hv. cbn [scalar_value].
    apply forallb_forall. intros x Hx. rewrite Forall_forall in IH.
    rewrite forallb_forall in Hv. specialize (Hv x Hx).
    unfold member_text in Hv. rewrite !forallb_app in Hv.
    apply andb_prop in Hv as [Hk Hv]. apply andb_prop in Hv as [_ Hv].
    cbv beta. rewrite (@encode_basestring_scalar_inv (fst x) Hk).
    exact (IH x Hx (S level) Hv).
Qed.

Lemma json_dumps_encodable v :
  (exists b, utf8_encode (json_dumps v) = Some b) <-> scalar_value v = true.
Proof.
  split.
  - intros [b Hb]. apply utf8_encode_scalar in Hb.
    now apply iterencode_scalar_inv in Hb.
  - intros Hv. apply utf8_encode_total. now apply iterencode_scalar.
Qed.

(** X12: UTF-8 as the cache file is opened with (strict): a string can be
    encoded exactly when it is made of Unicode scalar values, so not with a
    lone surrogate in it, and decoding what was encoded gives the string
    back. *)
Theorem X12_utf8_round_trip :
  forall s : pystr,
    (forallb is_scalar s = true
     <-> exists b, utf8_encode s = Some b /\ utf8_decode b = Some s)
    /\ (forallb is_scalar s = false <-> utf8_encode s = None).
Proof.
  intros s. split; split.
  - intros H. destruct (utf8_encode_total s H) as [b Hb]. exists b.
    split; [exact Hb|now apply utf8_decode_encode].
  - intros (b & Hb & _). eapply utf8_encode_scalar; eauto.
  - intros H. destruct (utf8_encode s) as [b|] eqn:Hb; [|reflexivity].
    apply utf8_encode_scalar in Hb. congruence.
  - intros H. destruct (forallb is_scalar s) eqn:Hs; [|reflexivity].
    destruct (utf8_encode_total s Hs) as [b Hb]. congruence.
Qed.



(** *** A save that fails *)

(** Lines 103-111 on a dict, when the logger takes the error record. *)
Lemma save_cache_exact E d prompt text w :
  logger_raises E Log111 = None ->
  save_cache E (PyDict d) prompt text w
  = match open_and_dump E (PyDict (dict_set prompt (PyStr text) d)) w with
    | (Ok _, w') => (Ok tt, w')
    | (Raise e, w') =>
      (Ok tt, add_log (mk_log ERROR (fstr_exn "Failed to save cache: " e "")) w')
    end.
Proof.
  intros Hl. unfold save_cache, bind, lift, try_except. cbn [py_setitem].
  destruct (open_and_dump E _ w) as [[[]|e] w']; [reflexivity|].
  unfold logger_log. now rewrite Hl.
Qed.

(** X14: what a failed save leaves.  After a miss and an answer of the
    remote client, with the reloaded cache a dict and the logger taking the
    error record, the response is returned whatever the save does, and:
    if [open(cache_file, 'w')] raises, the cache file is what it was;
    if the write raises after the file was opened, or the text cannot be
    encoded in UTF-8 (a lone surrogate in the prompt, in the response or in
    an entry read from the file), the old content is gone and the file holds
    the part of the new text that was flushed; the encoding error is logged
    as the reason. *)
Theorem X14_failed_save_effect :
  forall (E : collaborators) (prompt : pystr) (w : world) (text : option pystr)
         (d : dict),
    outcome (check_cache E prompt true) w = Ok None ->
    remote E (request_for E prompt) = RemoteText text ->
    outcome (reload_cache E) w = Ok (PyDict d) ->
    logger_raises E Log111 = None ->
    let cache' := PyDict (dict_set prompt (PyStr (text_or_empty text)) d) in
    let torn := utf8_encode_prefix (firstn (flushed (write_ends E)) (json_dumps cache')) in
    let w' := after (call_llm E prompt true) w in
    outcome (call_llm E prompt true) w = Ok (PyStr (text_or_empty text))
    /\ (forall e, open_error (write_ends E) = Some e ->
                  cache_file w' = cache_file w
                  /\ In (mk_log ERROR (fstr_exn "Failed to save cache: " e ""))
                        (log_lines w'))
    /\ (forall e, open_error (write_ends E) = None ->
                  dump_error (write_ends E) = Some e ->
                  cache_file w' = Some torn
                  /\ In (mk_log ERROR (fstr_exn "Failed to save cache: " e ""))
                        (log_lines w'))
    /\ (open_error (write_ends E) = None -> dump_error (write_ends E) = None ->
        scalar_value cache' = false ->
        cache_file w' = Some torn
        /\ In (mk_log ERROR (fstr_exn "Failed to save cache: " UnicodeEncodeError ""))
              (log_lines w')).
Proof.
  intros E prompt w text d Hmiss Hremote Hreload H111 cache' torn w'.
  destruct (@call_llm_until_save E prompt w text d Hmiss Hremote Hreload)
    as (w4 & F4 & _ & _ & _ & _ & Hrun).
  rewrite (@save_cache_exact E d prompt (text_or_empty text) w4 H111) in Hrun.
  fold cache' in Hrun. unfold open_and_dump in Hrun. fold cache' torn in Hrun.
  unfold w', outcome, after.
  split; [|split; [|split]].
  - rewrite Hrun. destruct (open_error (write_ends E)); [reflexivity|].
    destruct (dump_error (write_ends E)); [reflexivity|].
    destruct (utf8_encode (json_dumps cache')); reflexivity.
  - intros e He. rewrite Hrun, He. simp_world. split; [exact F4|].
    apply in_or_app. right. now left.
  - intros e Ho He. rewrite Hrun, Ho, He. simp_world. split; [reflexivity|].
    apply in_or_app. right. now left.
  - intros Ho He Hs. rewrite Hrun, Ho, He.
    destruct (utf8_encode (json_dumps cache')) as [b|] eqn:Hb.
    + assert (scalar_value cache' = true) by (apply json_dumps_encodable; eauto).
      congruence.
    + simp_world. split; [reflexivity|]. apply in_or_app. right. now left.
Qed.

Lemma X14_witness :
  let E := answers_4 in
  let w := fresh (Some k_is_surrogate) in
  let cache' := PyDict (dict_set hi (PyStr (text_or_empty (Some (lit "4"))))
                                 [(lit "k", PyStr [0xD800])]) in
  let torn := utf8_encode_prefix (firstn (flushed (write_ends E)) (json_dumps cache')) in
  let w' := after (call_llm E hi true) w in
  outcome (call_llm E hi true) w = Ok (PyStr (text_or_empty (Some (lit "4"))))
  /\ (forall e, open_error (write_ends E) = Some e ->
                cache_file w' = cache_file w
                /\ In (mk_log ERROR (fstr_exn "Failed to save cache: " e ""))
                      (log_lines w'))
  /\ (forall e, open_error (write_ends E) = None ->
                dump_error (write_ends E) = Some e ->
                cache_file w' = Some torn
                /\ In (mk_log ERROR (fstr_exn "Failed to save cache: " e ""))
                      (log_lines w'))
  /\ (open_error (write_ends E) = None -> dump_error (write_ends E) = None ->
      scalar_value cache' = false ->
      cache_file w' = Some torn
      /\ In (mk_log ERROR (fstr_exn "Failed to save cache: " UnicodeEncodeError ""))
            (log_lines w')).
Proof.
  apply (@X14_failed_save_effect answers_4 hi (fresh (Some k_is_surrogate))
           (Some (lit "4")) [(lit "k", PyStr [0xD800])]);
    vm_compute; reflexivity.
Defined.

(* ================================================================== *)
(** ** The configuration of the module *)








(* ================================================================== *)
(** ** The demonstration run *)

(** [main] as its two calls. *)
Lemma main_blocks log_file_path E1 E2 w :
  main log_file_path E1 E2 w
  = match call_llm E1 test_prompt true (before_first_call w) with
    | (Raise e, w1) => (Raise e, w1)
    | (Ok response1, w1) =>
      match call_llm E2 test_prompt true (before_second_call response1 w1) with
      | (Raise e, w2) => (Raise e, w2)
      | (Ok response2, w2) =>
        (Ok tt,
         add_stdout (fstr "Check cache file: " (PyStr cache_file_path) "")
           (add_stdout (fstr (String "010" "Check log file: ") (PyStr log_file_path) "")
              (add_stdout (fstr "Response 2: " response2 "") w2)))
      end
    end.
Proof.
  unfold main, print_str, bind, print, before_first_call, before_second_call.
  destruct (call_llm E1 test_prompt true _) as [[r1|e] w1]; [|reflexivity].
  destruct (call_llm E2 test_prompt true _) as [[r2|e] w2]; reflexivity.
Qed.

Lemma stdout_kept E prompt use_cache w m :
  In m (stdout w) -> In m (stdout (after (call_llm E prompt use_cache) w)).
Proof.
  intros H. destruct (call_llm_continues E prompt use_cache w) as (_ & [s Hs] & _).
  rewrite Hs. apply in_or_app. now left.
Qed.

(** X16: the demonstration run on a cache that does not hold its prompt.
    When the first call is answered by the remote client and saved, the
    second call is a hit: the run completes, the remote client was called
    once in all, and the two responses printed are the same. *)
Theorem X16_demo_second_call_is_a_hit :
  forall (log_file_path : pystr) (E1 E2 : collaborators) (w : world)
         (text : option pystr) (d : dict) (b : bytes),
    holds_mapping w d ->
    dict_get test_prompt d = None ->
    read_raises E1 Read40 = None ->
    read_raises E1 Read96 = None ->
    remote E1 (request_for E1 test_prompt) = RemoteText text ->
    write_succeeds E1 (PyDict (dict_set test_prompt (PyStr (text_or_empty text)) d)) b ->
    read_raises E2 Read40 = None ->
    let response := PyStr (text_or_empty text) in
    let w' := after (main log_file_path E1 E2) w in
    outcome (main log_file_path E1 E2) w = Ok tt
    /\ remote_calls w' = remote_calls w ++ [request_for E1 test_prompt]
    /\ cache_file w' = Some b
    /\ In (fstr "Response 1: " response "") (stdout w')
    /\ In (fstr "Response 2: " response "") (stdout w').
Proof.
  intros lf E1 E2 w text d b Hd Hnew H40 H96 Hremote Hwrite H40' response w'.
  set (w0 := before_first_call w).
  assert (Hd0 : holds_mapping w0 d) by exact Hd.
  assert (Hmiss : outcome (check_cache E1 test_prompt true) w0 = Ok None).
  { unfold holds_mapping in Hd0. destruct (cache_file w0) as [b0|] eqn:Hf.
    - eapply check_cache_miss; eauto.
    - now apply check_cache_no_file. }
  assert (Hreload : outcome (reload_cache E1) w0 = Ok (PyDict d)).
  { unfold holds_mapping in Hd0. destruct (cache_file w0) as [b0|] eqn:Hf.
    - eapply reload_cache_from_file; eauto.
    - subst d. now apply reload_cache_no_file. }
  destruct (@call_llm_until_save E1 test_prompt w0 text d Hmiss Hremote Hreload)
    as (w4 & F4 & W4 & R4 & L4 & _ & Hc).
  rewrite (@save_cache_succeeds E1 d test_prompt (text_or_empty text) b w4 Hwrite) in Hc.
  fold response in Hc.
  set (w1 := set_cache_file (Some b) (count_write w4)) in *.
  set (w2 := before_second_call response w1).
  assert (Hload : load_file b = Ok (PyDict (dict_set test_prompt response d))).
  { apply load_file_dumps; [|apply Hwrite].
    apply dict_set_wf. eapply reload_cache_wf; eauto. }
  assert (Hhit : outcome (check_cache E2 test_prompt true) w2 = Ok (Some response)).
  { eapply check_cache_hit; eauto; [reflexivity|apply dict_get_set_same]. }
  destruct (call_llm_hit _ _ _ _ Hhit) as (O2 & R2 & F2 & _).
  pose proof (@stdout_kept E2 test_prompt true w2 (fstr "Response 1: " response "")) as S2.
  unfold w', outcome, after. rewrite main_blocks. fold w0. rewrite Hc. fold w2.
  rewrite (run_pair (call_llm E2 test_prompt true) w2), O2. cbn [fst snd]. simp_world.
  split; [reflexivity|]. split; [|split; [|split]].
  - rewrite R2. unfold w2, before_second_call, w1. simp_world. rewrite R4. reflexivity.
  - rewrite F2. reflexivity.
  - rewrite !in_app_iff. do 3 left. apply S2.
    unfold w2, before_second_call. simp_world. rewrite !in_app_iff. left. right. now left.
  - rewrite !in_app_iff. do 2 left. right. now left.
Qed.

Lemma X16_witness :
  let lf := log_file answers_4 nov_4_2026 in
  let E2 := quiet (RemoteRaises unreachable) in
  let response := PyStr (text_or_empty (Some (lit "4"))) in
  let w' := after (main lf answers_4 E2) (fresh None) in
  outcome (main lf answers_4 E2) (fresh None) = Ok tt
  /\ remote_calls w' = remote_calls (fresh None) ++ [request_for answers_4 test_prompt]
  /\ cache_file w' = Some demo_cache
  /\ In (fstr "Response 1: " response "") (stdout w')
  /\ In (fstr "Response 2: " response "") (stdout w').
Proof.
  apply (@X16_demo_second_call_is_a_hit
           (log_file answers_4 nov_4_2026) answers_4 (quiet (RemoteRaises unreachable))
           (fresh None) (Some (lit "4")) [] demo_cache);
    try reflexivity.
  repeat split.
Defined.

(** X17: the demonstration run when the remote client fails both times.
    An error string is not cached, so the second call is no hit: the remote
    client is called twice, the cache file is not written, and each printed
    response is the error string of its call. *)
Theorem X17_demo_with_failing_remote :
  forall (log_file_path : pystr) (E1 E2 : collaborators) (w : world)
         (d : dict) (e1 e2 : exn),
    holds_mapping w d ->
    dict_get test_prompt d = None ->
    read_raises E1 Read40 = None ->
    read_raises E2 Read40 = None ->
    remote E1 (request_for E1 test_prompt) = RemoteRaises e1 ->
    remote E2 (request_for E2 test_prompt) = RemoteRaises e2 ->
    logger_raises E1 Log77 = None ->
    logger_raises E2 Log77 = None ->
    let w' := after (main log_file_path E1 E2) w in
    outcome (main log_file_path E1 E2) w = Ok tt
    /\ remote_calls w'
       = remote_calls w ++ [request_for E1 test_prompt; request_for E2 test_prompt]
    /\ cache_file w' = cache_file w
    /\ fs_writes w' = fs_writes w
    /\ In (fstr "Response 1: " (PyStr (lit "Error calling LLM: " ++ exn_msg e1)) "")
          (stdout w')
    /\ In (fstr "Response 2: " (PyStr (lit "Error calling LLM: " ++ exn_msg e2)) "")
          (stdout w').
Proof.
  intros lf E1 E2 w d e1 e2 Hd Hnew H40 H40' Hr1 Hr2 H77 H77' w'.
  set (w0 := before_first_call w).
  assert (Hmiss_at : forall E w0, cache_file w0 = cache_file w ->
                                  read_raises E Read40 = None ->
                                  outcome (check_cache E test_prompt true) w0 = Ok None).
  { intros E w0' Hf Hr. unfold holds_mapping in Hd. rewrite <- Hf in Hd.
    destruct (cache_file w0') as [b0|] eqn:Hf'.
    - eapply check_cache_miss; eauto.
    - now apply check_cache_no_file. }
  pose proof (Hmiss_at E1 w0 eq_refl H40) as Hmiss.
  destruct (@call_llm_after_remote_failure E1 test_prompt true w0 e1 Hmiss Hr1)
    as (v2 & F2 & W2 & Hc).
  rewrite H77 in Hc.
  pose proof (@call_llm_miss_calls_remote E1 test_prompt true w0 Hmiss) as R1.
  unfold after in R1. rewrite Hc in R1. cbn [snd] in R1.
  set (w1 := add_log _ (add_remote_call _ v2)) in *.
  set (w2 := before_second_call (PyStr (lit "Error calling LLM: " ++ exn_msg e1)) w1).
  assert (Hf2 : cache_file w2 = cache_file w).
  { unfold w2, before_second_call, w1. simp_world. exact F2. }
  pose proof (Hmiss_at E2 w2 Hf2 H40') as Hmiss2.
  destruct (@call_llm_after_remote_failure E2 test_prompt true w2 e2 Hmiss2 Hr2)
    as (v3 & F3 & W3 & Hc2).
  rewrite H77' in Hc2.
  pose proof (@call_llm_miss_calls_remote E2 test_prompt true w2 Hmiss2) as R2.
  pose proof (@stdout_kept E2 test_prompt true w2
                (fstr "Response 1: " (PyStr (lit "Error calling LLM: " ++ exn_msg e1)) ""))
    as S2.
  unfold after in R2, S2. rewrite Hc2 in R2, S2. cbn [snd] in R2, S2.
  unfold w', outcome, after. rewrite main_blocks. fold w0. rewrite Hc. fold w2.
  rewrite Hc2. cbn [fst snd]. simp_world.
  split; [reflexivity|]. split; [|split; [|split; [|split]]].
  - rewrite R2. unfold w2, before_second_call. simp_world.
    rewrite R1. unfold w0, before_first_call. simp_world.
    now rewrite <- app_assoc.
  - rewrite F3. exact Hf2.
  - rewrite W3. unfold w2, before_second_call, w1. simp_world. exact W2.
  - rewrite !in_app_iff. do 3 left. apply S2.
    unfold w2, before_second_call. simp_world. rewrite !in_app_iff. left. right. now left.
  - rewrite !in_app_iff. do 2 left. right. now left.
Qed.

Lemma X17_witness :
  let lf := log_file answers_4 nov_4_2026 in
  let E := quiet (RemoteRaises unreachable) in
  let w' := after (main lf E E) (fresh None) in
  outcome (main lf E E) (fresh None) = Ok tt
  /\ remote_calls w'
     = remote_calls (fresh None) ++ [request_for E test_prompt; request_for E test_prompt]
  /\ cache_file w' = cache_file (fresh None)
  /\ fs_writes w' = fs_writes (fresh None)
  /\ In (fstr "Response 1: " (PyStr (lit "Error calling LLM: " ++ exn_msg unreachable)) "")
        (stdout w')
  /\ In (fstr "Response 2: " (PyStr (lit "Error calling LLM: " ++ exn_msg unreachable)) "")
        (stdout w').
Proof.
  apply (@X17_demo_with_failing_remote
           (log_file answers_4 nov_4_2026) (quiet (RemoteRaises unreachable))
           (quiet (RemoteRaises unreachable)) (fresh None) [] unreachable unreachable);
    reflexivity.
Defined.

(* ================================================================== *)
(** ** What a call logs *)

Lemma logs_at_most_refl prompt n P l : logs_at_most prompt n P l l.
Proof.
  exists []. rewrite app_nil_r. repeat split; auto. cbn. lia.
Qed.

Lemma logs_at_most_trans prompt n m (P : Prop) l1 l2 l3 :
  logs_at_most prompt n P l1 l2 -> logs_at_most prompt m P l2 l3 ->
  logs_at_most prompt (n + m) P l1 l3.
Proof.
  intros (a & -> & La & Fa & Wa) (b & -> & Lb & Fb & Wb).
  exists (a ++ b). rewrite app_assoc. split; [reflexivity|].
  split; [rewrite length_app; lia|]. split.
  - apply Forall_app. now split.
  - intros H. apply Forall_app. split; auto.
Qed.

Lemma logs_at_most_weaken prompt n m (P : Prop) l l' :
  (n <= m)%nat -> logs_at_most prompt n P l l' -> logs_at_most prompt m P l l'.
Proof.
  intros H (a & -> & La & Fa & Wa). exists a. repeat split; auto. lia.
Qed.

Lemma logs_one prompt (P : Prop) r l :
  call_record prompt r -> (P -> log_level r <> WARNING) ->
  logs_at_most prompt 1 P l (l ++ [r]).
Proof.
  intros Hr Hw. exists [r]. repeat split; auto.
Qed.

Ltac a_record :=
  unfold call_record; eauto 12.

(** Lines 33-54 log at most one record: the warning of a failed load, or
    the cached response. *)
Lemma check_cache_logs E prompt use_cache w :
  logs_at_most prompt 1 (cache_file w = None) (log_lines w)
               (log_lines (after (check_cache E prompt use_cache) w)).
Proof.
  destruct w as [f l s n1 n2 n3 rc]. unfold after, check_cache, load_cache.
  destruct use_cache; [|apply logs_at_most_refl].
  unfold_ops. run_blocks;
    try apply logs_at_most_refl;
    (apply logs_one; [a_record|]; cbn [log_level]; intros; discriminate).
Qed.

Lemma generate_logs E prompt (P : Prop) w :
  logs_at_most prompt 1 P (log_lines w) (log_lines (after (generate E prompt) w)).
Proof.
  unfold after.
  destruct (remote E (request_for E prompt)) as [e|t] eqn:Hr.
  - rewrite (@generate_raises E prompt w e Hr).
    destruct (logger_raises E Log77); simp_world; [apply logs_at_most_refl|].
    apply logs_one; [a_record|]. cbn [log_level]. intros; discriminate.
  - rewrite (@generate_text E prompt w t Hr). simp_world. apply logs_at_most_refl.
Qed.

(** Lines 89-111 log at most two records: the warning of a failed reload
    and the error of a failed save. *)
Lemma update_cache_logs E prompt text use_cache w :
  logs_at_most prompt 2 (cache_file w = None) (log_lines w)
               (log_lines (after (update_cache E prompt text use_cache) w)).
Proof.
  destruct w as [f l s n1 n2 n3 rc]. unfold after, update_cache, reload_cache, save_cache.
  destruct use_cache; [|apply logs_at_most_refl].
  unfold_ops. run_blocks;
    try apply logs_at_most_refl;
    try (apply (@logs_at_most_weaken prompt 1 2); [lia|];
         apply logs_one; [a_record|]; cbn [log_level]; intros; discriminate).
  all: rewrite <- app_assoc; eexists; split; [reflexivity|];
    cbn [List.length app]; split; [lia|]; split;
    [apply Forall_cons; [a_record|apply Forall_cons; [a_record|apply Forall_nil]]
    |intros H; discriminate H].
Qed.

Lemma logged_or_warned_logs E site msg warning prompt (P : Prop) w :
  call_record prompt (mk_log INFO msg) ->
  logs_at_most prompt 1 P (log_lines w)
               (log_lines (logged_or_warned E site msg warning w)).
Proof.
  intros Hr. unfold logged_or_warned. destruct (logger_raises E site); simp_world.
  - apply logs_at_most_refl.
  - apply logs_one; [exact Hr|]. cbn [log_level]. intros; discriminate.
Qed.

Lemma logged_or_warned_file E site msg warning w :
  cache_file (logged_or_warned E site msg warning w) = cache_file w.
Proof. unfold logged_or_warned. now destruct (logger_raises E site). Qed.

(** X18: what a call logs.  One call hands the logger at most five records,
    appended to the log in the order of the calls, each from one of the
    seven calls of the logger in the source and with the level used there:
    the prompt, the cached response and the response of the remote client at
    INFO, a failed load or reload of the cache at WARNING, a failed remote
    call or save at ERROR; and when there is no cache file nothing is logged
    at WARNING. *)
Theorem X18_what_a_call_logs :
  forall (E : collaborators) (prompt : pystr) (use_cache : bool) (w : world),
    exists new,
      log_lines (after (call_llm E prompt use_cache) w) = log_lines w ++ new
      /\ (List.length new <= 5)%nat
      /\ Forall (call_record prompt) new
      /\ (cache_file w = None -> Forall (fun r => log_level r <> WARNING) new).
Proof.
  intros E prompt use_cache w.
  change (logs_at_most prompt 5 (cache_file w = None) (log_lines w)
            (log_lines (after (call_llm E prompt use_cache) w))).
  set (P := cache_file w = None).
  unfold after. rewrite call_llm_blocks, log_prompt_exact.
  set (w1 := logged_or_warned _ _ _ _ w).
  assert (L1 : logs_at_most prompt 1 P (log_lines w) (log_lines w1)).
  { apply logged_or_warned_logs. a_record. }
  assert (F1 : cache_file w1 = cache_file w) by apply logged_or_warned_file.
  pose proof (check_cache_logs E prompt use_cache w1) as L2. rewrite F1 in L2. fold P in L2.
  destruct (check_cache_frame E prompt use_cache w1 w1 eq_refl) as (_ & F2 & _).
  unfold after in *.
  destruct (check_cache E prompt use_cache w1) as [[[v|]|e] w2]; cbn [snd] in *;
    try solve [apply (@logs_at_most_weaken prompt 2 5); [lia|];
               eapply (@logs_at_most_trans prompt 1 1); eauto].
  assert (L12 : logs_at_most prompt 2 P (log_lines w) (log_lines w2))
    by (eapply (@logs_at_most_trans prompt 1 1); eauto).
  destruct (remote E (request_for E prompt)) as [e|text] eqn:Hr.
  - rewrite (@generate_raises E prompt w2 e Hr).
    destruct (logger_raises E Log77); cbn [snd]; simp_world.
    + apply (@logs_at_most_weaken prompt 2 5); [lia|exact L12].
    + apply (@logs_at_most_weaken prompt 3 5); [lia|].
      eapply (@logs_at_most_trans prompt 2 1); [exact L12|].
      apply logs_one; [a_record|]. cbn [log_level]. intros; discriminate.
  - rewrite (@generate_text E prompt w2 text Hr), log_response_exact.
    set (w3 := add_remote_call (request_for E prompt) w2).
    set (w4 := logged_or_warned _ _ _ _ w3).
    assert (L4 : logs_at_most prompt 1 P (log_lines w2) (log_lines w4)).
    { change (log_lines w2) with (log_lines w3).
      apply logged_or_warned_logs. a_record. }
    assert (F4 : cache_file w4 = cache_file w).
    { unfold w4. rewrite logged_or_warned_file. unfold w3. simp_world. congruence. }
    pose proof (update_cache_logs E prompt (text_or_empty text) use_cache w4) as L5.
    rewrite F4 in L5. fold P in L5. unfold after in L5.
    assert (L : logs_at_most prompt 5 P (log_lines w)
                  (log_lines (snd (update_cache E prompt (text_or_empty text)
                                                use_cache w4)))).
    { eapply (@logs_at_most_trans prompt 3 2); [|exact L5].
      eapply (@logs_at_most_trans prompt 2 1); eauto. }
    destruct (update_cache E prompt (text_or_empty text) use_cache w4) as [[[]|e] w5];
      exact L.
Qed.

(** *** A store adds one entry *)

Lemma dict_set_new k v d : dict_get k d = None -> dict_set k v d = d ++ [(k, v)].
Proof.
  induction d as [|[k' v'] d IH]; cbn [dict_get dict_set app]; [reflexivity|].
  destruct (pystr_eqb k' k); [discriminate|]. intros H. now rewrite IH.
Qed.

(** X19: a store adds one entry at the end.  After a miss on a cache that
    holds the mapping [d], an answer of the remote client and a successful
    write, the cache file holds the entries of [d], in their order and
    unchanged, followed by the new entry: nothing is dropped, reordered or
    rewritten. *)
Theorem X19_store_appends_one_entry :
  forall (E : collaborators) (prompt : pystr) (w : world) (text : option pystr)
         (d : dict) (b : bytes),
    holds_mapping w d ->
    dict_get prompt d = None ->
    read_raises E Read40 = None ->
    read_raises E Read96 = None ->
    remote E (request_for E prompt) = RemoteText text ->
    write_succeeds E (PyDict (d ++ [(prompt, PyStr (text_or_empty text))])) b ->
    cache_file (after (call_llm E prompt true) w) = Some b
    /\ load_file b = Ok (PyDict (d ++ [(prompt, PyStr (text_or_empty text))])).
Proof.
  intros E prompt w text d b Hd Hnew H40 H96 Hremote Hwrite.
  rewrite <- (dict_set_new _ (PyStr (text_or_empty text)) _ Hnew) in *.
  assert (Hmiss : outcome (check_cache E prompt true) w = Ok None).
  { unfold holds_mapping in Hd. destruct (cache_file w) as [b0|] eqn:Hf.
    - eapply check_cache_miss; eauto.
    - now apply check_cache_no_file. }
  assert (Hreload : outcome (reload_cache E) w = Ok (PyDict d)).
  { unfold holds_mapping in Hd. destruct (cache_file w) as [b0|] eqn:Hf.
    - eapply reload_cache_from_file; eauto.
    - subst d. now apply reload_cache_no_file. }
  destruct (@call_llm_until_save E prompt w text d Hmiss Hremote Hreload)
    as (w4 & _ & _ & _ & _ & _ & Hc).
  rewrite (@save_cache_succeeds E d prompt (text_or_empty text) b w4 Hwrite) in Hc.
  unfold after. rewrite Hc. split; [reflexivity|].
  apply load_file_dumps; [|apply Hwrite].
  apply dict_set_wf. eapply reload_cache_wf; eauto.
Qed.

Lemma X19_witness :
  cache_file (after (call_llm answers_4 (lit "yo") true) (fresh (Some hi_is_4)))
  = Some hi_and_yo
  /\ load_file hi_and_yo
     = Ok (PyDict ([(hi, PyStr (lit "4"))]
                   ++ [(lit "yo", PyStr (text_or_empty (Some (lit "4"))))])).
Proof.
  apply (@X19_store_appends_one_entry answers_4 (lit "yo") (fresh (Some hi_is_4))
           (Some (lit "4")) [(hi, PyStr (lit "4"))] hi_and_yo);
    try reflexivity.
  repeat split.
Defined.

(* ================================================================== *)
(** ** What a call prints *)

Lemma prints_at_most_refl n (Q : Prop) s : prints_at_most n Q s s.
Proof. exists []. rewrite app_nil_r. repeat split; auto. cbn. lia. Qed.

Lemma prints_at_most_trans n m (Q : Prop) s1 s2 s3 :
  prints_at_most n Q s1 s2 -> prints_at_most m Q s2 s3 ->
  prints_at_most (n + m) Q s1 s3.
Proof.
  intros (a & -> & La & Fa & Qa) (b & -> & Lb & Fb & Qb).
  exists (a ++ b). rewrite app_assoc. split; [reflexivity|].
  split; [rewrite length_app; lia|]. split.
  - apply Forall_app. now split.
  - intros H. now rewrite (Qa H), (Qb H).
Qed.

Lemma logged_or_warned_prints E site msg warning w :
  guarded_site site = true ->
  (forall e, call_warning (fstr_exn warning e "")) ->
  prints_at_most 1 (info_is_logged E) (stdout w)
                 (stdout (logged_or_warned E site msg warning w)).
Proof.
  intros Hs Hw. unfold logged_or_warned.
  destruct (logger_raises E site) as [e|] eqn:He; simp_world.
  - exists [fstr_exn warning e ""]. repeat split; auto.
    intros Q. rewrite (Q site Hs) in He. discriminate.
  - apply prints_at_most_refl.
Qed.

Lemma check_cache_prints E prompt use_cache w :
  prints_at_most 1 (info_is_logged E) (stdout w)
                 (stdout (after (check_cache E prompt use_cache) w)).
Proof.
  destruct w as [f l s n1 n2 n3 rc]. unfold after, check_cache, load_cache.
  destruct use_cache; [|apply prints_at_most_refl].
  unfold_ops. run_blocks; try apply prints_at_most_refl.
  all: eexists [_]; repeat split; auto;
    [repeat constructor; eexists; right; left; reflexivity
    |intros Q; rewrite (Q Log51 eq_refl) in *; discriminate].
Qed.

(** Lines 33-54 print nothing when they end in a miss. *)
Lemma check_cache_miss_prints E prompt use_cache w w2 :
  check_cache E prompt use_cache w = (Ok None, w2) -> stdout w2 = stdout w.
Proof.
  destruct w as [f l s n1 n2 n3 rc]. unfold check_cache, load_cache.
  destruct use_cache; [|unfold ret; intros H; now inversion H].
  unfold_ops. run_blocks; intros H; inversion H; reflexivity.
Qed.

Lemma generate_prints E prompt w :
  stdout (after (generate E prompt) w) = stdout w.
Proof.
  unfold after. destruct (remote E (request_for E prompt)) as [e|t] eqn:Hr.
  - rewrite (@generate_raises E prompt w e Hr). now destruct (logger_raises E Log77).
  - now rewrite (@generate_text E prompt w t Hr).
Qed.

Lemma update_cache_prints E prompt text use_cache w :
  stdout (after (update_cache E prompt text use_cache) w) = stdout w.
Proof.
  destruct w as [f l s n1 n2 n3 rc]. unfold after, update_cache, reload_cache, save_cache.
  destruct use_cache; [|reflexivity].
  unfold_ops. run_blocks; reflexivity.
Qed.

(** X20: what a call prints.  [print] is only the fallback of the three
    guarded calls of the logger: one call prints at most two lines, each the
    warning that a record was not logged, with the logger's error in it; and
    it prints nothing when the logger takes the records. *)
Theorem X20_what_a_call_prints :
  forall (E : collaborators) (prompt : pystr) (use_cache : bool) (w : world),
    exists new,
      stdout (after (call_llm E prompt use_cache) w) = stdout w ++ new
      /\ (List.length new <= 2)%nat
      /\ Forall call_warning new
      /\ (info_is_logged E -> new = []).
Proof.
  intros E prompt use_cache w.
  change (prints_at_most 2 (info_is_logged E) (stdout w)
            (stdout (after (call_llm E prompt use_cache) w))).
  unfold after. rewrite call_llm_blocks, log_prompt_exact.
  set (w1 := logged_or_warned _ _ _ _ w).
  assert (L1 : prints_at_most 1 (info_is_logged E) (stdout w) (stdout w1)).
  { apply logged_or_warned_prints; [reflexivity|intros e].
    eexists; left; reflexivity. }
  pose proof (check_cache_prints E prompt use_cache w1) as L2.
  unfold after in *.
  destruct (check_cache E prompt use_cache w1) as [[[v|]|e] w2] eqn:Hc; cbn [snd] in *;
    try solve [eapply (@prints_at_most_trans 1 1); eauto].
  pose proof (@check_cache_miss_prints E prompt use_cache w1 w2 Hc) as S2.
  pose proof (generate_prints E prompt w2) as S3. unfold after in S3.
  destruct (generate E prompt w2) as [[[t|s]|e] w3]; cbn [snd] in *;
    try solve [apply (@prints_at_most_trans 1 1 _ _ (stdout w1));
               [exact L1|rewrite S3, S2; apply prints_at_most_refl]].
  rewrite log_response_exact.
  set (w4 := logged_or_warned _ _ _ _ w3).
  assert (L4 : prints_at_most 1 (info_is_logged E) (stdout w1) (stdout w4)).
  { rewrite <- S2, <- S3. apply logged_or_warned_prints; [reflexivity|intros e].
    eexists; right; right; reflexivity. }
  pose proof (update_cache_prints E prompt t use_cache w4) as S5. unfold after in S5.
  assert (L : prints_at_most 2 (info_is_logged E) (stdout w)
                (stdout (snd (update_cache E prompt t use_cache w4)))).
  { rewrite S5. eapply (@prints_at_most_trans 1 1); eauto. }
  destruct (update_cache E prompt t use_cache w4) as [[[]|e] w5]; exact L.
Qed.
